(** * refig: provenance metadata embedded in PNG and SVG figures

    A shallow embedding of the [refig] package ([_png.py], [_svg.py],
    [_core.py]) and the properties of its two metadata codecs and of the
    [savefig] orchestrator.

    Conventions.  A Python [str] is the list of its code points and a
    Python [bytes] the list of its byte values, both as [list Z].  A call
    that can raise returns a [result]; the exception classes that the
    package distinguishes are the constructors of [exn].  Library
    functions whose behaviour rests on large tables ([json], [html.unescape],
    [datetime.fromisoformat], the Unicode database) are fields of the class
    [PyLib]; the properties that a proof needs from them are stated where
    they are used. *)

From Stdlib Require Import ZArith Ascii String Lia.
From stdpp Require Import base tactics option list sorting gmap.

Local Open Scope Z_scope.

(** ** Python values, exceptions and library interface *)

Abbreviation pystr := (list Z).
Abbreviation bytes := (list Z).

(** The code points of an ASCII literal. *)
Definition str (x : string) : pystr :=
  (λ a, Z.of_nat (nat_of_ascii a)) <$> list_ascii_of_string x.

Inductive exn :=
  | PNGMetadataError      (* refig._png.PNGMetadataError *)
  | SVGMetadataError      (* refig._svg.SVGMetadataError *)
  | UnsupportedExtension  (* ValueError("Unsupported file extension ...") *)
  | EmbeddingFailure      (* RuntimeError("Failed to embed metadata ...") *)
  | LoadFailure           (* RuntimeError("Unable to read refig metadata ...") *)
  | NoFigure              (* RuntimeError from _resolve_figure *)
  | RenderError           (* anything raised by figure.savefig *)
  | StructError           (* struct.error *)
  | UnicodeDecodeError
  | UnicodeEncodeError
  | JSONDecodeError
  | ValueError            (* json: an integer beyond the digit limit *)
  | RecursionError        (* json: a value nested too deep *)
  | TypeError             (* json.dumps on a value it cannot serialise *)
  | OSError.              (* mkdir / write_bytes failures *)

Global Instance exn_eq_dec : EqDecision exn.
Proof. solve_decision. Defined.

Inductive result (A : Type) :=
  | Ok (a : A)
  | Raise (e : exn).
Arguments Ok {A} a.
Arguments Raise {A} e.

Definition rbind {A B} (r : result A) (f : A → result B) : result B :=
  match r with
  | Ok a => f a
  | Raise e => Raise e
  end.

Notation "x ←! r ; k" := (rbind r (λ x, k))
  (at level 20, r at level 100, k at level 200, only parsing, right associativity).
Notation "' p ←! r ; k" := (rbind r (λ x, let 'p := x in k))
  (at level 20, p pattern, r at level 100, k at level 200, only parsing, right associativity).

(** [datetime.datetime]: calendar fields and an optional UTC offset in seconds
    ([None] for a naive value). *)
Record datetime := mkDatetime {
  year : Z; month : Z; day : Z;
  hour : Z; minute : Z; second : Z; microsecond : Z;
  tzinfo : option Z
}.

(** The values a metadata record can hold (floats are not modelled). *)
Local Unset Elimination Schemes.
Inductive pyval :=
  | VNone
  | VBool (b : bool)
  | VInt (z : Z)
  | VStr (s : pystr)
  | VList (l : list pyval)
  | VDict (d : gmap pystr pyval)
  | VDatetime (dt : datetime).
Local Set Elimination Schemes.

Abbreviation record := (gmap pystr pyval).

(** The strings that [json] reads back as they were written.  With
    [ensure_ascii] on, a surrogate is written as one escape and a code point
    beyond the basic plane as two, a high and a low surrogate; on reading,
    a high surrogate escape directly followed by a low one becomes one code
    point.  A string that holds such a pair of surrogates as two code
    points is therefore read back shorter than it was. *)
Fixpoint pair_free (s : pystr) : bool :=
  match s with
  | c :: s' =>
      match s' with
      | d :: _ =>
          negb (bool_decide (0xD800 ≤ c ≤ 0xDBFF) && bool_decide (0xDC00 ≤ d ≤ 0xDFFF))
      | [] => true
      end && pair_free s'
  | [] => true
  end.

(** The values that [json] reads back as they were written: no string in
    them, key or value, at any depth, holds a surrogate pair.  (A timestamp
    value is not serialised at all.) *)
#[warnings="-register-all"] Inductive json_exact : pyval → Prop :=
  | exact_none : json_exact VNone
  | exact_bool b : json_exact (VBool b)
  | exact_int z : json_exact (VInt z)
  | exact_str s : pair_free s = true → json_exact (VStr s)
  | exact_list l : Forall json_exact l → json_exact (VList l)
  | exact_dict d :
      (∀ k v, d !! k = Some v → pair_free k = true ∧ json_exact v) →
      json_exact (VDict d).

Definition json_exact_record (m : record) : Prop :=
  ∀ k v, m !! k = Some v → pair_free k = true ∧ json_exact v.

(** The same for a record of scalars, as a test. *)
Definition exact_scalar (v : pyval) : bool :=
  match v with
  | VNone | VBool _ | VInt _ => true
  | VStr s => pair_free s
  | _ => false
  end.

Definition exact_scalars (m : record) : bool :=
  forallb (λ kv, pair_free kv.1 && exact_scalar kv.2) (map_to_list m).

(** The exceptions that the package itself raises, and those of the file
    system; no library function that works on values raises one of them. *)
Definition raised_by_package (e : exn) : bool :=
  match e with
  | PNGMetadataError | SVGMetadataError | UnsupportedExtension | EmbeddingFailure
  | LoadFailure | NoFigure | OSError => true
  | _ => false
  end.

Class PyLib := {
  (** [json.dumps(m, separators=(",", ":"), sort_keys=True)] *)
  json_dumps : record → result pystr;
  (** [json.loads] *)
  json_loads : pystr → result pyval;
  (** [html.unescape] *)
  html_unescape : pystr → pystr;
  (** [datetime.fromisoformat]; [None] stands for [ValueError] *)
  fromisoformat : pystr → option datetime;
  (** Unicode database beyond ASCII: [\w], simple lower-case mapping of the
      regular-expression engine, [str.isalnum]; each is consulted only for
      code points outside ASCII *)
  uni_isword : Z → bool;
  uni_tolower : Z → Z;
  uni_isalnum : Z → bool;
  (** [str.lower] of a string that is not pure ASCII *)
  uni_str_lower : pystr → pystr;
  (** [%Y] of [strftime] for a year below 1000 (the C library decides whether
      it is padded) *)
  libc_year : Z → pystr
}.

(** What the proofs use of [json]: a record without surrogate pairs that
    serialises is read back as itself (writing and reading nest to the
    same depth, so a record that is not too deep to write is not too deep
    to read); the text of a record is printable ASCII ([ensure_ascii] is
    on) between braces; what [json.loads] raises ([JSONDecodeError], a
    plain [ValueError] for an integer with too many digits,
    [RecursionError] for a value nested too deep) is never one of the
    package's own exceptions. *)
Class JsonLaws `{!PyLib} : Prop := {
  loads_dumps : ∀ m t,
    json_exact_record m → json_dumps m = Ok t → json_loads t = Ok (VDict m);
  dumps_printable : ∀ m t, json_dumps m = Ok t → Forall (λ c, 0x20 ≤ c ≤ 0x7E) t;
  dumps_braces : ∀ m t, json_dumps m = Ok t → ∃ u, t = [123] ++ u ++ [125];
  loads_raises : ∀ t e, json_loads t = Raise e → raised_by_package e = false
}.

(** What the proofs use of [html.unescape]: it undoes [html.escape], which
    is defined below. *)
Definition unescape_undoes `{!PyLib} (escape : pystr → pystr) : Prop :=
  ∀ s, html_unescape (escape s) = s.

(** ** Byte-level helpers: [struct], [zlib.crc32], UTF-8 *)

Definition struct_pack_I (n : Z) : result bytes :=
  if bool_decide (0 ≤ n < 2 ^ 32)
  then Ok [n / 2 ^ 24; (n / 2 ^ 16) `mod` 256; (n / 2 ^ 8) `mod` 256; n `mod` 256]
  else Raise StructError.

Definition struct_unpack_I (b : bytes) : result Z :=
  match b with
  | [b0; b1; b2; b3] => Ok (b0 * 2 ^ 24 + b1 * 2 ^ 16 + b2 * 2 ^ 8 + b3)
  | _ => Raise StructError
  end.

Definition crc32_bit (c : Z) : Z :=
  if Z.odd c then Z.lxor (Z.shiftr c 1) 0xEDB88320 else Z.shiftr c 1.

Definition crc32_byte (c b : Z) : Z :=
  Nat.iter 8 crc32_bit (Z.lxor c b).

Definition crc32 (data : bytes) : Z :=
  Z.lxor (fold_left crc32_byte data 0xFFFFFFFF) 0xFFFFFFFF.

Definition utf8_encode_char (c : Z) : result bytes :=
  if bool_decide (0 ≤ c < 0x80) then Ok [c]
  else if bool_decide (0x80 ≤ c < 0x800) then
    Ok [0xC0 + c / 64; 0x80 + c `mod` 64]
  else if bool_decide (0xD800 ≤ c < 0xE000) then Raise UnicodeEncodeError
  else if bool_decide (0x800 ≤ c < 0x10000) then
    Ok [0xE0 + c / 4096; 0x80 + (c / 64) `mod` 64; 0x80 + c `mod` 64]
  else if bool_decide (0x10000 ≤ c < 0x110000) then
    Ok [0xF0 + c / 262144; 0x80 + (c / 4096) `mod` 64;
        0x80 + (c / 64) `mod` 64; 0x80 + c `mod` 64]
  else Raise UnicodeEncodeError.

Fixpoint utf8_encode (s : pystr) : result bytes :=
  match s with
  | [] => Ok []
  | c :: s' =>
      b ←! utf8_encode_char c;
      bs ←! utf8_encode s';
      Ok (b ++ bs)
  end.

Definition is_cont (b : Z) : bool := bool_decide (0x80 ≤ b < 0xC0).

Fixpoint utf8_decode (b : bytes) : result pystr :=
  match b with
  | [] => Ok []
  | b0 :: r0 =>
      if bool_decide (0 ≤ b0 < 0x80) then
        s ←! utf8_decode r0; Ok (b0 :: s)
      else if bool_decide (0xC2 ≤ b0 < 0xE0) then
        match r0 with
        | b1 :: r1 =>
            if is_cont b1 then
              s ←! utf8_decode r1;
              Ok ((b0 - 0xC0) * 64 + (b1 - 0x80) :: s)
            else Raise UnicodeDecodeError
        | _ => Raise UnicodeDecodeError
        end
      else if bool_decide (0xE0 ≤ b0 < 0xF0) then
        match r0 with
        | b1 :: b2 :: r2 =>
            let c := (b0 - 0xE0) * 4096 + (b1 - 0x80) * 64 + (b2 - 0x80) in
            if is_cont b1 && is_cont b2
               && bool_decide (0x800 ≤ c) && negb (bool_decide (0xD800 ≤ c < 0xE000))
            then s ←! utf8_decode r2; Ok (c :: s)
            else Raise UnicodeDecodeError
        | _ => Raise UnicodeDecodeError
        end
      else if bool_decide (0xF0 ≤ b0 < 0xF5) then
        match r0 with
        | b1 :: b2 :: b3 :: r3 =>
            let c := (b0 - 0xF0) * 262144 + (b1 - 0x80) * 4096
                     + (b2 - 0x80) * 64 + (b3 - 0x80) in
            if is_cont b1 && is_cont b2 && is_cont b3
               && bool_decide (0x10000 ≤ c < 0x110000)
            then s ←! utf8_decode r3; Ok (c :: s)
            else Raise UnicodeDecodeError
        | _ => Raise UnicodeDecodeError
        end
      else Raise UnicodeDecodeError
  end.

(** [str.encode("latin-1")] *)
Definition latin1_encode (s : pystr) : result bytes :=
  if forallb (λ c, bool_decide (0 ≤ c < 256)) s then Ok s else Raise UnicodeEncodeError.

(** [bytes.decode("latin-1")] never fails. *)
Definition latin1_decode (b : bytes) : pystr := b.

(** [bytes.partition(b"\x00")]: the part before the first zero byte and the
    part after it (empty when there is none). *)
Fixpoint partition0 (b : bytes) : bytes * bytes :=
  match b with
  | [] => ([], [])
  | x :: r => if bool_decide (x = 0) then ([], r)
              else let '(k, t) := partition0 r in (x :: k, t)
  end.

Definition startswith (b p : list Z) : bool := bool_decide (take (length p) b = p).

Definition is_empty (b : list Z) : bool := match b with [] => true | _ => false end.

(** ** [refig._png] *)

Module Png.
Section Png.
Context `{!PyLib}.

Definition PNG_SIGNATURE : bytes := [137; 80; 78; 71; 13; 10; 26; 10].
Definition _METADATA_KEYWORD : pystr := str "refig".
Definition tEXt : bytes := str "tEXt".

Definition _build_text_chunk (keyword text : pystr) : result bytes :=
  keyword_bytes ←! latin1_encode keyword;
  text_bytes ←! utf8_encode text;
  let chunk_data := keyword_bytes ++ [0] ++ text_bytes in
  let chunk_type := tEXt in
  length ←! struct_pack_I (Z.of_nat (length chunk_data));
  crc ←! struct_pack_I (Z.land (crc32 (chunk_type ++ chunk_data)) 0xFFFFFFFF);
  Ok (length ++ chunk_type ++ chunk_data ++ crc).

Definition embed_metadata (png_bytes : bytes) (metadata : record) : result bytes :=
  if negb (startswith png_bytes PNG_SIGNATURE) then Raise PNGMetadataError
  else
    payload ←! json_dumps metadata;
    chunk ←! _build_text_chunk _METADATA_KEYWORD payload;
    Ok (PNG_SIGNATURE ++ chunk ++ drop (length PNG_SIGNATURE) png_bytes).

Definition _split_text_chunk (chunk_data : bytes) : result (pystr * pystr) :=
  let '(keyword, text) := partition0 chunk_data in
  if is_empty keyword then Raise PNGMetadataError
  else
    text' ←! utf8_decode text;
    Ok (latin1_decode keyword, text').

(** What the generator [_iter_chunks] produces: the chunks it yields, ended
    by exhaustion ([Stop]) or by the [struct.error] of [struct.unpack] on a
    length field of fewer than four bytes ([Fault]). *)
Inductive chunks :=
  | Stop
  | Fault
  | Yield (chunk_type chunk_data : bytes) (k : chunks).

(** One turn of the [while] loop per unit of [fuel]; [rest] is
    [png_bytes[index:]]. *)
Fixpoint iter_from (fuel : nat) (rest : bytes) : chunks :=
  match fuel with
  | O => Stop
  | S fuel' =>
      let length_bytes := take 4 rest in
      if is_empty length_bytes then Stop
      else
        match struct_unpack_I length_bytes with
        | Raise _ => Fault
        | Ok len =>
            let rest := drop 4 rest in
            let chunk_type := take 4 rest in
            let rest := drop 4 rest in
            let chunk_data := take (Z.to_nat len) rest in
            let rest := drop (Z.to_nat len) rest in
            let rest := drop 4 rest in
            Yield chunk_type chunk_data
                  (if is_empty rest then Stop else iter_from fuel' rest)
        end
  end.

Definition _iter_chunks (png_bytes : bytes) : chunks :=
  let rest := drop (length PNG_SIGNATURE) png_bytes in
  iter_from (S (length rest)) rest.

Fixpoint scan (cs : chunks) : result pyval :=
  match cs with
  | Stop => Raise PNGMetadataError
  | Fault => Raise StructError
  | Yield chunk_type chunk_data k =>
      if bool_decide (chunk_type = tEXt) then
        '(keyword, text) ←! _split_text_chunk chunk_data;
        if bool_decide (keyword = _METADATA_KEYWORD) then json_loads text
        else scan k
      else scan k
  end.

Definition extract_metadata (png_bytes : bytes) : result pyval :=
  if negb (startswith png_bytes PNG_SIGNATURE) then Raise PNGMetadataError
  else scan (_iter_chunks png_bytes).

(** The keyword of a text chunk: what precedes the first zero byte. *)
Definition keyword_of (chunk_data : bytes) : bytes := (partition0 chunk_data).1.

(** The reserved metadata blocks of a chunk stream: the text chunks whose
    keyword is the reserved one. *)
Fixpoint reserved_blocks (cs : chunks) : nat :=
  match cs with
  | Yield chunk_type chunk_data k =>
      (if bool_decide (chunk_type = tEXt ∧ keyword_of chunk_data = _METADATA_KEYWORD)
       then 1 else 0)%nat + reserved_blocks k
  | _ => O
  end.

(** A stream that yields the chunks of [l] and goes on as [k]. *)
Definition prepend (l : list (bytes * bytes)) (k : chunks) : chunks :=
  foldr (λ c k, Yield c.1 c.2 k) k l.

(** A chunk that the scan passes over: not a text chunk, or a text chunk
    with a keyword that is neither empty nor the reserved one and with text
    that is valid UTF-8. *)
Definition passed_over (c : bytes * bytes) : Prop :=
  c.1 ≠ tEXt
  ∨ (keyword_of c.2 ≠ [] ∧ keyword_of c.2 ≠ _METADATA_KEYWORD
     ∧ ∃ text, utf8_decode (partition0 c.2).2 = Ok text).

(** A well-framed chunk: length, type, data, CRC-32 of type and data, as
    [_build_text_chunk] lays them out. *)
Definition big_endian (n : Z) : bytes :=
  [n / 2 ^ 24; (n / 2 ^ 16) `mod` 256; (n / 2 ^ 8) `mod` 256; n `mod` 256].

Definition frame (c : bytes * bytes) : bytes :=
  big_endian (Z.of_nat (length c.2)) ++ c.1 ++ c.2
  ++ big_endian (Z.land (crc32 (c.1 ++ c.2)) 0xFFFFFFFF).

Definition well_framed (c : bytes * bytes) : Prop :=
  length c.1 = 4%nat ∧ Z.of_nat (length c.2) < 2 ^ 32.

End Png.
End Png.

(** ** Text helpers: character classes, [str.strip], [html.escape], and the
    pieces of the regular-expression engine that [refig._svg] relies on *)

Definition between (lo hi c : Z) : bool := bool_decide (lo ≤ c ≤ hi).

Definition ascii_isalnum (c : Z) : bool :=
  between 48 57 c || between 65 90 c || between 97 122 c.

(** A hexadecimal digit. *)
Definition is_hex (c : Z) : bool := between 48 57 c || between 97 102 c || between 65 70 c.

Definition ascii_iscased (c : Z) : bool := between 65 90 c || between 97 122 c.

Definition ascii_tolower (c : Z) : Z := if between 65 90 c then c + 32 else c.

(** [str.isspace] for one character (the Unicode white-space table is short
    enough to be written out). *)
Definition py_isspace (c : Z) : bool :=
  between 9 13 c || between 28 32 c || bool_decide (c = 0x85) || bool_decide (c = 0xA0)
  || bool_decide (c = 0x1680) || between 0x2000 0x200A c || bool_decide (c = 0x2028)
  || bool_decide (c = 0x2029) || bool_decide (c = 0x202F) || bool_decide (c = 0x205F)
  || bool_decide (c = 0x3000).

Fixpoint lstrip (s : pystr) : pystr :=
  match s with
  | c :: s' => if py_isspace c then lstrip s' else s
  | [] => []
  end.

Definition rstrip (s : pystr) : pystr := reverse (lstrip (reverse s)).

(** [str.strip()] *)
Definition strip (s : pystr) : pystr := rstrip (lstrip s).

(** [str.replace] of a single character by a string. *)
Definition replace_char (c : Z) (by_ : pystr) (s : pystr) : pystr :=
  mjoin ((λ x, if bool_decide (x = c) then by_ else [x]) <$> s).

(** [html.escape(s)] with its default [quote=True]: five replacements, the
    ampersand first. *)
Definition html_escape (s : pystr) : pystr :=
  let s := replace_char 38 (str "&amp;") s in
  let s := replace_char 60 (str "&lt;") s in
  let s := replace_char 62 (str "&gt;") s in
  let s := replace_char 34 (str "&quot;") s in
  let s := replace_char 39 (str "&#x27;") s in
  s.

(** What [html_escape] does to one character. *)
Definition escape_char (c : Z) : pystr :=
  if bool_decide (c = 38) then str "&amp;"
  else if bool_decide (c = 60) then str "&lt;"
  else if bool_decide (c = 62) then str "&gt;"
  else if bool_decide (c = 34) then str "&quot;"
  else if bool_decide (c = 39) then str "&#x27;"
  else [c].

Section Regex.
Context `{!PyLib}.

(** [\w] and the engine's lower-casing: ASCII written out, the rest from the
    Unicode tables. *)
Definition isword (c : Z) : bool :=
  if bool_decide (0 ≤ c < 128) then ascii_isalnum c || bool_decide (c = 95)
  else uni_isword c.

Definition tolower (c : Z) : Z :=
  if bool_decide (0 ≤ c < 128) then ascii_tolower c else uni_tolower c.

(** One literal of a pattern compiled with [re.IGNORECASE] (a [str] pattern,
    so Unicode rules): a caseless literal must be equal; a letter matches
    every character whose lower case is the letter's, and [i] and [s] also
    match the characters that lower to dotless i and long s. *)
Definition lit_ignorecase (p d : Z) : bool :=
  if ascii_iscased p then
    let lo := ascii_tolower p in
    let l := tolower d in
    bool_decide (l = lo)
    || (bool_decide (lo = 105) && bool_decide (l = 0x131))
    || (bool_decide (lo = 115) && bool_decide (l = 0x17F))
  else bool_decide (d = p).

(** A run of literals at the head of [s]: the rest of [s] when they match. *)
Fixpoint match_lits (pat s : pystr) : option pystr :=
  match pat with
  | [] => Some s
  | p :: pat' =>
      match s with
      | d :: s' => if lit_ignorecase p d then match_lits pat' s' else None
      | [] => None
      end
  end.

(** [s] starts with the closing tag of the pattern. *)
Definition closes (s : pystr) : Prop := is_Some (match_lits (str "</metadata>") s).

(** [\b] between the character before the position and the one after. *)
Definition boundary (prev next : option Z) : bool :=
  xorb (from_option isword false prev) (from_option isword false next).

(** [[^>]*>] : the text up to the first [>] and the text after it. *)
Fixpoint upto_gt (s : pystr) : option (pystr * pystr) :=
  match s with
  | [] => None
  | c :: s' =>
      if bool_decide (c = 62) then Some ([], s')
      else '(a, b) ← upto_gt s'; Some (c :: a, b)
  end.

(** The attribute [id=Qrefig Q] at the head of [s], where the group [quote]
    is a single or a double quote and [Q] its back-reference. *)
Definition id_attr_here (s : pystr) : bool :=
  match match_lits (str "id=") s with
  | Some (q :: r) =>
      (bool_decide (q = 39) || bool_decide (q = 34))
      && match match_lits (str "refig") r with
         | Some (q' :: _) => bool_decide (tolower q' = tolower q)
         | _ => false
         end
  | _ => false
  end.

(** [[^>]*\bid=...] inside a tag: some position of [tag], not preceded by a
    [>], where the attribute starts at a word boundary; [prev] is the
    character before [tag]. *)
Fixpoint has_id_attr (prev : Z) (tag : pystr) : bool :=
  (boundary (Some prev) (head tag) && id_attr_here tag)
  || match tag with
     | c :: tag' => if bool_decide (c = 62) then false else has_id_attr c tag'
     | [] => false
     end.

(** The opening tag [<metadata\b[^>]*\bid=Qrefig Q[^>]*>] at the head of [s]:
    the tag (through its [>]) and the text after it. *)
Definition open_tag_at (s : pystr) : option (pystr * pystr) :=
  s1 ← match_lits (str "<metadata") s;
  last_ ← last (take 9 s);
  if boundary (Some last_) (head s1) && has_id_attr last_ s1 then
    '(a, b) ← upto_gt s1; Some (take 9 s ++ a ++ [62], b)
  else None.

(** [(?P<body>.*?)</metadata>] under [re.DOTALL]: the shortest body that is
    followed by the closing tag. *)
Fixpoint find_close (s : pystr) : option (pystr * pystr) :=
  if bool_decide (is_Some (match_lits (str "</metadata>") s)) then Some ([], s)
  else match s with
       | [] => None
       | c :: s' => '(b, r) ← find_close s'; Some (c :: b, r)
       end.

(** [_METADATA_PATTERN] at the head of [s]: opening tag, body, and the text
    from the closing tag on. *)
Definition metadata_match_at (s : pystr) : option (pystr * pystr * pystr) :=
  '(tag, after) ← open_tag_at s;
  '(body, post) ← find_close after;
  Some (tag, body, post).

(** [_METADATA_PATTERN.search(text)]: the leftmost match, as
    [(text[:start], text[start:end], text[end:])] for the span of group
    [body]. *)
Fixpoint search_metadata (text : pystr) : option (pystr * pystr * pystr) :=
  match metadata_match_at text with
  | Some r => Some r
  | None =>
      match text with
      | [] => None
      | c :: text' => '(pre, body, post) ← search_metadata text'; Some (c :: pre, body, post)
      end
  end.

(** [_SVG_OPEN_TAG_PATTERN = <svg\b[^>]*>] at the head of [s]. *)
Definition svg_tag_at (s : pystr) : option (pystr * pystr) :=
  s1 ← match_lits (str "<svg") s;
  last_ ← last (take 4 s);
  if boundary (Some last_) (head s1) then
    '(a, b) ← upto_gt s1; Some (take 4 s ++ a ++ [62], b)
  else None.

(** [_SVG_OPEN_TAG_PATTERN.search(text)] as [(text[:end], text[end:])]. *)
Fixpoint search_svg (text : pystr) : option (pystr * pystr) :=
  match svg_tag_at text with
  | Some r => Some r
  | None =>
      match text with
      | [] => None
      | c :: text' => '(pre, post) ← search_svg text'; Some (c :: pre, post)
      end
  end.

(** No position of [pre] starts the opening tag of a reserved element in
    the text [pre ++ post]. *)
Fixpoint no_open_tag (pre post : pystr) : bool :=
  match pre with
  | [] => true
  | _ :: pre' =>
      negb (bool_decide (is_Some (open_tag_at (pre ++ post)))) && no_open_tag pre' post
  end.

End Regex.

(** ** [refig._svg] *)

Module Svg.
Section Svg.
Context `{!PyLib}.

(** [bytes.decode("utf-8")] with [UnicodeDecodeError] turned into
    [SVGMetadataError]. *)
Definition decode_text (svg_bytes : bytes) : result pystr :=
  match utf8_decode svg_bytes with
  | Ok text => Ok text
  | Raise _ => Raise SVGMetadataError
  end.

Definition metadata_open : pystr := str "<metadata id=" ++ [34] ++ str "refig" ++ [34] ++ str ">".

Definition embed_metadata (svg_bytes : bytes) (metadata : record) : result bytes :=
  text ←! decode_text svg_bytes;
  payload ←! json_dumps metadata;
  let escaped_payload := html_escape payload in
  text ←! match search_metadata text with
          | Some (before, _, after) => Ok (before ++ escaped_payload ++ after)
          | None =>
              match search_svg text with
              | None => Raise SVGMetadataError
              | Some (before, after) =>
                  let insert := [10; 32; 32] ++ metadata_open ++ escaped_payload
                                ++ str "</metadata>" ++ [10] in
                  Ok (before ++ insert ++ after)
              end
          end;
  utf8_encode text.

Definition extract_metadata (svg_bytes : bytes) : result pyval :=
  text ←! decode_text svg_bytes;
  match search_metadata text with
  | None => Raise SVGMetadataError
  | Some (_, body, _) =>
      let payload := strip (html_unescape body) in
      if is_empty payload then Raise SVGMetadataError
      else json_loads payload
  end.

(** The documents in which the element that [embed_metadata] writes is the
    one that [extract_metadata] finds: a reserved element is there already,
    or the root tag is found and no opening tag of a reserved element
    starts before the root tag ends. *)
Definition embeddable (text : pystr) : bool :=
  match search_metadata text with
  | Some _ => true
  | None =>
      match search_svg text with
      | Some (before, after) => no_open_tag before after
      | None => false
      end
  end.

End Svg.
End Svg.

(** ** [pathlib], [datetime] formatting and the file system *)

(** A relative [pathlib.Path] is the list of its components (POSIX flavour). *)
Abbreviation path := (list pystr).

(** [str.split("/")] *)
Fixpoint split_slash (s : pystr) : list pystr :=
  match s with
  | [] => [[]]
  | c :: s' =>
      if bool_decide (c = 47) then [] :: split_slash s'
      else match split_slash s' with
           | w :: ws => (c :: w) :: ws
           | [] => [[c]]
           end
  end.

(** The components [Path(s)] keeps: empty ones and [.] are dropped. *)
Definition Path (s : pystr) : path :=
  filter (λ w, w ≠ [] ∧ w ≠ [46]) (split_slash s).

(** [p / s] for a segment [s] that does not start with a slash. *)
Definition joinpath (p : path) (s : pystr) : path := p ++ Path s.

(** [Path.name] *)
Definition path_name (p : path) : pystr := default [] (last p).

(** [str.rfind(".")] as a natural number, [None] for [-1]. *)
Fixpoint rfind_dot (s : pystr) : option nat :=
  match s with
  | [] => None
  | c :: s' =>
      match rfind_dot s' with
      | Some i => Some (S i)
      | None => if bool_decide (c = 46) then Some O else None
      end
  end.

(** [Path.suffix]: [name[i:]] for [i = name.rfind(".")] when
    [0 < i < len(name) - 1], else empty. *)
Definition path_suffix (p : path) : pystr :=
  let name := path_name p in
  match rfind_dot name with
  | Some i => if bool_decide (0 < i < length name - 1)%nat then drop i name else []
  | None => []
  end.

(** [Path.stem] *)
Definition path_stem (p : path) : pystr :=
  let name := path_name p in
  match rfind_dot name with
  | Some i => if bool_decide (0 < i < length name - 1)%nat then take i name else name
  | None => name
  end.

(** [Path.parent] *)
Definition path_parent (p : path) : path := take (length p - 1) p.

Definition is_ascii (c : Z) : bool := bool_decide (0 ≤ c < 128).

(** The last [w] decimal digits of [n], most significant first. *)
Fixpoint digits (w : nat) (n : Z) : pystr :=
  match w with
  | O => []
  | S w' => digits w' (n / 10) ++ [48 + n `mod` 10]
  end.

(** [dt.strftime("%Y%m%dT%H%M%S")] *)
Definition strftime_token `{!PyLib} (dt : datetime) : pystr :=
  (if bool_decide (1000 ≤ year dt) then digits 4 (year dt) else libc_year (year dt))
  ++ digits 2 (month dt) ++ digits 2 (day dt) ++ [84]
  ++ digits 2 (hour dt) ++ digits 2 (minute dt) ++ digits 2 (second dt).

(** [dt.isoformat()]: the micro-seconds are printed when they are not zero,
    the offset when the value is aware. *)
Definition isoformat (dt : datetime) : pystr :=
  digits 4 (year dt) ++ [45] ++ digits 2 (month dt) ++ [45] ++ digits 2 (day dt) ++ [84]
  ++ digits 2 (hour dt) ++ [58] ++ digits 2 (minute dt) ++ [58] ++ digits 2 (second dt)
  ++ (if bool_decide (microsecond dt = 0) then [] else [46] ++ digits 6 (microsecond dt))
  ++ match tzinfo dt with
     | None => []
     | Some off =>
         let a := Z.abs off in
         [if bool_decide (off < 0) then 45 else 43]
         ++ digits 2 (a / 3600) ++ [58] ++ digits 2 ((a / 60) `mod` 60)
         ++ (if bool_decide (a `mod` 60 = 0) then [] else [58] ++ digits 2 (a `mod` 60))
     end.

(** [dt.astimezone(timezone.utc)] is what a conversion to UTC would compute;
    the package never calls it.  It is defined here only to state what the
    instant of a timestamp is: seconds since 0001-01-01T00:00:00 UTC. *)
Definition days_before_year (y : Z) : Z :=
  let y := y - 1 in y * 365 + y / 4 - y / 100 + y / 400.

Definition is_leap (y : Z) : bool :=
  bool_decide (y `mod` 4 = 0) && (negb (bool_decide (y `mod` 100 = 0)) || bool_decide (y `mod` 400 = 0)).

Definition days_before_month (y m : Z) : Z :=
  nth (Z.to_nat (m - 1)) [0; 31; 59; 90; 120; 151; 181; 212; 243; 273; 304; 334] 0
  + (if bool_decide (2 < m) && is_leap y then 1 else 0).

Definition utc_seconds (dt : datetime) : Z :=
  ((days_before_year (year dt) + days_before_month (year dt) (month dt) + (day dt - 1)) * 24
   + hour dt) * 3600 + minute dt * 60 + second dt - default 0 (tzinfo dt).

Inductive node :=
  | File (content : bytes)
  | Dir.

Abbreviation filesystem := (gmap path node).

(** Programs that touch the file system: the state reached is returned also
    when the program raises. *)
Definition io (A : Type) : Type := filesystem → result A * filesystem.

Definition io_ret {A} (a : A) : io A := λ fs, (Ok a, fs).
Definition io_raise {A} (e : exn) : io A := λ fs, (Raise e, fs).
Definition io_bind {A B} (m : io A) (f : A → io B) : io B :=
  λ fs, match m fs with
        | (Ok a, fs') => f a fs'
        | (Raise e, fs') => (Raise e, fs')
        end.
Definition io_lift {A} (r : result A) : io A := λ fs, (r, fs).

Notation "x ←io m ; k" := (io_bind m (λ x, k))
  (at level 20, m at level 100, k at level 200, only parsing, right associativity).

(** [Path.mkdir(parents=True, exist_ok=True)]: every prefix of [d] becomes a
    directory; a file in the way raises. *)
Fixpoint mkdir_prefixes (done_ todo : path) : io unit :=
  match todo with
  | [] => io_ret ()
  | c :: todo' =>
      let d := done_ ++ [c] in
      λ fs, match fs !! d with
            | Some (File _) => (Raise OSError, fs)
            | _ => mkdir_prefixes d todo' (<[d := Dir]> fs)
            end
  end.

Definition mkdir_parents (d : path) : io unit := mkdir_prefixes [] d.

(** [Path.write_bytes]: the parent must be a directory and the path itself
    must not be one. *)
Definition is_dir (fs : filesystem) (d : path) : bool :=
  match d, fs !! d with
  | [], _ => true
  | _, Some Dir => true
  | _, _ => false
  end.

Definition write_bytes (p : path) (payload : bytes) : io unit :=
  λ fs, match fs !! p with
        | Some Dir => (Raise OSError, fs)
        | _ =>
            if is_dir fs (path_parent p)
            then (Ok (), <[p := File payload]> fs)
            else (Raise OSError, fs)
        end.

(** Nothing is in the way of writing the file [p]: no file sits at a proper
    prefix of [p] and no directory at [p] itself. *)
Definition writable (fs : filesystem) (p : path) : bool :=
  forallb (λ i, match fs !! take i p with Some (File _) => false | _ => true end)
          (seq 1 (length p - 1))
  && match fs !! p with Some Dir => false | _ => true end.

Definition read_bytes (p : path) : io bytes :=
  λ fs, match fs !! p with
        | Some (File b) => (Ok b, fs)
        | _ => (Raise OSError, fs)
        end.

(** The file system after [mkdir_prefixes] has run through [todo]. *)
Fixpoint with_dirs (done_ todo : path) (fs : filesystem) : filesystem :=
  match todo with
  | [] => fs
  | c :: todo' => with_dirs (done_ ++ [c]) todo' (<[done_ ++ [c] := Dir]> fs)
  end.

Definition not_file (o : option node) : bool :=
  match o with Some (File _) => false | _ => true end.

(** A proper, non-empty prefix of [p]. *)
Definition dir_of (q p : path) : Prop :=
  ∃ i, (1 ≤ i ≤ length p - 1)%nat ∧ q = take i p.

(** ** [refig._core] *)

Module Core.

(** A figure object is what its [savefig(buffer, **kwargs)] leaves in the
    buffer. *)
Record figure := { fig_savefig : gmap pystr pyval → result bytes }.

(** One entry of [traceback.extract_stack()]: the file name, whether
    [_is_library_path] holds of it, and [Path.resolve] ([None] for [OSError]). *)
Record frame := {
  filename : pystr;
  in_library : bool;
  resolved : option pystr
}.

(** The outcome of [subprocess.run(["git", "rev-parse", "HEAD"], check=True)]. *)
Inductive git_outcome :=
  | GitNotFound                (* FileNotFoundError *)
  | GitFailed                  (* CalledProcessError *)
  | GitStdout (out : pystr).

(** [from IPython import get_ipython] and the shell it returns. *)
Inductive ipython :=
  | NoIPython                                   (* the import fails *)
  | Shell (execution_count : option pyval).     (* [None]: no such attribute *)

(** Everything [savefig] reads from its surroundings. *)
Record world := {
  w_stack : list frame;               (* [traceback.extract_stack()], oldest first *)
  w_ipython : ipython;
  w_git : git_outcome;
  w_version : option pystr;           (* [importlib.metadata.version], [None] if not found *)
  w_now : datetime;                   (* [datetime.now(timezone.utc)] in [_build_metadata] *)
  w_now_token : datetime;             (* the same call in [_format_timestamp_token] *)
  w_pyplot : option (option figure)   (* [matplotlib.pyplot] importable, and its [gcf()] *)
}.

Record SaveResult := {
  latest_path : path;
  history_path : path;
  metadata : record
}.

Section Core.
Context `{!PyLib}.
Variable w : world.

Definition _BASE_DIR : path := Path (str "figures").
Definition _LATEST_DIR : path := joinpath _BASE_DIR (str "latest").
Definition _HISTORY_DIR : path := joinpath _BASE_DIR (str "history").
Definition _PNG_EXT : pystr := str ".png".
Definition _SVG_EXT : pystr := str ".svg".
Definition _SUPPORTED_EXTENSIONS : list pystr := [_PNG_EXT; _SVG_EXT].

(** [str.lower] *)
Definition str_lower (s : pystr) : pystr :=
  if forallb is_ascii s then ascii_tolower <$> s else uni_str_lower s.

(** [str.isalnum] of one character *)
Definition isalnum (c : Z) : bool :=
  if is_ascii c then ascii_isalnum c else uni_isalnum c.

(** [str.lstrip(".")] *)
Fixpoint lstrip_dot (s : pystr) : pystr :=
  match s with
  | c :: s' => if bool_decide (c = 46) then lstrip_dot s' else s
  | [] => []
  end.

Definition supported (suffix : pystr) : bool :=
  bool_decide (suffix ∈ _SUPPORTED_EXTENSIONS).

Definition _resolve_figure (fig : option figure) : result figure :=
  match fig with
  | Some f => Ok f
  | None =>
      match w_pyplot w with
      | None => Raise NoFigure
      | Some None => Raise NoFigure
      | Some (Some current) => Ok current
      end
  end.

Definition _render_figure (fig : figure) (image_format : pystr)
    (savefig_kwargs : gmap pystr pyval) : result bytes :=
  let kwargs :=
    match savefig_kwargs !! str "format" with
    | Some _ => savefig_kwargs
    | None => <[str "format" := VStr image_format]> savefig_kwargs
    end in
  fig_savefig fig kwargs.

(** The loop of [_infer_source_path] over [reversed(stack[:-1])]. *)
Fixpoint first_outside (frames : list frame) : option pystr :=
  match frames with
  | [] => None
  | f :: frames' =>
      if startswith (filename f) (str "<") then first_outside frames'
      else if in_library f then first_outside frames'
      else Some (default (filename f) (resolved f))
  end.

Definition _infer_source_path : option pystr :=
  first_outside (reverse (take (length (w_stack w) - 1) (w_stack w))).

Definition _infer_cell_number : option pyval :=
  match w_ipython w with
  | NoIPython => None
  | Shell count => count
  end.

Definition _infer_git_commit : option pystr :=
  match w_git w with
  | GitNotFound | GitFailed => None
  | GitStdout out => let s := strip out in if is_empty s then None else Some s
  end.

Definition _get_refig_version : option pystr := w_version w.

(** A Python [None] or the value. *)
Definition or_none {A} (f : A → pyval) (o : option A) : pyval :=
  match o with
  | Some a => f a
  | None => VNone
  end.

Definition _build_metadata (p : path) (extra : option record) : record :=
  let timestamp := w_now w in
  let metadata : record :=
    <[str "refig_version" := or_none VStr _get_refig_version]>
    (<[str "git_commit" := or_none VStr _infer_git_commit]>
    (<[str "cell_number" := or_none id _infer_cell_number]>
    (<[str "source" := or_none VStr _infer_source_path]>
    (<[str "created_at" := VStr (isoformat timestamp)]>
    (<[str "figure" := VStr (path_name p)]> ∅))))) in
  match extra with
  | Some extra => if bool_decide (extra = ∅) then metadata else extra ∪ metadata
  | None => metadata
  end.

(** [dict.get(key)] *)
Definition get (m : record) (key : pystr) : pyval := default VNone (m !! key).

Definition _format_timestamp_token (value : pyval) : pystr :=
  let finish (parsed : datetime) :=
    let parsed :=
      match tzinfo parsed with
      | None => mkDatetime (year parsed) (month parsed) (day parsed) (hour parsed)
                           (minute parsed) (second parsed) (microsecond parsed) (Some 0)
      | Some _ => parsed
      end in
    strftime_token parsed in
  match value with
  | VStr value =>
      match fromisoformat value with
      | Some parsed => finish parsed
      | None =>
          let sanitized := filter (λ ch, isalnum ch = true) value in
          if is_empty sanitized then strftime_token (w_now_token w) else sanitized
      end
  | VDatetime value => finish value
  | _ => finish (w_now_token w)
  end.

Definition _format_git_hash (value : pyval) : pystr :=
  match value with
  | VStr value =>
      if is_empty value then str "nogit"
      else
        let stripped := strip value in
        take 7 (if is_empty stripped then str "nogit" else stripped)
  | _ => str "nogit"
  end.

Definition _build_history_path (p : path) (metadata : record) : path :=
  let stem := path_stem p in
  let figure_dir := joinpath _HISTORY_DIR stem in
  let timestamp_token := _format_timestamp_token (get metadata (str "created_at")) in
  let git_hash := _format_git_hash (get metadata (str "git_commit")) in
  let suffix := str_lower (path_suffix p) in
  let suffix := if supported suffix then suffix else _PNG_EXT in
  let history_name := str "_" ++ timestamp_token ++ str "_" ++ git_hash ++ suffix in
  joinpath figure_dir history_name.

Definition _write_bytes (p : path) (payload : bytes) : io unit :=
  _ ←io mkdir_parents (path_parent p);
  write_bytes p payload.

(** The [try] block of [savefig]: the codec for the extension, its own
    exception replaced by the [RuntimeError] of the orchestrator. *)
Definition embed_for (suffix : pystr) (image_bytes : bytes) (metadata_payload : record)
    : result bytes :=
  let r := if bool_decide (suffix = _PNG_EXT)
           then Png.embed_metadata image_bytes metadata_payload
           else Svg.embed_metadata image_bytes metadata_payload in
  match r with
  | Raise PNGMetadataError | Raise SVGMetadataError => Raise EmbeddingFailure
  | r => r
  end.

Definition savefig (name : pystr) (fig : option figure) (metadata : option record)
    (savefig_kwargs : option (gmap pystr pyval)) : io SaveResult :=
  let p := Path name in
  let suffix := str_lower (path_suffix p) in
  if negb (supported suffix) then io_raise UnsupportedExtension
  else
    figure_obj ←io io_lift (_resolve_figure fig);
    let metadata_payload := _build_metadata p metadata in
    let image_format := lstrip_dot suffix in
    image_bytes ←io io_lift (_render_figure figure_obj image_format (default ∅ savefig_kwargs));
    image_bytes ←io io_lift (embed_for suffix image_bytes metadata_payload);
    let latest_path := joinpath _LATEST_DIR (path_name p) in
    let history_path := _build_history_path p metadata_payload in
    _ ←io _write_bytes latest_path image_bytes;
    _ ←io _write_bytes history_path image_bytes;
    io_ret {| latest_path := latest_path; history_path := history_path;
              metadata := metadata_payload |}.

Definition load_metadata (p : pystr) : io pyval :=
  let file_path := Path p in
  data ←io read_bytes file_path;
  let r := if startswith data Png.PNG_SIGNATURE
           then Png.extract_metadata data
           else Svg.extract_metadata data in
  io_lift match r with
          | Raise PNGMetadataError | Raise SVGMetadataError => Raise LoadFailure
          | r => r
          end.

End Core.
End Core.

(** ** A reference library

    A small implementation of the [PyLib] interface, enough to run the model:
    JSON for flat records whose keys and string values are plain printable
    ASCII (no quote, no backslash) and whose other values are [None],
    booleans or integers; the five character references that [html.escape] produces; the
    ISO layout that [isoformat] prints; no character outside ASCII is a
    letter. *)

Module Ref.

Definition plain (c : Z) : bool :=
  between 0x20 0x7E c && negb (bool_decide (c = 34)) && negb (bool_decide (c = 92)).

Definition dump_string (s : pystr) : result pystr :=
  if forallb plain s then Ok ([34] ++ s ++ [34]) else Raise TypeError.

(** The decimal digits of [n], from zero on, without leading zeros; one
    digit per unit of [fuel]. *)
Fixpoint decimal (fuel : nat) (n : Z) : pystr :=
  match fuel with
  | O => []
  | S fuel' =>
      if bool_decide (n < 10) then [48 + n]
      else decimal fuel' (n / 10) ++ [48 + n `mod` 10]
  end.

Definition dump_int (z : Z) : pystr :=
  if bool_decide (z < 0) then 45 :: decimal (S (Z.to_nat (Z.log2 (- z)))) (- z)
  else decimal (S (Z.to_nat (Z.log2 z))) z.

Definition dump_value (v : pyval) : result pystr :=
  match v with
  | VNone => Ok (str "null")
  | VBool true => Ok (str "true")
  | VBool false => Ok (str "false")
  | VInt z => Ok (dump_int z)
  | VStr s => dump_string s
  | _ => Raise TypeError
  end.

Definition dump_pair (kv : pystr * pyval) : result pystr :=
  k ←! dump_string kv.1;
  v ←! dump_value kv.2;
  Ok (k ++ [58] ++ v).

(** The members of an object, separated by commas. *)
Fixpoint dump_members (l : list (pystr * pyval)) : result pystr :=
  match l with
  | [] => Ok []
  | [kv] => dump_pair kv
  | kv :: l' =>
      a ←! dump_pair kv;
      b ←! dump_members l';
      Ok (a ++ [44] ++ b)
  end.

(** Code-point order on strings, for [sort_keys=True]. *)
Fixpoint str_le (a b : pystr) : bool :=
  match a, b with
  | [], _ => true
  | _ :: _, [] => false
  | x :: a', y :: b' => bool_decide (x < y) || (bool_decide (x = y) && str_le a' b')
  end.

Definition key_le (a b : pystr * pyval) : Prop := str_le a.1 b.1 = true.

Global Instance key_le_dec a b : Decision (key_le a b).
Proof. unfold key_le. apply _. Defined.

Definition dumps (m : record) : result pystr :=
  body ←! dump_members (merge_sort key_le (map_to_list m));
  Ok ([123] ++ body ++ [125]).

(** The characters of a string literal up to its closing quote. *)
Fixpoint parse_chars (s : pystr) : option (pystr * pystr) :=
  match s with
  | [] => None
  | c :: s' =>
      if bool_decide (c = 34) then Some ([], s')
      else if plain c then '(a, r) ← parse_chars s'; Some (c :: a, r)
      else None
  end.

Definition parse_string (s : pystr) : option (pystr * pystr) :=
  match s with
  | c :: s' => if bool_decide (c = 34) then parse_chars s' else None
  | [] => None
  end.

(** The longest run of decimal digits at the head of [s], and what follows. *)
Fixpoint span_digits (s : pystr) : pystr * pystr :=
  match s with
  | c :: s' =>
      if between 48 57 c then let '(a, r) := span_digits s' in (c :: a, r)
      else ([], s)
  | [] => ([], [])
  end.

(** A run of decimal digits as a number. *)
Definition number (s : pystr) : option Z :=
  if forallb (between 48 57) s && negb (is_empty s)
  then Some (fold_left (λ n c, n * 10 + (c - 48)) s 0)
  else None.

(** An optional minus sign and digits, with no zero in front of another
    digit. *)
Definition parse_int (s : pystr) : option (pyval * pystr) :=
  let neg := startswith s [45] in
  let '(ds, r) := span_digits (if neg then drop 1 s else s) in
  n ← number ds;
  if startswith ds [48] && bool_decide (1 < length ds)%nat then None
  else Some (VInt (if neg then - n else n), r).

Definition parse_value (s : pystr) : option (pyval * pystr) :=
  if startswith s (str "null") then Some (VNone, drop 4 s)
  else if startswith s (str "true") then Some (VBool true, drop 4 s)
  else if startswith s (str "false") then Some (VBool false, drop 5 s)
  else if startswith s [34] then '(v, r) ← parse_string s; Some (VStr v, r)
  else parse_int s.

(** Members up to the closing brace; one member per unit of [fuel]. *)
Fixpoint parse_members (fuel : nat) (s : pystr) : option (list (pystr * pyval) * pystr) :=
  match fuel with
  | O => None
  | S fuel' =>
      '(k, s) ← parse_string s;
      match s with
      | c :: s =>
          if bool_decide (c = 58) then
            '(v, s) ← parse_value s;
            match s with
            | d :: s =>
                if bool_decide (d = 125) then Some ([(k, v)], s)
                else if bool_decide (d = 44) then
                  '(l, s) ← parse_members fuel' s; Some ((k, v) :: l, s)
                else None
            | [] => None
            end
          else None
      | [] => None
      end
  end.

(** An object, in which a repeated key keeps its last value, or a value
    that is no object. *)
Definition loads (s : pystr) : result pyval :=
  match s with
  | c :: s' =>
      if bool_decide (c = 123) then
        if bool_decide (s' = [125]) then Ok (VDict ∅)
        else match parse_members (length s') s' with
             | Some (l, []) => Ok (VDict (list_to_map (reverse l)))
             | _ => Raise JSONDecodeError
             end
      else match parse_value s with
           | Some (v, []) => Ok v
           | _ => Raise JSONDecodeError
           end
  | [] => Raise JSONDecodeError
  end.

(** [html.unescape] for the references [&amp;], [&lt;], [&gt;], [&quot;] and
    [&#x27;]; [skip] characters of a reference already replaced remain to be
    passed over. *)
Fixpoint unescape_from (skip : nat) (s : pystr) : pystr :=
  match s with
  | [] => []
  | c :: s' =>
      match skip with
      | S k => unescape_from k s'
      | O =>
          if negb (bool_decide (c = 38)) then c :: unescape_from 0 s'
          else if startswith s' (str "amp;") then 38 :: unescape_from 4 s'
          else if startswith s' (str "lt;") then 60 :: unescape_from 3 s'
          else if startswith s' (str "gt;") then 62 :: unescape_from 3 s'
          else if startswith s' (str "quot;") then 34 :: unescape_from 5 s'
          else if startswith s' (str "#x27;") then 39 :: unescape_from 5 s'
          else c :: unescape_from 0 s'
      end
  end.

Definition unescape (s : pystr) : pystr := unescape_from 0 s.

Definition days_in_month (y m : Z) : Z :=
  if bool_decide (m = 2) then (if is_leap y then 29 else 28)
  else if bool_decide (m = 4 ∨ m = 6 ∨ m = 9 ∨ m = 11) then 30 else 31.

(** [YYYY-MM-DD?HH:MM:SS], then optional [.ffffff], then optional [+HH:MM] or
    [-HH:MM]. *)
Definition parse_iso (s : pystr) : option datetime :=
  y ← number (take 4 s);
  mo ← number (take 2 (drop 5 s));
  d ← number (take 2 (drop 8 s));
  h ← number (take 2 (drop 11 s));
  mi ← number (take 2 (drop 14 s));
  se ← number (take 2 (drop 17 s));
  let rest := drop 19 s in
  '(us, rest) ← (if startswith rest [46]
                 then us ← number (take 6 (drop 1 rest));
                      (if bool_decide (length (take 6 (drop 1 rest)) = 6%nat)
                       then Some (us, drop 7 rest) else None)
                 else Some (0, rest));
  tz ← (match rest with
        | [] => Some None
        | sign :: hm =>
            oh ← number (take 2 hm);
            om ← number (drop 3 hm);
            if (bool_decide (sign = 43) || bool_decide (sign = 45))
               && bool_decide (length hm = 5%nat) && bool_decide (hm !! 2%nat = Some 58)
               && bool_decide (oh < 24) && bool_decide (om < 60)
            then Some (Some ((if bool_decide (sign = 45) then -1 else 1) * (oh * 3600 + om * 60)))
            else None
        end);
  if bool_decide (s !! 4%nat = Some 45) && bool_decide (s !! 7%nat = Some 45)
     && bool_decide (is_Some (s !! 10%nat))
     && bool_decide (s !! 13%nat = Some 58) && bool_decide (s !! 16%nat = Some 58)
     && bool_decide (1 ≤ y) && bool_decide (1 ≤ mo ≤ 12)
     && bool_decide (1 ≤ d ≤ days_in_month y mo)
     && bool_decide (h < 24) && bool_decide (mi < 60) && bool_decide (se < 60)
  then Some (mkDatetime y mo d h mi se us tz)
  else None.

Global Instance lib : PyLib := {|
  json_dumps := dumps;
  json_loads := loads;
  html_unescape := unescape;
  fromisoformat := parse_iso;
  uni_isword := λ _, false;
  uni_tolower := λ c, c;
  uni_isalnum := λ _, false;
  uni_str_lower := λ s, ascii_tolower <$> s;
  libc_year := λ y, digits 4 y
|}.

End Ref.

(** ** Inputs on which the program is run *)

Module Samples.

(** An image header chunk, a Latin-1 comment with an e-acute, an end chunk:
    a raster image as other tools write it. *)
Definition png_plain : bytes :=
  Png.PNG_SIGNATURE
  ++ Png.frame (str "IHDR", [0; 0; 0; 1; 0; 0; 0; 1; 8; 0; 0; 0; 0])
  ++ Png.frame (str "IEND", []).

Definition png_latin1_comment : bytes :=
  Png.PNG_SIGNATURE
  ++ Png.frame (str "IHDR", [0; 0; 0; 1; 0; 0; 0; 1; 8; 0; 0; 0; 0])
  ++ Png.frame (Png.tEXt, str "Comment" ++ [0] ++ str "caf" ++ [233])
  ++ Png.frame (str "IEND", []).

(** A text chunk with an empty keyword in front of a reserved block. *)
Definition png_empty_keyword : bytes :=
  Png.PNG_SIGNATURE
  ++ Png.frame (Png.tEXt, [0] ++ str "x")
  ++ Png.frame (Png.tEXt, str "refig" ++ [0] ++ str "{}")
  ++ Png.frame (str "IEND", []).

(** A stream that ends two bytes into a length field. *)
Definition png_cut_short : bytes :=
  Png.PNG_SIGNATURE
  ++ Png.frame (str "IHDR", [0; 0; 0; 1; 0; 0; 0; 1; 8; 0; 0; 0; 0])
  ++ [0; 0].

Definition svg_plain : bytes :=
  str "<?xml version='1.0'?><svg width='4' height='3'><g/></svg>".


Definition record_plot : record :=
  <[str "figure" := VStr (str "plot.png")]>
    (<[str "source" := VNone]> (<[str "cell_number" := VInt 12]> ∅)).

Definition record_other : record := {[ str "figure" := VStr (str "other.png") ]}.

(** A figure that renders the sample images, and one that renders bytes
    that are no image. *)
Definition figure_ok : Core.figure :=
  {| Core.fig_savefig := λ kwargs,
       match kwargs !! str "format" with
       | Some (VStr f) =>
           if bool_decide (f = str "png") then Ok png_plain
           else if bool_decide (f = str "svg") then Ok svg_plain
           else Raise RenderError
       | _ => Raise RenderError
       end |}.

Definition figure_blank : Core.figure :=
  {| Core.fig_savefig := λ _, Ok (str "no image at all") |}.

(** A script run from a checkout: the caller is [/home/u/plot.py], there is
    no interactive shell, [git] prints a revision. *)
Definition world_script : Core.world :=
  {| Core.w_stack :=
       [ {| Core.filename := str "/home/u/plot.py"; Core.in_library := false;
            Core.resolved := Some (str "/home/u/plot.py") |};
         {| Core.filename := str "/lib/refig/_core.py"; Core.in_library := true;
            Core.resolved := Some (str "/lib/refig/_core.py") |};
         {| Core.filename := str "/lib/refig/_core.py"; Core.in_library := true;
            Core.resolved := Some (str "/lib/refig/_core.py") |};
         {| Core.filename := str "/lib/refig/_core.py"; Core.in_library := true;
            Core.resolved := Some (str "/lib/refig/_core.py") |} ];
     Core.w_ipython := Core.NoIPython;
     Core.w_git := Core.GitStdout (str "0123456789abcdef0123456789abcdef01234567" ++ [10]);
     Core.w_version := Some (str "0.1.0");
     Core.w_now := mkDatetime 2024 1 1 12 0 0 250000 (Some 0);
     Core.w_now_token := mkDatetime 2024 1 1 12 0 1 0 (Some 0);
     Core.w_pyplot := Some (Some figure_ok) |}.

(** Nothing can be determined: no caller outside the library, no shell, no
    [git], no installed distribution. *)
Definition world_bare : Core.world :=
  {| Core.w_stack := [];
     Core.w_ipython := Core.NoIPython;
     Core.w_git := Core.GitNotFound;
     Core.w_version := None;
     Core.w_now := mkDatetime 2024 1 1 12 0 0 0 (Some 0);
     Core.w_now_token := mkDatetime 2024 1 1 12 0 1 0 (Some 0);
     Core.w_pyplot := None |}.

End Samples.


(** ** Further notions used in statements *)

(** A chunk laid out with any four bytes in the place of its checksum:
    the reader never looks at them. *)
Definition frame_with (c : bytes * bytes * bytes) : bytes :=
  Png.big_endian (Z.of_nat (length c.1.2)) ++ c.1.1 ++ c.1.2 ++ c.2.

(** A chunk with some checksum field that the scan passes over. *)
Definition skippable (c : bytes * bytes * bytes) : Prop :=
  Png.well_framed c.1 ∧ length c.2 = 4%nat ∧ Png.passed_over c.1.

(** A frame that the loop of [_infer_source_path] steps over. *)
Definition frame_skipped (f : Core.frame) : bool :=
  startswith (Core.filename f) (str "<") || Core.in_library f.

(** The revision token that a save without caller metadata ends up with. *)
Definition revision_token (g : Core.git_outcome) : pystr :=
  match g with
  | Core.GitStdout out => if is_empty (strip out) then str "nogit" else take 7 (strip out)
  | _ => str "nogit"
  end.

(** * Properties *)

(** ** Results *)

Lemma rbind_Ok {A B} (r : result A) (f : A → result B) b :
  rbind r f = Ok b ↔ ∃ a, r = Ok a ∧ f a = Ok b.
Proof.
  destruct r as [a|e]; simpl; split.
  - eauto.
  - by intros (? & [= <-] & ?).
  - done.
  - by intros (? & ? & ?).
Qed.

Ltac inv_ok :=
  repeat match goal with
  | H : rbind _ _ = Ok _ |- _ => apply rbind_Ok in H as (? & ? & H)
  | H : Ok _ = Ok _ |- _ => injection H as H
  | H : Raise _ = Ok _ |- _ => discriminate H
  end.

(** ** [struct] *)

Lemma struct_pack_unpack n b :
  struct_pack_I n = Ok b → struct_unpack_I b = Ok n ∧ length b = 4%nat.
Proof.
  unfold struct_pack_I. case_bool_decide as Hn; [|done].
  intros [= <-]. split; [|done]. simpl. f_equal.
  change (2 ^ 24) with 16777216. change (2 ^ 16) with 65536. change (2 ^ 8) with 256.
  change (2 ^ 32) with 4294967296 in Hn.
  Z.div_mod_to_equations. lia.
Qed.

Lemma struct_pack_Ok n : 0 ≤ n < 2 ^ 32 → ∃ b, struct_pack_I n = Ok b.
Proof. intros Hn. unfold struct_pack_I. rewrite bool_decide_eq_true_2; eauto. Qed.

Lemma crc32_field_range x : 0 ≤ Z.land x 0xFFFFFFFF < 2 ^ 32.
Proof.
  change 0xFFFFFFFF with (Z.ones 32). rewrite Z.land_ones by lia.
  apply Z.mod_pos_bound. lia.
Qed.

(** ** UTF-8 *)

Ltac decide_ranges :=
  repeat first
    [ rewrite bool_decide_eq_true_2 by (try Z.div_mod_to_equations; lia)
    | rewrite bool_decide_eq_false_2 by (try Z.div_mod_to_equations; lia) ];
  simpl.

Lemma utf8_decode_encode_char c b r :
  utf8_encode_char c = Ok b →
  utf8_decode (b ++ r) = s ←! utf8_decode r; Ok (c :: s).
Proof.
  unfold utf8_encode_char.
  repeat case_bool_decide; intros [= <-]; simpl; unfold is_cont;
    decide_ranges; try done;
    destruct (utf8_decode r); simpl; try done; do 2 f_equal;
    Z.div_mod_to_equations; lia.
Qed.

Lemma utf8_decode_encode s b : utf8_encode s = Ok b → utf8_decode b = Ok s.
Proof.
  revert b. induction s as [|c s IH]; intros b; simpl.
  - by intros [= <-].
  - intros H. inv_ok. subst b.
    erewrite utf8_decode_encode_char by eassumption.
    by erewrite IH.
Qed.

Lemma utf8_encode_decode b s : utf8_decode b = Ok s → utf8_encode s = Ok b.
Proof.
  remember (length b) as n eqn:Hn. revert b s Hn.
  induction (lt_wf n) as [n _ IH]. intros b s ->.
  assert (IH' : ∀ r s', (length r < length b)%nat →
            utf8_decode r = Ok s' → utf8_encode s' = Ok r) by eauto.
  clear IH. destruct b as [|b0 r0]; simpl; [by intros [= <-]|].
  unfold is_cont.
  destruct (bool_decide (0 ≤ b0 < 128)) eqn:E0.
  { apply bool_decide_eq_true in E0. intros Hd. inv_ok. subst s. simpl.
    unfold utf8_encode_char. decide_ranges.
    erewrite (IH' r0); [done|simpl; lia|done]. }
  apply bool_decide_eq_false in E0.
  destruct (bool_decide (194 ≤ b0 < 224)) eqn:E1.
  { apply bool_decide_eq_true in E1.
    destruct r0 as [|b1 r1]; [done|]. case_bool_decide as C1; [|done].
    intros Hd. inv_ok. subst s. simpl. unfold utf8_encode_char.
    decide_ranges.
    erewrite (IH' r1); [|simpl; lia|done]. simpl.
    repeat f_equal; Z.div_mod_to_equations; lia. }
  apply bool_decide_eq_false in E1.
  destruct (bool_decide (224 ≤ b0 < 240)) eqn:E2.
  { apply bool_decide_eq_true in E2.
    destruct r0 as [|b1 [|b2 r2]]; [done..|].
    destruct (bool_decide (128 ≤ b1 < 192)) eqn:C1; [|done].
    destruct (bool_decide (128 ≤ b2 < 192)) eqn:C2; [|done].
    apply bool_decide_eq_true in C1, C2. simpl.
    case_bool_decide as C3; [|done]. case_bool_decide as C4; [done|]. simpl.
    intros Hd. inv_ok. subst s. simpl. unfold utf8_encode_char.
    decide_ranges.
    erewrite (IH' r2); [|simpl; lia|done]. simpl.
    repeat f_equal; Z.div_mod_to_equations; lia. }
  apply bool_decide_eq_false in E2.
  case_bool_decide as E3; [|done].
  destruct r0 as [|b1 [|b2 [|b3 r3]]]; [done..|].
  destruct (bool_decide (128 ≤ b1 < 192)) eqn:C1; [|done].
  destruct (bool_decide (128 ≤ b2 < 192)) eqn:C2; [|done].
  destruct (bool_decide (128 ≤ b3 < 192)) eqn:C3; [|done].
  apply bool_decide_eq_true in C1, C2, C3. simpl.
  case_bool_decide as C4; [|done]. simpl.
  intros Hd. inv_ok. subst s. simpl. unfold utf8_encode_char.
  decide_ranges.
  erewrite (IH' r3); [|simpl; lia|done]. simpl.
  repeat f_equal; Z.div_mod_to_equations; lia.
Qed.

Lemma utf8_encode_app s1 s2 b1 b2 :
  utf8_encode s1 = Ok b1 → utf8_encode s2 = Ok b2 →
  utf8_encode (s1 ++ s2) = Ok (b1 ++ b2).
Proof.
  revert b1. induction s1 as [|c s1 IH]; intros b1; simpl.
  - by intros [= <-].
  - intros H H2. inv_ok. subst b1. rewrite H0. simpl.
    erewrite IH by done. simpl. by rewrite (assoc_L (++)).
Qed.

Lemma utf8_encode_app_inv s1 s2 b :
  utf8_encode (s1 ++ s2) = Ok b →
  ∃ b1 b2, utf8_encode s1 = Ok b1 ∧ utf8_encode s2 = Ok b2 ∧ b = b1 ++ b2.
Proof.
  revert b. induction s1 as [|c s1 IH]; intros b; simpl.
  - intros H. by exists [], b.
  - intros H. inv_ok. subst b. apply IH in H1 as (b1 & b2 & H1 & H2 & ->).
    rewrite H0, H1. simpl. eexists _, _. split_and!; [done..|]. by rewrite (assoc_L (++)).
Qed.

Lemma utf8_encode_ascii s :
  Forall (λ c, 0 ≤ c < 128) s → utf8_encode s = Ok s.
Proof.
  induction 1 as [|c s Hc _ IH]; simpl; [done|].
  unfold utf8_encode_char. decide_ranges. by rewrite IH.
Qed.

(** A record of scalars without surrogate pairs is read back as written. *)
Lemma exact_scalars_spec (m : record) : exact_scalars m = true → json_exact_record m.
Proof.
  unfold exact_scalars. rewrite forallb_forall. intros Hall k v Hkv.
  assert (In (k, v) (map_to_list m)) as Hin
    by (by apply list_elem_of_In, elem_of_map_to_list).
  apply Hall in Hin. cbn [fst snd] in Hin. apply andb_true_iff in Hin as [Hk Hv].
  split; [done|]. destruct v; try done; by constructor.
Qed.

(** ** The raster codec *)

Section PngFacts.
Context `{!PyLib}.

Lemma startswith_app (p r : list Z) : startswith (p ++ r) p = true.
Proof. unfold startswith. apply bool_decide_eq_true. by rewrite take_app_length. Qed.

Lemma startswith_inv (b p : list Z) : startswith b p = true → b = p ++ drop (length p) b.
Proof.
  unfold startswith. intros Hb%bool_decide_eq_true.
  by rewrite <- Hb at 1; rewrite take_drop.
Qed.

Lemma is_empty_true (l : list Z) : is_empty l = true ↔ l = [].
Proof. by destruct l. Qed.

Lemma is_empty_false (l : list Z) : is_empty l = false ↔ l ≠ [].
Proof. by destruct l. Qed.

Lemma partition0_keyword kw t :
  0 ∉ kw → partition0 (kw ++ 0 :: t) = (kw, t).
Proof.
  induction kw as [|x kw IH]; simpl; intros Hkw.
  - done.
  - rewrite bool_decide_eq_false_2 by (intros ->; apply Hkw; left).
    rewrite IH; [done|]. intros ?; apply Hkw; by right.
Qed.

(** The loop of [_iter_chunks] does not depend on the fuel once there is more
    of it than bytes. *)
Lemma iter_from_fuel n m rest :
  (length rest < n)%nat → (length rest < m)%nat →
  Png.iter_from n rest = Png.iter_from m rest.
Proof.
  revert m rest. induction n as [|n IH]; intros m rest Hn Hm; [lia|].
  destruct m as [|m]; [lia|]. simpl.
  destruct rest as [|x rest]; [done|].
  destruct (is_empty (take 4 (x :: rest))); [done|].
  destruct (struct_unpack_I _); [|done].
  f_equal. destruct (is_empty _) eqn:E; [done|].
  apply IH; rewrite !length_drop; simpl in *; lia.
Qed.

(** The first turn of the loop on a well-framed chunk. *)
Lemma iter_from_chunk n len ty data crc rest :
  struct_pack_I (Z.of_nat (length data)) = Ok len →
  length ty = 4%nat → length crc = 4%nat →
  Png.iter_from (S n) (len ++ ty ++ data ++ crc ++ rest)
  = Png.Yield ty data (if is_empty rest then Png.Stop else Png.iter_from n rest).
Proof.
  intros [Hun Hlen]%struct_pack_unpack Hty Hcrc.
  destruct len as [|l0 [|l1 [|l2 [|l3 [|]]]]]; try done.
  destruct ty as [|t0 [|t1 [|t2 [|t3 [|]]]]]; try done.
  destruct crc as [|c0 [|c1 [|c2 [|c3 [|]]]]]; try done.
  cbn [Png.iter_from app take is_empty]. rewrite Hun.
  cbn [drop take app]. rewrite Nat2Z.id, take_0, drop_0.
  rewrite take_app_length, drop_app_length. done.
Qed.

Lemma build_text_chunk_inv keyword text chunk :
  Png._build_text_chunk keyword text = Ok chunk →
  ∃ text_bytes len crc,
    utf8_encode text = Ok text_bytes
    ∧ struct_pack_I (Z.of_nat (length (keyword ++ [0] ++ text_bytes))) = Ok len
    ∧ length crc = 4%nat
    ∧ chunk = len ++ Png.tEXt ++ (keyword ++ [0] ++ text_bytes) ++ crc.
Proof.
  unfold Png._build_text_chunk, latin1_encode. intros Hc.
  apply rbind_Ok in Hc as (kb & Hkb & Hc).
  destruct (forallb _ keyword); [|done]. injection Hkb as <-.
  apply rbind_Ok in Hc as (tb & Htb & Hc).
  apply rbind_Ok in Hc as (len & Hlen & Hc).
  apply rbind_Ok in Hc as (crc & Hcrc & Hc). injection Hc as <-.
  exists tb, len, crc. split_and!; try done.
  by apply struct_pack_unpack in Hcrc as [_ ?].
Qed.

Lemma build_text_chunk_Ok text text_bytes :
  utf8_encode text = Ok text_bytes →
  Z.of_nat (length text_bytes) + 6 < 2 ^ 32 →
  ∃ chunk, Png._build_text_chunk Png._METADATA_KEYWORD text = Ok chunk.
Proof.
  intros Htb Hlen. unfold Png._build_text_chunk.
  replace (latin1_encode Png._METADATA_KEYWORD) with (Ok (A:=bytes) Png._METADATA_KEYWORD)
    by done.
  cbn [rbind]. rewrite Htb. cbn [rbind].
  destruct (struct_pack_Ok (Z.of_nat (length (Png._METADATA_KEYWORD ++ [0] ++ text_bytes))))
    as [len ->].
  { rewrite length_app. simpl. lia. }
  cbn [rbind].
  destruct (struct_pack_Ok (Z.land (crc32 (Png.tEXt ++ Png._METADATA_KEYWORD ++ [0] ++ text_bytes))
                                   0xFFFFFFFF)) as [crc ->]; [apply crc32_field_range|].
  cbn [rbind]. eauto.
Qed.

Lemma iter_chunks_prepend len ty data crc rest :
  struct_pack_I (Z.of_nat (length data)) = Ok len →
  length ty = 4%nat → length crc = 4%nat →
  Png._iter_chunks (Png.PNG_SIGNATURE ++ (len ++ ty ++ data ++ crc) ++ rest)
  = Png.Yield ty data (Png.iter_from (S (length rest)) rest).
Proof.
  intros Hlen Hty Hcrc. unfold Png._iter_chunks.
  rewrite drop_app_length. rewrite <- !(assoc_L (++)).
  rewrite (iter_from_chunk _ len ty data crc) by done.
  f_equal. destruct rest as [|x rest]; [done|].
  cbn [is_empty]. apply iter_from_fuel; [|lia].
  rewrite !length_app. simpl. lia.
Qed.

(** Shape of a successful embedding: the signature, one new text chunk that
    carries the keyword and the serialised record, then every byte that
    followed the signature in the input; the chunk iterator therefore
    yields the new chunk and then exactly what it yielded on the input. *)
Lemma png_embed_inv png_bytes m out :
  Png.embed_metadata png_bytes m = Ok out →
  ∃ payload text_bytes len crc,
    let data := Png._METADATA_KEYWORD ++ [0] ++ text_bytes in
    startswith png_bytes Png.PNG_SIGNATURE = true
    ∧ json_dumps m = Ok payload
    ∧ utf8_encode payload = Ok text_bytes
    ∧ struct_pack_I (Z.of_nat (length data)) = Ok len
    ∧ length crc = 4%nat
    ∧ out = Png.PNG_SIGNATURE ++ (len ++ Png.tEXt ++ data ++ crc) ++ drop 8 png_bytes
    ∧ Png._iter_chunks out = Png.Yield Png.tEXt data (Png._iter_chunks png_bytes).
Proof.
  unfold Png.embed_metadata. destruct (startswith _ _) eqn:Hsig; [|done]. cbn [negb].
  intros Hc. apply rbind_Ok in Hc as (payload & Hp & Hc).
  apply rbind_Ok in Hc as (chunk & Hch & Hc). injection Hc as <-.
  apply build_text_chunk_inv in Hch as (tb & len & crc & Htb & Hlen & Hcrc & ->).
  exists payload, tb, len, crc. cbv zeta.
  split; [done|]. split; [done|]. split; [done|]. split; [done|]. split; [done|].
  split; [done|]. by apply iter_chunks_prepend.
Qed.

Lemma png_embed_returns png_bytes m payload text_bytes :
  startswith png_bytes Png.PNG_SIGNATURE = true →
  json_dumps m = Ok payload →
  utf8_encode payload = Ok text_bytes →
  Z.of_nat (length text_bytes) + 6 < 2 ^ 32 →
  ∃ out, Png.embed_metadata png_bytes m = Ok out.
Proof.
  intros Hsig Hp Htb Hlen. unfold Png.embed_metadata. rewrite Hsig, Hp. simpl.
  destruct (build_text_chunk_Ok payload text_bytes) as [chunk ->]; [done..|].
  simpl. eauto.
Qed.

Lemma png_embed_Ok png_bytes m payload :
  startswith png_bytes Png.PNG_SIGNATURE = true →
  json_dumps m = Ok payload →
  Forall (λ c, 0x20 ≤ c ≤ 0x7E) payload →
  Z.of_nat (length payload) + 6 < 2 ^ 32 →
  ∃ out, Png.embed_metadata png_bytes m = Ok out.
Proof.
  intros Hsig Hp Hascii Hlen. apply (png_embed_returns _ _ payload payload); try done.
  apply utf8_encode_ascii. eapply Forall_impl; [done|]. simpl. lia.
Qed.

Lemma keyword_no_zero : 0 ∉ Png._METADATA_KEYWORD.
Proof. intros Hin%list_elem_of_In. cbv in Hin. intuition discriminate. Qed.

Lemma png_extract_embedded `{!JsonLaws} png_bytes m out :
  json_exact_record m →
  Png.embed_metadata png_bytes m = Ok out →
  Png.extract_metadata out = Ok (VDict m).
Proof.
  intros Hex (payload & tb & len & crc & Hsig & Hp & Htb & Hlen & Hcrc & Hout & Hit)%png_embed_inv.
  unfold Png.extract_metadata. rewrite Hit.
  rewrite Hout, startswith_app. cbn [negb Png.scan].
  rewrite bool_decide_eq_true_2 by done.
  unfold Png._split_text_chunk.
  change (Png._METADATA_KEYWORD ++ [0] ++ tb) with (Png._METADATA_KEYWORD ++ 0 :: tb).
  rewrite partition0_keyword by apply keyword_no_zero.
  replace (is_empty Png._METADATA_KEYWORD) with false by done.
  rewrite (utf8_decode_encode _ _ Htb). cbn [rbind]. unfold latin1_decode.
  rewrite bool_decide_eq_true_2 by done. by apply loads_dumps.
Qed.

End PngFacts.

(** ** The regular expressions of the markup codec *)

Ltac not_in_lit :=
  let H := fresh in intros H%list_elem_of_In; cbv in H; intuition discriminate.

Section RegexFacts.
Context `{!PyLib}.

(** A literal other than [c] never matches the caseless ASCII character [c]. *)
Lemma lit_ignorecase_caseless p d c :
  ascii_iscased c = false → 0 ≤ c < 128 → p ≠ c →
  lit_ignorecase p d = true → d ≠ c.
Proof.
  intros Hc Hr Hp Hm ->. unfold lit_ignorecase in Hm.
  destruct (ascii_iscased p) eqn:Ep.
  - unfold tolower, ascii_tolower in Hm.
    rewrite (bool_decide_eq_true_2 (0 ≤ c < 128)) in Hm by done.
    unfold ascii_iscased, between in *.
    repeat case_bool_decide; simpl in *; try done; lia.
  - apply bool_decide_eq_true in Hm. done.
Qed.

Lemma lit_ignorecase_not_gt p d : p ≠ 62 → lit_ignorecase p d = true → d ≠ 62.
Proof. by apply lit_ignorecase_caseless. Qed.

Lemma lit_ignorecase_lt d : lit_ignorecase 60 d = bool_decide (d = 60).
Proof. done. Qed.

Lemma lit_ignorecase_refl p : 0 ≤ p < 128 → lit_ignorecase p p = true.
Proof.
  intros Hp. unfold lit_ignorecase. destruct (ascii_iscased p) eqn:Ep.
  - unfold tolower. rewrite (bool_decide_eq_true_2 (0 ≤ p < 128)) by done.
    by rewrite (bool_decide_eq_true_2 (ascii_tolower p = ascii_tolower p)).
  - by apply bool_decide_eq_true.
Qed.

Lemma match_lits_refl pat r :
  Forall (λ p, 0 ≤ p < 128) pat → match_lits pat (pat ++ r) = Some r.
Proof.
  induction 1 as [|p pat Hp _ IH]; simpl; [done|].
  by rewrite lit_ignorecase_refl.
Qed.

Lemma match_lits_app pat s r x :
  match_lits pat s = Some r → match_lits pat (s ++ x) = Some (r ++ x).
Proof.
  revert s. induction pat as [|p pat IH]; intros s; simpl.
  - by intros [= ->].
  - destruct s as [|d s]; [done|]. simpl. destruct (lit_ignorecase p d); [|done]. apply IH.
Qed.

Lemma match_lits_split pat s r :
  match_lits pat s = Some r →
  ∃ m, s = m ++ r ∧ length m = length pat ∧ (62 ∉ pat → 62 ∉ m).
Proof.
  revert s. induction pat as [|p pat IH]; intros s; simpl.
  - intros [= ->]. by exists [].
  - destruct s as [|d s]; [done|]. destruct (lit_ignorecase p d) eqn:E; [|done].
    intros (m & -> & Hm & Hgt)%IH. exists (d :: m). split; [done|].
    split; [by rewrite <- Hm|].
    intros [Hp Hpat]%not_elem_of_cons. apply not_elem_of_cons. split; [|by auto].
    apply not_eq_sym. eapply lit_ignorecase_not_gt; [|done]. by apply not_eq_sym.
Qed.

(** Literals other than [>] never reach past a [>]. *)
Lemma match_lits_gt pat a b :
  62 ∉ pat → 62 ∉ a →
  match_lits pat (a ++ 62 :: b) = (λ a1, a1 ++ 62 :: b) <$> match_lits pat a.
Proof.
  revert a. induction pat as [|p pat IH]; intros a Hpat Ha; simpl; [done|].
  apply not_elem_of_cons in Hpat as [Hp Hpat].
  destruct a as [|d a]; simpl.
  - destruct (lit_ignorecase p 62) eqn:E; [|done].
    by apply lit_ignorecase_not_gt in E.
  - apply not_elem_of_cons in Ha as [_ Ha].
    destruct (lit_ignorecase p d); [|done]. by apply IH.
Qed.

Lemma upto_gt_app a b : 62 ∉ a → upto_gt (a ++ 62 :: b) = Some (a, b).
Proof.
  induction a as [|c a IH]; simpl; intros Ha.
  - done.
  - apply not_elem_of_cons in Ha as [Hc Ha].
    rewrite bool_decide_eq_false_2 by done. by rewrite IH.
Qed.

Lemma upto_gt_Some s a b : upto_gt s = Some (a, b) → s = a ++ 62 :: b ∧ 62 ∉ a.
Proof.
  revert a. induction s as [|c s IH]; intros a; simpl; [done|].
  case_bool_decide as Hc.
  - intros [= <- <-]. subst c. split; [done|]. apply not_elem_of_nil.
  - destruct (upto_gt s) as [[a' b']|]; [|done]. intros [= <- <-].
    destruct (IH a' eq_refl) as [-> Ha]. split; [done|].
    by apply not_elem_of_cons.
Qed.

Lemma upto_gt_None s : upto_gt s = None ↔ 62 ∉ s.
Proof.
  split.
  - intros Hs Hin. apply list_elem_of_split in Hin as (a & b & ->).
    revert Hs. clear. induction a as [|c a IH]; simpl; [done|].
    case_bool_decide; [done|]. destruct (upto_gt (a ++ 62 :: b)) as [[]|]; [done|]. auto.
  - intros Hs. destruct (upto_gt s) as [[a b]|] eqn:E; [|done].
    apply upto_gt_Some in E as [-> _]. destruct Hs. set_solver.
Qed.

(** Every text with a [>] splits at its first one. *)
Lemma first_gt s : 62 ∈ s → ∃ a b, s = a ++ 62 :: b ∧ 62 ∉ a.
Proof.
  intros Hs. destruct (upto_gt s) as [[a b]|] eqn:E.
  - apply upto_gt_Some in E. eauto.
  - by apply upto_gt_None in E.
Qed.

Lemma isword_gt : isword 62 = false.
Proof. done. Qed.

Lemma boundary_head_gt prev a b :
  boundary prev (head (a ++ 62 :: b)) = boundary prev (head (a ++ [62])).
Proof. by destruct a. Qed.

Lemma id_attr_here_gt a b : 62 ∉ a → id_attr_here (a ++ 62 :: b) = id_attr_here a.
Proof.
  intros Ha. unfold id_attr_here.
  rewrite match_lits_gt by (try done; not_in_lit).
  destruct (match_lits (str "id=") a) as [a1|] eqn:E1;
    cbn [fmap option_fmap option_map]; [|done].
  assert (62 ∉ a1) as Ha1.
  { apply match_lits_split in E1 as (m & -> & _). by apply not_elem_of_app in Ha as [_ ?]. }
  destruct a1 as [|q r]; cbn [app].
  { done. }
  destruct (bool_decide (q = 39) || bool_decide (q = 34)) eqn:Eq; cbn [andb]; [|done].
  apply not_elem_of_cons in Ha1 as [_ Hr].
  rewrite match_lits_gt by (try done; not_in_lit).
  destruct (match_lits (str "refig") r) as [[|q' r']|] eqn:E2;
    cbn [fmap option_fmap option_map app]; try done.
  apply bool_decide_eq_false_2.
  apply orb_true_iff in Eq as [->%bool_decide_eq_true| ->%bool_decide_eq_true]; done.
Qed.

Lemma has_id_attr_gt prev a b :
  62 ∉ a → has_id_attr prev (a ++ 62 :: b) = has_id_attr prev (a ++ [62]).
Proof.
  revert prev. induction a as [|c a IH]; intros prev Ha.
  - pose proof (id_attr_here_gt [] b (not_elem_of_nil _)) as Hb.
    pose proof (id_attr_here_gt [] [] (not_elem_of_nil _)) as Hn.
    cbn [app] in *. cbn [has_id_attr head]. by rewrite Hb, Hn.
  - pose proof (id_attr_here_gt (c :: a) b Ha) as Hb.
    pose proof (id_attr_here_gt (c :: a) [] Ha) as Hn.
    apply not_elem_of_cons in Ha as [Hc Ha].
    cbn [app] in *. cbn [has_id_attr head]. rewrite Hb, Hn.
    rewrite bool_decide_eq_false_2 by done. by rewrite IH.
Qed.



Lemma open_tag_at_Some s tag after :
  open_tag_at s = Some (tag, after) →
  s = tag ++ after ∧ ∃ a, tag = a ++ [62] ∧ 62 ∉ a.
Proof.
  unfold open_tag_at. intros Ho.
  destruct (match_lits (str "<metadata") s) as [s1|] eqn:E1; [|done].
  cbn [mbind option_bind] in Ho.
  destruct (last (take 9 s)) as [l|]; [|done]. cbn [mbind option_bind] in Ho.
  destruct (boundary _ _ && _); [|done].
  destruct (upto_gt s1) as [[x y]|] eqn:E2; [|done]. cbn [mbind option_bind] in Ho.
  injection Ho as <- <-.
  apply upto_gt_Some in E2 as [-> Hx].
  apply match_lits_split in E1 as (m & -> & Hm & Hgt).
  assert (Hm9 : length m = 9%nat) by done.
  rewrite take_app_length' by done. split.
  { by rewrite <- !(assoc_L (++)). }
  exists (m ++ x). split; [by rewrite (assoc_L (++))|].
  apply not_elem_of_app. split; [|done]. apply Hgt. not_in_lit.
Qed.

(** The opening tag is decided by the text before the first [>]. *)
Lemma open_tag_at_gt a b :
  62 ∉ a →
  open_tag_at (a ++ 62 :: b)
  = if bool_decide (is_Some (open_tag_at (a ++ [62]))) then Some (a ++ [62], b) else None.
Proof.
  intros Ha.
  assert (∀ b', open_tag_at (a ++ 62 :: b')
    = match match_lits (str "<metadata") a, last (take 9 a) with
      | Some a1, Some l =>
          if boundary (Some l) (head (a1 ++ [62])) && has_id_attr l (a1 ++ [62])
          then Some (a ++ [62], b') else None
      | _, _ => None
      end) as Hform.
  { intros b'. unfold open_tag_at. rewrite match_lits_gt by (try done; not_in_lit).
    destruct (match_lits (str "<metadata") a) as [a1|] eqn:E1;
      cbn [fmap option_fmap option_map mbind option_bind]; [|done].
    apply match_lits_split in E1 as (m & -> & Hm & _).
    assert (Hm9 : length m = 9%nat) by done.
    rewrite <- (assoc_L (++)). rewrite !take_app_length' by done.
    destruct (last m) as [l|]; cbn [mbind option_bind]; [|done].
    apply not_elem_of_app in Ha as [_ Ha1].
    rewrite boundary_head_gt, has_id_attr_gt by done.
    destruct (boundary _ _ && _); [|done].
    rewrite upto_gt_app by done. cbn [mbind option_bind].
    by rewrite <- !(assoc_L (++)). }
  rewrite (Hform b), (Hform []).
  destruct (match_lits _ a); [|done]. destruct (last _); [|done].
  destruct (boundary _ _ && _); [|done].
  by rewrite bool_decide_eq_true_2 by eauto.
Qed.

Lemma svg_tag_at_Some s tag after :
  svg_tag_at s = Some (tag, after) → s = tag ++ after ∧ ∃ a, tag = a ++ [62].
Proof.
  unfold svg_tag_at. intros Ho.
  destruct (match_lits (str "<svg") s) as [s1|] eqn:E1; [|done].
  cbn [mbind option_bind] in Ho.
  destruct (last (take 4 s)) as [l|]; [|done]. cbn [mbind option_bind] in Ho.
  destruct (boundary _ _); [|done].
  destruct (upto_gt s1) as [[x y]|] eqn:E2; [|done]. cbn [mbind option_bind] in Ho.
  injection Ho as <- <-.
  apply upto_gt_Some in E2 as [-> Hx].
  apply match_lits_split in E1 as (m & -> & Hm & Hgt).
  assert (Hm4 : length m = 4%nat) by done.
  rewrite take_app_length' by done. split.
  { by rewrite <- !(assoc_L (++)). }
  exists (m ++ x). by rewrite (assoc_L (++)).
Qed.

Lemma search_svg_Some text pre post :
  search_svg text = Some (pre, post) → text = pre ++ post ∧ ∃ a, pre = a ++ [62].
Proof.
  revert pre. induction text as [|c text IH]; intros pre; cbn [search_svg].
  - destruct (svg_tag_at []) as [[t r]|] eqn:E; [|done].
    intros [= <- <-]. by apply svg_tag_at_Some.
  - destruct (svg_tag_at (c :: text)) as [[t r]|] eqn:E.
    + intros [= <- <-]. by apply svg_tag_at_Some.
    + destruct (search_svg text) as [[pre' post']|]; [|done].
      cbn [mbind option_bind]. intros [= <- <-].
      destruct (IH pre' eq_refl) as [-> [a ->]]. split; [done|]. by exists (c :: a).
Qed.

Lemma find_close_unfold s :
  find_close s
  = if bool_decide (closes s) then Some ([], s)
    else match s with
         | [] => None
         | c :: s' => '(b, r) ← find_close s'; Some (c :: b, r)
         end.
Proof. by destruct s. Qed.

Lemma find_close_Some s body post :
  find_close s = Some (body, post) → s = body ++ post ∧ closes post.
Proof.
  revert body. induction s as [|c s IH]; intros body; rewrite find_close_unfold.
  - case_bool_decide; [|done]. by intros [= <- <-].
  - case_bool_decide; [by intros [= <- <-]|].
    destruct (find_close s) as [[b r]|]; [|done]. cbn [mbind option_bind].
    intros [= <- <-]. destruct (IH b eq_refl) as [-> ?]. done.
Qed.

Lemma closes_lt s : closes s → ∃ s', s = 60 :: s'.
Proof.
  unfold closes. destruct s as [|d s]; [by intros [? [=]]|].
  cbn [match_lits str fmap list_fmap list_ascii_of_string].
  destruct (lit_ignorecase _ d) eqn:E; [|by intros [? [=]]].
  rewrite lit_ignorecase_lt in E. apply bool_decide_eq_true in E as ->. eauto.
Qed.

(** The body ends at the first closing tag: a body without [<] is found
    whole. *)
Lemma find_close_body e post :
  60 ∉ e → closes post → find_close (e ++ post) = Some (e, post).
Proof.
  intros He Hpost. induction e as [|c e IH]; rewrite find_close_unfold.
  - by rewrite bool_decide_eq_true_2.
  - apply not_elem_of_cons in He as [Hc He]. cbn [app].
    rewrite bool_decide_eq_false_2.
    + by rewrite IH.
    + intros [s' [= ? _]]%closes_lt. done.
Qed.

Lemma find_close_exists x post : closes post → is_Some (find_close (x ++ post)).
Proof.
  intros Hpost. induction x as [|c x IH]; rewrite find_close_unfold.
  - rewrite bool_decide_eq_true_2 by done. eauto.
  - case_bool_decide; [eauto|]. cbn [app]. destruct IH as [[b r] ->]. cbn. eauto.
Qed.

Lemma search_metadata_unfold text :
  search_metadata text
  = match metadata_match_at text with
    | Some r => Some r
    | None =>
        match text with
        | [] => None
        | c :: text' => '(pre, body, post) ← search_metadata text'; Some (c :: pre, body, post)
        end
    end.
Proof. by destruct text. Qed.

Lemma metadata_match_at_Some s tag body post :
  metadata_match_at s = Some (tag, body, post) →
  s = tag ++ body ++ post ∧ open_tag_at s = Some (tag, body ++ post)
  ∧ find_close (body ++ post) = Some (body, post).
Proof.
  unfold metadata_match_at. intros Hm.
  destruct (open_tag_at s) as [[t after]|] eqn:Eo; [|done]. cbn [mbind option_bind] in Hm.
  destruct (find_close after) as [[b p]|] eqn:Ec; [|done]. cbn [mbind option_bind] in Hm.
  injection Hm as <- <- <-.
  apply find_close_Some in Ec as Hc. destruct Hc as [-> Hp].
  apply open_tag_at_Some in Eo as Ho. destruct Ho as [-> _]. done.
Qed.

(** The leftmost match: nothing matches at an earlier position. *)
Lemma search_metadata_Some text pre body post :
  search_metadata text = Some (pre, body, post) →
  ∃ pre0 tag,
    pre = pre0 ++ tag ∧ text = pre0 ++ tag ++ body ++ post
    ∧ metadata_match_at (tag ++ body ++ post) = Some (tag, body, post)
    ∧ ∀ x y, pre0 = x ++ y → y ≠ [] → metadata_match_at (y ++ tag ++ body ++ post) = None.
Proof.
  revert pre. induction text as [|c text IH]; intros pre; rewrite search_metadata_unfold.
  - destruct (metadata_match_at []) as [[[t b] p]|] eqn:E; [|done].
    intros [= <- <- <-]. apply metadata_match_at_Some in E as Hm. destruct Hm as (Ht & _).
    exists [], t. rewrite <- Ht. split_and!; try done; by intros [] [].
  - destruct (metadata_match_at (c :: text)) as [[[t b] p]|] eqn:E.
    + intros [= <- <- <-]. apply metadata_match_at_Some in E as Hm. destruct Hm as (Ht & _).
      exists [], t. rewrite <- Ht. split_and!; try done; by intros [] [].
    + destruct (search_metadata text) as [[[pre' b] p]|]; [|done].
      cbn [mbind option_bind]. intros [= <- <- <-].
      destruct (IH pre' eq_refl) as (pre0 & tag & -> & -> & Hm & Hleft).
      exists (c :: pre0), tag. split_and!; try done.
      intros [|x0 x] y Hxy Hy; cbn [app] in Hxy.
      * subst y. apply E.
      * injection Hxy as _ ->. by apply (Hleft x y).
Qed.

Lemma search_metadata_intro pre0 rest tag body post :
  metadata_match_at rest = Some (tag, body, post) →
  (∀ x y, pre0 = x ++ y → y ≠ [] → metadata_match_at (y ++ rest) = None) →
  search_metadata (pre0 ++ rest) = Some (pre0 ++ tag, body, post).
Proof.
  intros Hm. induction pre0 as [|c pre0 IH]; intros Hleft; rewrite search_metadata_unfold.
  - cbn [app]. by rewrite Hm.
  - rewrite (Hleft [] (c :: pre0)) by done. cbn [app].
    rewrite IH; [done|]. intros x y -> Hy. by apply (Hleft (c :: x) y).
Qed.

End RegexFacts.

(** ** The markup codec *)

Section SvgFacts.
Context `{!PyLib}.

Lemma replace_char_app c by_ a b :
  replace_char c by_ (a ++ b) = replace_char c by_ a ++ replace_char c by_ b.
Proof. unfold replace_char. by rewrite fmap_app, join_app. Qed.

Lemma html_escape_app a b : html_escape (a ++ b) = html_escape a ++ html_escape b.
Proof. unfold html_escape. by rewrite !replace_char_app. Qed.

Lemma html_escape_char c : html_escape [c] = escape_char c.
Proof.
  unfold html_escape, escape_char.
  destruct (decide (c = 38)) as [->|]; [done|].
  destruct (decide (c = 60)) as [->|]; [done|].
  destruct (decide (c = 62)) as [->|]; [done|].
  destruct (decide (c = 34)) as [->|]; [done|].
  destruct (decide (c = 39)) as [->|]; [done|].
  unfold replace_char. cbn. rewrite !bool_decide_eq_false_2 by done. cbn.
  rewrite !bool_decide_eq_false_2 by done. cbn.
  rewrite !bool_decide_eq_false_2 by done. cbn.
  rewrite !bool_decide_eq_false_2 by done. cbn.
  by rewrite !bool_decide_eq_false_2 by done.
Qed.

Lemma html_escape_cons c s : html_escape (c :: s) = escape_char c ++ html_escape s.
Proof. by rewrite <- html_escape_char, <- html_escape_app. Qed.

Lemma escape_char_spec c :
  0 ≤ c < 128 → Forall (λ d, 0 ≤ d < 128 ∧ d ≠ 60) (escape_char c).
Proof.
  intros Hc. unfold escape_char.
  repeat case_bool_decide;
    first [ by apply (bool_decide_unpack _); vm_compute
          | by apply Forall_singleton ].
Qed.

Lemma html_escape_spec s :
  Forall (λ c, 0 ≤ c < 128) s → Forall (λ d, 0 ≤ d < 128 ∧ d ≠ 60) (html_escape s).
Proof.
  induction 1 as [|c s Hc _ IH]; [constructor|].
  rewrite html_escape_cons. apply Forall_app. split; [by apply escape_char_spec|done].
Qed.


Lemma strip_braces u : strip ([123] ++ u ++ [125]) = [123] ++ u ++ [125].
Proof.
  unfold strip, rstrip. cbn [app lstrip]. change (py_isspace 123) with false. cbv iota.
  rewrite reverse_cons, reverse_snoc. cbn [app lstrip].
  change (py_isspace 125) with false. cbv iota.
  change (125 :: reverse u ++ [123]) with ([125] ++ reverse u ++ [123]).
  rewrite !reverse_app, reverse_involutive. done.
Qed.

Lemma no_open_tag_spec pre post :
  no_open_tag pre post = true ↔
  ∀ x y, pre = x ++ y → y ≠ [] → open_tag_at (y ++ post) = None.
Proof.
  induction pre as [|c pre IH]; cbn [no_open_tag].
  - split; [|done]. intros _ x y Hxy Hy. by destruct x, y.
  - rewrite andb_true_iff, negb_true_iff, bool_decide_eq_false, IH. split.
    + intros [Hc Hpre] [|x0 x] y Hxy Hy; cbn [app] in Hxy.
      * subst y. by apply eq_None_not_Some.
      * injection Hxy as _ ->. by apply (Hpre x y).
    + intros Hall. split.
      * apply eq_None_not_Some. by apply (Hall [] (c :: pre)).
      * intros x y -> Hy. by apply (Hall (c :: x) y).
Qed.

(** The opening tag found in a text that has a [>] does not depend on what
    follows that text. *)
Lemma open_tag_at_indep t z z' :
  62 ∈ t → open_tag_at (t ++ z) = None → open_tag_at (t ++ z') = None.
Proof.
  intros (a & c & -> & Ha)%first_gt. rewrite <- !(assoc_L (++)). cbn [app].
  rewrite (open_tag_at_gt a (c ++ z)), (open_tag_at_gt a (c ++ z')) by done.
  by case_bool_decide.
Qed.

Lemma metadata_match_at_closed t w post :
  62 ∈ t → closes post →
  metadata_match_at (t ++ w ++ post) = None → open_tag_at (t ++ w ++ post) = None.
Proof.
  intros (a & c & -> & Ha)%first_gt Hpost. unfold metadata_match_at.
  rewrite <- !(assoc_L (++)). cbn [app].
  rewrite !(open_tag_at_gt a (c ++ w ++ post)) by done.
  case_bool_decide; [|done]. cbn [mbind option_bind].
  destruct (find_close_exists (c ++ w) post Hpost) as [[b r] Hb].
  rewrite <- (assoc_L (++)) in Hb. by rewrite Hb.
Qed.

(** Replacement: the element found before is found again, with the new
    body. *)
Lemma search_metadata_replace text pre body post esc :
  search_metadata text = Some (pre, body, post) → 60 ∉ esc →
  search_metadata (pre ++ esc ++ post) = Some (pre, esc, post).
Proof.
  intros (pre0 & tag & -> & -> & Hm & Hleft)%search_metadata_Some Hesc.
  apply metadata_match_at_Some in Hm as (_ & Ho & Hc).
  apply find_close_Some in Hc as [_ Hpost].
  apply open_tag_at_Some in Ho as Htag. destruct Htag as (_ & a & -> & Ha).
  rewrite <- !(assoc_L (++)). apply search_metadata_intro.
  - unfold metadata_match_at. rewrite <- (assoc_L (++)) in Ho. cbn [app] in Ho |- *.
    rewrite (open_tag_at_gt a (body ++ post)) in Ho by done.
    rewrite (open_tag_at_gt a (esc ++ post)) by done.
    case_bool_decide; [|done]. cbn [mbind option_bind].
    by rewrite find_close_body.
  - intros x y -> Hy. specialize (Hleft x y eq_refl Hy).
    assert (62 ∈ y ++ a ++ [62]) as Hgt by set_solver.
    replace (y ++ (a ++ [62]) ++ body ++ post) with ((y ++ a ++ [62]) ++ body ++ post)
      in Hleft by (by rewrite <- !(assoc_L (++))).
    replace (y ++ a ++ [62] ++ esc ++ post) with ((y ++ a ++ [62]) ++ esc ++ post)
      by (by rewrite <- !(assoc_L (++))).
    unfold metadata_match_at.
    erewrite open_tag_at_indep; [done|done|].
    by apply (metadata_match_at_closed _ body post).
Qed.

Lemma metadata_open_opens z :
  open_tag_at (Svg.metadata_open ++ z) = Some (Svg.metadata_open, z).
Proof.
  change Svg.metadata_open
    with ((str "<metadata id=" ++ [34] ++ str "refig" ++ [34]) ++ [62]).
  rewrite <- (assoc_L (++)). cbn [app].
  rewrite (open_tag_at_gt _ z) by not_in_lit.
  by rewrite bool_decide_eq_true_2 by (vm_compute; eauto).
Qed.

(** Insertion: the new element is the leftmost match when no opening tag of
    a reserved element starts before the insertion point. *)
Lemma search_metadata_insert pre post esc :
  (∃ a, pre = a ++ [62]) →
  no_open_tag pre post = true → 60 ∉ esc →
  search_metadata (pre ++ ([10; 32; 32] ++ Svg.metadata_open ++ esc
                           ++ str "</metadata>" ++ [10]) ++ post)
  = Some (pre ++ [10; 32; 32] ++ Svg.metadata_open, esc, str "</metadata>" ++ [10] ++ post).
Proof.
  intros [a ->] Hno Hesc. rewrite no_open_tag_spec in Hno.
  replace ((a ++ [62]) ++ ([10; 32; 32] ++ Svg.metadata_open ++ esc
                           ++ str "</metadata>" ++ [10]) ++ post)
    with (((a ++ [62]) ++ [10; 32; 32])
          ++ Svg.metadata_open ++ esc ++ str "</metadata>" ++ [10] ++ post)
    by (by rewrite <- !(assoc_L (++))).
  replace ((a ++ [62]) ++ [10; 32; 32] ++ Svg.metadata_open)
    with (((a ++ [62]) ++ [10; 32; 32]) ++ Svg.metadata_open)
    by (by rewrite <- !(assoc_L (++))).
  apply search_metadata_intro.
  - unfold metadata_match_at. rewrite metadata_open_opens. cbn [mbind option_bind].
    rewrite find_close_body; [done|done|].
    unfold closes. rewrite match_lits_refl; [eauto|].
    by apply (bool_decide_unpack _); vm_compute.
  - intros x y Hxy Hy. unfold metadata_match_at.
    apply app_eq_inv in Hxy as [(k & Hx & Hk)|(k & Hx & Hk)].
    + (* [y] starts inside [pre] *)
      destruct (decide (k = [])) as [->|Hk0].
      * cbn [app] in Hk. subst y. done.
      * subst y. rewrite <- (assoc_L (++)).
        erewrite (open_tag_at_indep k); [done| |by apply (Hno x k)].
        assert (∃ k', k = k' ++ [62]) as [k' ->]; [|set_solver].
        destruct k as [|k0 k _] using rev_ind; [done|].
        rewrite (assoc_L (++)) in Hx. apply app_inj_tail in Hx as [_ ->]. eauto.
    + (* [y] is a tail of the inserted line break and indentation *)
      destruct k as [|k0 [|k1 [|k2 [|]]]]; simplify_eq/=; try done.
      all: try (destruct y; simplify_eq/=).
      all: try (destruct y; simplify_eq/=).
      all: try (destruct y; simplify_eq/=); done.
Qed.


Lemma utf8_encode_ascii_no_lt s :
  Forall (λ d, 0 ≤ d < 128 ∧ d ≠ 60) s → utf8_encode s = Ok s ∧ 60 ∉ s.
Proof.
  intros Hs. split.
  - apply utf8_encode_ascii. eapply Forall_impl; [done|]. by intros ? [? _].
  - intros Hin. rewrite Forall_forall in Hs. by destruct (Hs _ Hin).
Qed.

Lemma escaped_payload_spec `{!JsonLaws} m payload :
  json_dumps m = Ok payload →
  utf8_encode (html_escape payload) = Ok (html_escape payload) ∧ 60 ∉ html_escape payload.
Proof.
  intros Hp. apply utf8_encode_ascii_no_lt, html_escape_spec.
  eapply Forall_impl; [by eapply dumps_printable|]. simpl. lia.
Qed.

(** Extraction from a text in which the search finds the escaped record. *)
Lemma svg_extract_found `{!JsonLaws} m payload text before after out :
  unescape_undoes html_escape →
  json_exact_record m →
  json_dumps m = Ok payload →
  search_metadata text = Some (before, html_escape payload, after) →
  utf8_encode text = Ok out →
  Svg.extract_metadata out = Ok (VDict m).
Proof.
  intros Hun Hex Hp Hs Henc. unfold Svg.extract_metadata, Svg.decode_text.
  rewrite (utf8_decode_encode _ _ Henc). cbn [rbind]. rewrite Hs. cbv zeta.
  unfold unescape_undoes in Hun. rewrite Hun.
  destruct (dumps_braces _ _ Hp) as [u ->]. rewrite strip_braces.
  cbn [app is_empty]. by apply loads_dumps.
Qed.

(** The text that [embed_metadata] encodes. *)
Lemma svg_embed_inv svg_bytes m out :
  Svg.embed_metadata svg_bytes m = Ok out →
  ∃ text payload new_text,
    utf8_decode svg_bytes = Ok text ∧ json_dumps m = Ok payload
    ∧ utf8_encode new_text = Ok out
    ∧ match search_metadata text with
      | Some (before, _, after) => new_text = before ++ html_escape payload ++ after
      | None =>
          ∃ before after, search_svg text = Some (before, after)
            ∧ new_text = before ++ ([10; 32; 32] ++ Svg.metadata_open ++ html_escape payload
                                    ++ str "</metadata>" ++ [10]) ++ after
      end.
Proof.
  unfold Svg.embed_metadata, Svg.decode_text. intros He.
  destruct (utf8_decode svg_bytes) as [text|] eqn:Hd; [|done]. cbn [rbind] in He.
  destruct (json_dumps m) as [payload|] eqn:Hp; [|done]. cbn [rbind] in He.
  apply rbind_Ok in He as (new_text & Hn & He).
  exists text, payload, new_text. split_and!; try done.
  destruct (search_metadata text) as [[[before body] after]|].
  - by injection Hn as <-.
  - destruct (search_svg text) as [[before after]|]; [|done].
    injection Hn as <-. eauto.
Qed.

Lemma svg_roundtrip_text `{!JsonLaws} svg_bytes m out text :
  unescape_undoes html_escape →
  json_exact_record m →
  utf8_decode svg_bytes = Ok text →
  Svg.embeddable text = true →
  Svg.embed_metadata svg_bytes m = Ok out →
  Svg.extract_metadata out = Ok (VDict m).
Proof.
  intros Hun Hex Hd Hemb (text' & payload & new_text & Hd' & Hp & Henc & Hnew)%svg_embed_inv.
  rewrite Hd in Hd'. injection Hd' as <-.
  destruct (escaped_payload_spec _ _ Hp) as [_ Hlt].
  unfold Svg.embeddable in Hemb.
  destruct (search_metadata text) as [[[before body] after]|] eqn:Hs.
  - subst new_text. eapply svg_extract_found; [done..| |done].
    by eapply search_metadata_replace.
  - destruct Hnew as (before & after & Hsvg & ->). rewrite Hsvg in Hemb.
    eapply svg_extract_found; [done..| |done].
    apply search_metadata_insert; [|done..].
    by apply search_svg_Some in Hsvg as [_ ?].
Qed.

Lemma svg_embed_Ok `{!JsonLaws} svg_bytes m text payload :
  utf8_decode svg_bytes = Ok text →
  json_dumps m = Ok payload →
  (∃ r, search_metadata text = Some r) ∨ (∃ r, search_svg text = Some r) →
  ∃ out, Svg.embed_metadata svg_bytes m = Ok out.
Proof.
  intros Hd Hp Hfound. unfold Svg.embed_metadata, Svg.decode_text.
  rewrite Hd, Hp. cbn [rbind].
  destruct (escaped_payload_spec _ _ Hp) as [Hesc _].
  apply utf8_encode_decode in Hd.
  assert (∀ l, Forall (λ c, 0 ≤ c < 128) l → utf8_encode l = Ok l) as Hascii
    by apply utf8_encode_ascii.
  destruct (search_metadata text) as [[[before body] after]|] eqn:Hs.
  - apply search_metadata_Some in Hs as (pre0 & tag & -> & -> & _ & _).
    rewrite (assoc_L (++)) in Hd.
    apply utf8_encode_app_inv in Hd as (b1 & b2 & H1 & H2 & _).
    apply utf8_encode_app_inv in H2 as (b3 & b4 & _ & H4 & _).
    cbn [rbind]. erewrite utf8_encode_app; [eauto|done|].
    by erewrite utf8_encode_app.
  - destruct Hfound as [[r [=]]|[[before after] Hsvg]]. rewrite Hsvg.
    apply search_svg_Some in Hsvg as [-> _].
    apply utf8_encode_app_inv in Hd as (b1 & b2 & H1 & H2 & _).
    cbn [rbind]. erewrite utf8_encode_app; [eauto|done|].
    erewrite utf8_encode_app; [done| |done].
    erewrite utf8_encode_app; [done|by apply Hascii, (bool_decide_unpack _); vm_compute|].
    erewrite utf8_encode_app; [done|by apply Hascii, (bool_decide_unpack _); vm_compute|].
    erewrite utf8_encode_app; [done|done|].
    by apply Hascii, (bool_decide_unpack _); vm_compute.
Qed.

End SvgFacts.

(** ** The reference library satisfies what the proofs assume *)

Module RefFacts.
Import Ref.

Lemma parse_chars_plain s r :
  forallb plain s = true → parse_chars (s ++ 34 :: r) = Some (s, r).
Proof.
  induction s as [|c s IH]; simpl; [done|].
  intros [Hc Hs]%andb_true_iff. rewrite Hc.
  case_bool_decide as E.
  - subst c. done.
  - by rewrite IH.
Qed.

Lemma parse_string_dump s t r :
  dump_string s = Ok t → parse_string (t ++ r) = Some (s, r).
Proof.
  unfold dump_string. destruct (forallb plain s) eqn:Hs; [|done].
  intros [= <-]. cbn [app parse_string]. rewrite bool_decide_eq_true_2 by done.
  rewrite <- (assoc_L (++)). by apply parse_chars_plain.
Qed.

Lemma span_digits_app ds r :
  forallb (between 48 57) ds = true →
  (∀ c, head r = Some c → between 48 57 c = false) →
  span_digits (ds ++ r) = (ds, r).
Proof.
  intros Hds Hr. induction ds as [|d ds IH]; simpl in *.
  - destruct r as [|c r]; [done|]. simpl. by rewrite (Hr c).
  - apply andb_true_iff in Hds as [-> Hds]. by rewrite IH.
Qed.

Lemma number_snoc ds d :
  fold_left (λ n c, n * 10 + (c - 48)) (ds ++ [d]) 0
  = fold_left (λ n c, n * 10 + (c - 48)) ds 0 * 10 + (d - 48).
Proof. by rewrite fold_left_app. Qed.

(** The digits of a number below [10 ^ fuel]: all digits, their value, and
    no zero in front unless the number is zero. *)
Lemma decimal_S fuel n :
  decimal (S fuel) n
  = if bool_decide (n < 10) then [48 + n]
    else decimal fuel (n / 10) ++ [48 + n `mod` 10].
Proof. done. Qed.

Lemma decimal_spec fuel n :
  0 ≤ n < 10 ^ Z.of_nat (S fuel) →
  forallb (between 48 57) (decimal (S fuel) n) = true
  ∧ fold_left (λ n c, n * 10 + (c - 48)) (decimal (S fuel) n) 0 = n
  ∧ ∃ c ds, decimal (S fuel) n = c :: ds ∧ (c = 48 → ds = []).
Proof.
  revert n. induction fuel as [|fuel IH]; intros n Hn;
    rewrite decimal_S; case_bool_decide as Hlt.
  - split; [|split]; [|simpl; lia|eauto].
    simpl. unfold between. by rewrite bool_decide_eq_true_2 by lia.
  - simpl in Hn. lia.
  - split; [|split]; [|simpl; lia|eauto].
    simpl. unfold between. by rewrite bool_decide_eq_true_2 by lia.
  - assert (Hq : 0 ≤ n / 10 < 10 ^ Z.of_nat (S fuel)).
    { rewrite (Nat2Z.inj_succ (S fuel)), Z.pow_succ_r in Hn by lia.
      split; [apply Z.div_pos; lia|]. apply Z.div_lt_upper_bound; lia. }
    destruct (IH _ Hq) as (Hd & Hv & c & ds & Hc & Hz).
    split; [|split].
    + rewrite forallb_app, Hd. simpl. unfold between.
      rewrite bool_decide_eq_true_2; [done|].
      pose proof (Z.mod_pos_bound n 10). lia.
    + rewrite number_snoc, Hv. pose proof (Z.div_mod n 10). lia.
    + exists c, (ds ++ [48 + n `mod` 10]). rewrite Hc. split; [done|].
      intros ->. specialize (Hz eq_refl). subst ds. rewrite Hc in Hv.
      simpl in Hv. assert (1 ≤ n / 10) by (apply Z.div_le_lower_bound; lia). lia.
Qed.

Lemma log2_fuel z : 0 ≤ z → 0 ≤ z < 10 ^ Z.of_nat (S (Z.to_nat (Z.log2 z))).
Proof.
  intros Hz. split; [done|].
  rewrite Nat2Z.inj_succ, Z2Nat.id by apply Z.log2_nonneg.
  destruct (decide (z = 0)) as [->|Hnz]; [done|].
  pose proof (Z.log2_spec z ltac:(lia)) as [_ Hlt].
  eapply Z.lt_le_trans; [exact Hlt|].
  apply Z.pow_le_mono_l. pose proof (Z.log2_nonneg z). lia.
Qed.

Lemma parse_digits fuel n r ds :
  0 ≤ n < 10 ^ Z.of_nat (S fuel) →
  (∀ c, head r = Some c → between 48 57 c = false) →
  ds = decimal (S fuel) n →
  span_digits (ds ++ r) = (ds, r)
  ∧ number ds = Some n
  ∧ startswith ds [48] && bool_decide (1 < length ds)%nat = false
  ∧ ∃ c ds', ds = c :: ds' ∧ between 48 57 c = true.
Proof.
  intros Hn Hr ->. destruct (decimal_spec fuel n Hn) as (Hd & Hv & c & ds & Hc & Hz).
  split; [by apply span_digits_app|]. split; [|split].
  - unfold number. rewrite Hd, Hv, Hc. done.
  - rewrite Hc. unfold startswith. cbn [length take].
    case_bool_decide as E; [|done]. injection E as ->.
    rewrite (Hz eq_refl). done.
  - exists c, ds. split; [done|]. rewrite Hc in Hd. simpl in Hd.
    by apply andb_true_iff in Hd as [-> _].
Qed.

Lemma parse_int_dump z r :
  (∀ c, head r = Some c → between 48 57 c = false) →
  parse_int (dump_int z ++ r) = Some (VInt z, r).
Proof.
  intros Hr. unfold dump_int, parse_int. case_bool_decide as Hneg.
  - remember (decimal _ (- z)) as ds eqn:Hds.
    destruct (parse_digits _ (- z) r ds (log2_fuel (- z) ltac:(lia)) Hr Hds)
      as (Hs & Hn & Hz & _).
    cbn [app]. replace (startswith (45 :: ds ++ r) [45]) with true by done.
    change (drop 1 (45 :: ds ++ r)) with (ds ++ r). rewrite Hs, Hn. cbn [mbind option_bind]. rewrite Hz.
    do 3 f_equal. lia.
  - remember (decimal _ z) as ds eqn:Hds.
    destruct (parse_digits _ z r ds (log2_fuel z ltac:(lia)) Hr Hds)
      as (Hs & Hn & Hz & c & ds' & Hc & Hdig).
    replace (startswith (ds ++ r) [45]) with false.
    2:{ rewrite Hc. unfold startswith. cbn [length take app].
        rewrite bool_decide_eq_false_2; [done|]. intros [= ->]. done. }
    by rewrite Hs, Hn; cbn [mbind option_bind]; rewrite Hz.
Qed.

Lemma dump_int_head z :
  ∃ c t, dump_int z = c :: t ∧ (c = 45 ∨ between 48 57 c = true).
Proof.
  unfold dump_int. case_bool_decide as Hneg; [eauto|].
  destruct (parse_digits _ z [] _ (log2_fuel z ltac:(lia)) ltac:(done) eq_refl)
    as (_ & _ & _ & c & ds' & -> & Hc). eauto.
Qed.

Lemma parse_value_dump v t r :
  (∀ c, head r = Some c → between 48 57 c = false) →
  dump_value v = Ok t → parse_value (t ++ r) = Some (v, r).
Proof.
  intros Hr. destruct v as [|[]|z|s| | |]; try done; cbn [dump_value].
  - by intros [= <-].
  - by intros [= <-].
  - by intros [= <-].
  - intros [= <-]. unfold parse_value.
    destruct (dump_int_head z) as (c & t & Ht & Hc).
    assert (Hnot : ∀ p0 p, p0 ≠ 45 → between 48 57 p0 = false →
              startswith (dump_int z ++ r) (p0 :: p) = false).
    { intros p0 p H45 Hdig. rewrite Ht. unfold startswith. cbn [length take app].
      rewrite bool_decide_eq_false_2; [done|]. intros [= -> _].
      destruct Hc as [->|Hc]; [done|]. by rewrite Hc in Hdig. }
    replace (startswith (dump_int z ++ r) (str "null")) with false
      by (symmetry; by apply (Hnot 110)).
    replace (startswith (dump_int z ++ r) (str "true")) with false
      by (symmetry; by apply (Hnot 116)).
    replace (startswith (dump_int z ++ r) (str "false")) with false
      by (symmetry; by apply (Hnot 102)).
    rewrite Hnot by done. by apply parse_int_dump.
  - intros Hs. unfold parse_value.
    assert (∃ t', t = 34 :: t') as [t' ->].
    { unfold dump_string in Hs. destruct (forallb plain s); [|done].
      injection Hs as <-. eauto. }
    replace (startswith ((34 :: t') ++ r) (str "null")) with false by done.
    replace (startswith ((34 :: t') ++ r) (str "true")) with false by done.
    replace (startswith ((34 :: t') ++ r) (str "false")) with false by done.
    replace (startswith ((34 :: t') ++ r) [34]) with true by done.
    by rewrite (parse_string_dump s).
Qed.

Lemma dump_pair_length kv t : dump_pair kv = Ok t → (0 < length t)%nat.
Proof.
  unfold dump_pair. intros Hd. inv_ok. subst t.
  rewrite !length_app. simpl. lia.
Qed.

Lemma dump_members_cons kv l :
  l ≠ [] →
  dump_members (kv :: l) = a ←! dump_pair kv; b ←! dump_members l; Ok (a ++ [44] ++ b).
Proof. by destruct l. Qed.

Lemma dump_members_length l t : dump_members l = Ok t → (length l ≤ length t)%nat.
Proof.
  revert t. induction l as [|kv l IH]; intros t; [simpl; lia|].
  destruct (decide (l = [])) as [->|Hl].
  - simpl. intros Hd%dump_pair_length. lia.
  - rewrite dump_members_cons by done. intros Hd. inv_ok. subst t.
    apply IH in H0. rewrite !length_app. simpl. lia.
Qed.

Lemma parse_members_dump l t fuel r :
  l ≠ [] → dump_members l = Ok t → (length l ≤ fuel)%nat →
  parse_members fuel (t ++ 125 :: r) = Some (l, r).
Proof.
  revert t fuel. induction l as [|[k v] l IH]; intros t fuel Hne Hd Hfuel; [done|].
  destruct fuel as [|fuel]; [simpl in Hfuel; lia|].
  destruct (decide (l = [])) as [->|Hl].
  - simpl in Hd. unfold dump_pair in Hd. simpl in Hd. inv_ok. subst t.
    cbn [parse_members]. rewrite <- !(assoc_L (++)).
    rewrite (parse_string_dump k) by done. cbn [mbind option_bind app].
    rewrite bool_decide_eq_true_2 by done.
    rewrite (parse_value_dump v) by (done || by intros c [= <-]).
    cbn [mbind option_bind]. by rewrite bool_decide_eq_true_2.
  - rewrite dump_members_cons in Hd by done. inv_ok. subst t.
    unfold dump_pair in H. simpl in H. inv_ok. subst.
    cbn [parse_members]. rewrite <- !(assoc_L (++)).
    rewrite (parse_string_dump k) by done. cbn [mbind option_bind app].
    rewrite bool_decide_eq_true_2 by done.
    rewrite (parse_value_dump v) by (done || by intros c [= <-]).
    cbn [mbind option_bind].
    rewrite bool_decide_eq_false_2 by done. rewrite bool_decide_eq_true_2 by done.
    rewrite (IH _ fuel Hl H0) by (simpl in Hfuel; lia). done.
Qed.

Lemma ref_loads_dumps m t : dumps m = Ok t → loads t = Ok (VDict m).
Proof.
  unfold dumps. intros Hd. apply rbind_Ok in Hd as (body & Hb & [= <-]).
  cbn [app loads]. rewrite bool_decide_eq_true_2 by done.
  set (l := merge_sort key_le (map_to_list m)) in *.
  assert (Hperm : l ≡ₚ map_to_list m) by apply merge_sort_Permutation.
  destruct (decide (l = [])) as [Hl|Hl].
  - rewrite Hl in Hb. injection Hb as <-. cbn [app].
    rewrite bool_decide_eq_true_2 by done. do 2 f_equal.
    symmetry. apply map_to_list_empty_iff. rewrite Hl in Hperm.
    by apply Permutation_nil_l in Hperm.
  - rewrite bool_decide_eq_false_2.
    2:{ intros Hbody. destruct body as [|b0 body]; [|by destruct body].
        apply dump_members_length in Hb. destruct l; [done|simpl in Hb; lia]. }
    rewrite (parse_members_dump l body _ [] Hl Hb).
    2:{ apply dump_members_length in Hb. rewrite length_app. simpl. lia. }
    do 2 f_equal. etrans; [|apply (list_to_map_to_list m)].
    apply list_to_map_proper.
    + rewrite reverse_Permutation, Hperm. apply NoDup_fst_map_to_list.
    + by rewrite reverse_Permutation.
Qed.

Lemma plain_printable c : plain c = true → 32 ≤ c ≤ 126.
Proof. unfold plain, between. intros H. repeat case_bool_decide; simpl in *; try done. Qed.

Lemma dump_string_printable s t :
  dump_string s = Ok t → Forall (λ c, 32 ≤ c ≤ 126) t.
Proof.
  unfold dump_string. destruct (forallb plain s) eqn:Hs; [|done]. intros [= <-].
  cbn [app]. apply Forall_cons. split; [done|].
  apply Forall_app. split; [|by repeat constructor].
  rewrite forallb_forall in Hs. apply Forall_forall. intros c Hc.
  by apply plain_printable, Hs, list_elem_of_In.
Qed.

Lemma dump_int_printable z : Forall (λ c, 32 ≤ c ≤ 126) (dump_int z).
Proof.
  assert (Hdec : ∀ n, 0 ≤ n →
            Forall (λ c, 32 ≤ c ≤ 126) (decimal (S (Z.to_nat (Z.log2 n))) n)).
  { intros n Hn. destruct (decimal_spec _ n (log2_fuel n Hn)) as (Hd & _).
    rewrite forallb_forall in Hd. apply Forall_forall. intros c Hc.
    apply list_elem_of_In, Hd in Hc. unfold between in Hc.
    apply bool_decide_eq_true_1 in Hc. lia. }
  unfold dump_int. case_bool_decide.
  - apply Forall_cons. split; [done|]. apply Hdec. lia.
  - apply Hdec. lia.
Qed.

Lemma dump_pair_printable kv t :
  dump_pair kv = Ok t → Forall (λ c, 32 ≤ c ≤ 126) t.
Proof.
  unfold dump_pair. intros Hd. inv_ok. subst t.
  apply Forall_app. split; [by eapply dump_string_printable|].
  cbn [app]. apply Forall_cons. split; [done|].
  destruct (kv.2) as [|[]|z|s| | |]; try done; simpl in H0.
  - injection H0 as <-. by apply (bool_decide_unpack _); vm_compute.
  - injection H0 as <-. by apply (bool_decide_unpack _); vm_compute.
  - injection H0 as <-. by apply (bool_decide_unpack _); vm_compute.
  - injection H0 as <-. apply dump_int_printable.
  - by eapply dump_string_printable.
Qed.

Lemma dump_members_printable l t :
  dump_members l = Ok t → Forall (λ c, 32 ≤ c ≤ 126) t.
Proof.
  revert t. induction l as [|kv l IH]; intros t.
  - by intros [= <-].
  - destruct (decide (l = [])) as [->|Hl].
    + apply dump_pair_printable.
    + rewrite dump_members_cons by done. intros Hd. inv_ok. subst t.
      apply Forall_app. split; [by eapply dump_pair_printable|].
      cbn [app]. apply Forall_cons. split; [done|]. by apply IH.
Qed.

Global Instance json_laws : JsonLaws.
Proof.
  split.
  - intros m t _. apply ref_loads_dumps.
  - intros m t Hd. unfold json_dumps, lib, dumps in Hd.
    apply rbind_Ok in Hd as (body & Hb & [= <-]).
    cbn [app]. apply Forall_cons. split; [done|].
    apply Forall_app. split; [|by repeat constructor].
    by eapply dump_members_printable.
  - intros m t Hd. unfold json_dumps, lib, dumps in Hd.
    apply rbind_Ok in Hd as (body & Hb & [= <-]). eauto.
  - intros t e. unfold json_loads, lib, loads.
    repeat (case_match; try done); by intros [= <-].
Qed.

Lemma unescape_char c r :
  unescape_from 0 (escape_char c ++ r) = c :: unescape_from 0 r.
Proof.
  unfold escape_char. repeat case_bool_decide; subst; try done.
  cbn [app unescape_from]. by rewrite bool_decide_eq_false_2.
Qed.

Lemma unescape_escape : unescape_undoes html_escape.
Proof.
  intros s. unfold html_unescape, lib, unescape.
  induction s as [|c s IH]; [done|].
  by rewrite html_escape_cons, unescape_char, IH.
Qed.

End RefFacts.

(** ** The raster codec: blocks of a stream *)

Section PngBlocks.
Context `{!PyLib}.

Lemma big_endian_pack n : 0 ≤ n < 2 ^ 32 → struct_pack_I n = Ok (Png.big_endian n).
Proof. intros Hn. unfold struct_pack_I. by rewrite bool_decide_eq_true_2. Qed.

Lemma build_text_chunk_frame keyword text chunk :
  Png._build_text_chunk keyword text = Ok chunk →
  ∃ text_bytes, utf8_encode text = Ok text_bytes
    ∧ chunk = Png.frame (Png.tEXt, keyword ++ [0] ++ text_bytes)
    ∧ Png.well_framed (Png.tEXt, keyword ++ [0] ++ text_bytes).
Proof.
  unfold Png._build_text_chunk, latin1_encode. intros Hc.
  apply rbind_Ok in Hc as (kb & Hkb & Hc).
  destruct (forallb _ keyword); [|done]. injection Hkb as <-.
  apply rbind_Ok in Hc as (tb & Htb & Hc).
  apply rbind_Ok in Hc as (len & Hlen & Hc).
  apply rbind_Ok in Hc as (crc & Hcrc & Hc). injection Hc as <-.
  exists tb. split; [done|].
  unfold struct_pack_I in Hlen, Hcrc.
  destruct (bool_decide (0 ≤ Z.of_nat (length (keyword ++ [0] ++ tb)) < 2 ^ 32)) eqn:Hl;
    [|done].
  apply bool_decide_eq_true in Hl. case_bool_decide; [|done].
  injection Hlen as <-. injection Hcrc as <-. split; [done|].
  split; [done|]. apply Hl.
Qed.

Lemma iter_chunks_sig rest :
  Png._iter_chunks (Png.PNG_SIGNATURE ++ rest) = Png.iter_from (S (length rest)) rest.
Proof. unfold Png._iter_chunks. cbv zeta. by rewrite drop_app_length. Qed.

(** The iterator reads a well-framed chunk back and goes on behind it. *)
Lemma iter_chunks_frame c rest :
  Png.well_framed c →
  Png._iter_chunks (Png.PNG_SIGNATURE ++ Png.frame c ++ rest)
  = Png.Yield c.1 c.2 (Png._iter_chunks (Png.PNG_SIGNATURE ++ rest)).
Proof.
  intros [Hty Hlen]. unfold Png.frame. rewrite <- !(assoc_L (++)).
  rewrite (assoc_L (++) c.2), (assoc_L (++) c.1), (assoc_L (++) (Png.big_endian _)).
  rewrite (iter_chunks_prepend (Png.big_endian (Z.of_nat (length c.2))) c.1 c.2);
    [by rewrite iter_chunks_sig|apply big_endian_pack; lia|done..].
Qed.

Lemma prepend_cons c l k : Png.prepend (c :: l) k = Png.Yield c.1 c.2 (Png.prepend l k).
Proof. done. Qed.

Lemma iter_chunks_frames cs :
  Forall Png.well_framed cs →
  Png._iter_chunks (Png.PNG_SIGNATURE ++ mjoin (Png.frame <$> cs)) = Png.prepend cs Png.Stop.
Proof.
  induction 1 as [|c cs Hc _ IH]; [done|].
  rewrite fmap_cons, prepend_cons. cbn [mjoin list_join].
  rewrite iter_chunks_frame by done. f_equal. apply IH.
Qed.

Lemma reserved_blocks_embed png_bytes m out :
  Png.embed_metadata png_bytes m = Ok out →
  Png.reserved_blocks (Png._iter_chunks out)
  = S (Png.reserved_blocks (Png._iter_chunks png_bytes)).
Proof.
  intros (payload & tb & len & crc & _ & _ & _ & _ & _ & _ & ->)%png_embed_inv.
  cbn [Png.reserved_blocks]. rewrite bool_decide_eq_true_2; [done|].
  split; [done|]. unfold Png.keyword_of.
  change (Png._METADATA_KEYWORD ++ [0] ++ tb) with (Png._METADATA_KEYWORD ++ 0 :: tb).
  by rewrite partition0_keyword by apply keyword_no_zero.
Qed.

Lemma utf8_decode_raises b e : utf8_decode b = Raise e → e = UnicodeDecodeError.
Proof.
  remember (length b) as n eqn:Hn. revert b Hn.
  induction (lt_wf n) as [n _ IH]. intros b ->.
  assert (IH' : ∀ r, (length r < length b)%nat →
            utf8_decode r = Raise e → e = UnicodeDecodeError) by eauto.
  clear IH. destruct b as [|b0 r0]; [done|]. cbn [utf8_decode].
  repeat case_bool_decide.
  - destruct (utf8_decode r0) eqn:E; [done|]. intros [= <-].
    eapply IH'; [|done]. simpl; lia.
  - destruct r0 as [|b1 r1]; [by intros [= <-]|].
    destruct (is_cont b1); [|by intros [= <-]].
    destruct (utf8_decode r1) eqn:E; [done|]. intros [= <-].
    eapply IH'; [|done]. simpl; lia.
  - destruct r0 as [|b1 [|b2 r2]]; try by intros [= <-].
    cbv zeta. destruct (_ && _); [|by intros [= <-]].
    destruct (utf8_decode r2) eqn:E; [done|]. intros [= <-].
    eapply IH'; [|done]. simpl; lia.
  - destruct r0 as [|b1 [|b2 [|b3 r3]]]; try by intros [= <-].
    cbv zeta. destruct (_ && _); [|by intros [= <-]].
    destruct (utf8_decode r3) eqn:E; [done|]. intros [= <-].
    eapply IH'; [|done]. simpl; lia.
  - by intros [= <-].
Qed.

(** When the scan of [extract_metadata] ends in the package's own error. *)
Lemma scan_format_error `{!JsonLaws} cs :
  Png.scan cs = Raise PNGMetadataError ↔
  ∃ skipped rest,
    cs = Png.prepend skipped rest ∧ Forall Png.passed_over skipped
    ∧ (rest = Png.Stop
       ∨ ∃ data k, rest = Png.Yield Png.tEXt data k ∧ Png.keyword_of data = []).
Proof.
  induction cs as [| |ty data k IH].
  - split; [|done]. intros _. exists [], Png.Stop. split_and!; [done|constructor|by left].
  - split; [done|]. intros (skipped & rest & Hcs & _ & Hrest).
    destruct skipped; [|done]. cbn in Hcs. subst rest.
    by destruct Hrest as [|(? & ? & ? & _)].
  - cbn [Png.scan]. unfold Png._split_text_chunk, Png.passed_over, Png.keyword_of in *.
    destruct (partition0 data) as [kw text] eqn:Hpart.
    assert (Hskip : Png.scan k = Raise PNGMetadataError ↔
      ∃ skipped rest, Png.Yield ty data k = Png.prepend ((ty, data) :: skipped) rest
        ∧ Forall Png.passed_over skipped
        ∧ (rest = Png.Stop ∨ ∃ data k, rest = Png.Yield Png.tEXt data k
             ∧ (partition0 data).1 = [])).
    { rewrite IH. split; intros (skipped & rest & Hk & Hrest); exists skipped, rest.
      - by rewrite prepend_cons, <- Hk.
      - rewrite prepend_cons in Hk. by injection Hk as ->. }
    case_bool_decide as Hty.
    + subst ty. destruct (is_empty kw) eqn:Hkw.
      * apply is_empty_true in Hkw as ->. split; [|done]. intros _.
        exists [], (Png.Yield Png.tEXt data k). split_and!; [done|constructor|].
        right. exists data, k. by rewrite Hpart.
      * apply is_empty_false in Hkw.
        assert (Hfirst : ∀ (P : Prop) skipped rest,
          Png.Yield Png.tEXt data k = Png.prepend skipped rest →
          Forall Png.passed_over skipped →
          (rest = Png.Stop ∨ ∃ data k, rest = Png.Yield Png.tEXt data k
              ∧ (partition0 data).1 = []) →
          (∀ skipped', skipped = (Png.tEXt, data) :: skipped' →
             Png.passed_over (Png.tEXt, data) → P) → P).
        { intros P [|c skipped] rest Hcs Hall Hrest HP.
          - cbn in Hcs. subst rest. destruct Hrest as [|(d' & k' & [= <- <-] & Hd')]; [done|].
            rewrite Hpart in Hd'. done.
          - rewrite prepend_cons in Hcs. destruct c as [ty' data']. injection Hcs as <- <- ->.
            apply (HP skipped); [done|]. by apply Forall_cons in Hall as [? _]. }
        destruct (utf8_decode text) as [text'|e] eqn:Hdec; cbn [rbind].
        -- unfold latin1_decode. case_bool_decide as Hres.
           ++ split.
              ** by intros ?%loads_raises.
              ** intros (skipped & rest & Hcs & Hall & Hrest).
                 apply (Hfirst _ _ _ Hcs Hall Hrest). intros _ _ [?|(_ & Hne & _)]; [done|].
                 unfold Png.keyword_of in Hne. cbn in Hne. rewrite Hpart in Hne. done.
           ++ rewrite Hskip. split; intros (skipped & rest & Hcs & Hall & Hrest).
              ** exists ((Png.tEXt, data) :: skipped), rest. split_and!; try done.
                 apply Forall_cons. split; [|done]. right. unfold Png.keyword_of. cbn.
                 rewrite Hpart. eauto.
              ** apply (Hfirst _ _ _ Hcs Hall Hrest). intros skipped' -> _.
                 apply Forall_cons in Hall as [_ Hall]. eauto.
        -- split.
           ++ intros [= ->]. by apply utf8_decode_raises in Hdec.
           ++ intros (skipped & rest & Hcs & Hall & Hrest).
              apply (Hfirst _ _ _ Hcs Hall Hrest). intros _ _ [?|(_ & _ & t & Ht)]; [done|].
              cbn in Ht. rewrite Hpart in Ht. cbn in Ht. congruence.
    + rewrite Hskip. split; intros (skipped & rest & Hcs & Hall & Hrest).
      * exists ((ty, data) :: skipped), rest. split_and!; try done.
        apply Forall_cons. split; [|done]. by left.
      * destruct skipped as [|c skipped].
        -- cbn in Hcs. subst rest.
           destruct Hrest as [|(d' & k' & [= -> _ _] & _)]; done.
        -- rewrite prepend_cons in Hcs. destruct c. injection Hcs as <- <- ->.
           apply Forall_cons in Hall as [_ Hall]. exists skipped, rest.
           by rewrite prepend_cons.
Qed.

End PngBlocks.

(** ** Claims about the codecs *)

Lemma png_embed_frame `{!PyLib} png_bytes m out :
  Png.embed_metadata png_bytes m = Ok out →
  ∃ payload text_bytes,
    json_dumps m = Ok payload ∧ utf8_encode payload = Ok text_bytes
    ∧ Png.well_framed (Png.tEXt, Png._METADATA_KEYWORD ++ [0] ++ text_bytes)
    ∧ png_bytes = Png.PNG_SIGNATURE ++ drop 8 png_bytes
    ∧ out = Png.PNG_SIGNATURE
            ++ Png.frame (Png.tEXt, Png._METADATA_KEYWORD ++ [0] ++ text_bytes)
            ++ drop 8 png_bytes.
Proof.
  unfold Png.embed_metadata. destruct (startswith _ _) eqn:Hsig; [|done]. cbn [negb].
  intros Hc. apply rbind_Ok in Hc as (payload & Hp & Hc).
  apply rbind_Ok in Hc as (chunk & Hch & Hc). injection Hc as <-.
  apply build_text_chunk_frame in Hch as (tb & Htb & -> & Hwf).
  exists payload, tb. split_and!; try done.
  by apply startswith_inv in Hsig.
Qed.

(** C5. Embedding a record into a raster image puts one new text block
    right after the signature and leaves everything that followed the
    signature as it was.  For every byte string that starts with the
    signature and every record that serialises into the 32-bit length
    field, embedding returns the signature, the new block, and the bytes
    of the input after its signature; the chunk iterator yields the new
    block and then what it yielded on the input; and when the input is the
    signature followed by well-framed blocks, the output is the signature
    followed by the new block and the same blocks, with their types and
    data, in the same order. *)
Theorem png_embed_preserves_blocks `{!PyLib}
    (png_bytes : bytes) (m : record) (payload : pystr) (text_bytes : bytes) :
  startswith png_bytes Png.PNG_SIGNATURE = true →
  json_dumps m = Ok payload →
  utf8_encode payload = Ok text_bytes →
  Z.of_nat (length text_bytes) + 6 < 2 ^ 32 →
  let block := (Png.tEXt, Png._METADATA_KEYWORD ++ [0] ++ text_bytes) in
  ∃ out,
    Png.embed_metadata png_bytes m = Ok out
    ∧ out = Png.PNG_SIGNATURE ++ Png.frame block ++ drop 8 png_bytes
    ∧ Png._iter_chunks out = Png.Yield block.1 block.2 (Png._iter_chunks png_bytes)
    ∧ ∀ cs, Forall Png.well_framed cs →
        png_bytes = Png.PNG_SIGNATURE ++ mjoin (Png.frame <$> cs) →
        out = Png.PNG_SIGNATURE ++ mjoin (Png.frame <$> block :: cs)
        ∧ Png._iter_chunks out = Png.prepend (block :: cs) Png.Stop.
Proof.
  intros Hsig Hp Htb Hlen block.
  destruct (png_embed_returns png_bytes m payload text_bytes) as [out Hout]; [done..|].
  exists out. split; [done|].
  apply png_embed_frame in Hout as (payload' & tb & Hp' & Htb' & Hwf & Hin & ->).
  rewrite Hp in Hp'. injection Hp' as <-. rewrite Htb in Htb'. injection Htb' as <-.
  fold block in Hwf |- *. split; [done|]. split.
  - rewrite iter_chunks_frame by done. by rewrite <- Hin.
  - intros cs Hcs Hpng. clear Hin Hsig. subst png_bytes.
    rewrite !(drop_app_length' Png.PNG_SIGNATURE _ 8) by done.
    split; [done|]. rewrite iter_chunks_frame by done.
    by rewrite iter_chunks_frames.
Qed.

Lemma png_embed_preserves_blocks_witness :
  ∃ out, Png.embed_metadata Samples.png_plain Samples.record_other = Ok out
    ∧ Png._iter_chunks out
      = Png.prepend [(Png.tEXt, str "refig" ++ [0] ++ str "{" ++ [34] ++ str "figure" ++ [34]
                                ++ str ":" ++ [34] ++ str "other.png" ++ [34] ++ str "}");
                     (str "IHDR", [0; 0; 0; 1; 0; 0; 0; 1; 8; 0; 0; 0; 0]);
                     (str "IEND", [])] Png.Stop.
Proof.
  destruct (png_embed_preserves_blocks Samples.png_plain Samples.record_other
              (str "{" ++ [34] ++ str "figure" ++ [34]
               ++ str ":" ++ [34] ++ str "other.png" ++ [34] ++ str "}")
              (str "{" ++ [34] ++ str "figure" ++ [34]
               ++ str ":" ++ [34] ++ str "other.png" ++ [34] ++ str "}"))
    as (out & Hout & _ & _ & Hcs); [by vm_compute..|].
  exists out. split; [done|].
  apply (Hcs [(str "IHDR", [0; 0; 0; 1; 0; 0; 0; 1; 8; 0; 0; 0; 0]); (str "IEND", [])]).
  - repeat constructor.
  - done.
Defined.




(** The raster [embed_metadata] adds a block and never removes one: after
    a second embedding the image holds two more reserved blocks than
    before the first; extraction returns the record embedded last, when
    [json] reads it back as written, because it stops at the first block. *)
Lemma png_reembed_adds `{!PyLib} `{!JsonLaws} png_bytes m1 m2 o1 o2 :
  Png.embed_metadata png_bytes m1 = Ok o1 →
  Png.embed_metadata o1 m2 = Ok o2 →
  Png.reserved_blocks (Png._iter_chunks o2)
  = S (S (Png.reserved_blocks (Png._iter_chunks png_bytes)))
  ∧ (json_exact_record m2 → Png.extract_metadata o2 = Ok (VDict m2)).
Proof.
  intros H1 H2. split.
  - by rewrite (reserved_blocks_embed _ _ _ H2), (reserved_blocks_embed _ _ _ H1).
  - intros Hex. by eapply png_extract_embedded.
Qed.

(** C2, where the code departs from it.  A raster image with no reserved
    block holds one after a first embedding and two after a second: the
    second embedding adds its block in front of the first and replaces
    nothing.  Extraction returns the second record. *)
Theorem png_reembed_two_blocks :
  ∃ o1 o2,
    Png.embed_metadata Samples.png_plain Samples.record_plot = Ok o1
    ∧ Png.embed_metadata o1 Samples.record_other = Ok o2
    ∧ Png.reserved_blocks (Png._iter_chunks o1) = 1%nat
    ∧ Png.reserved_blocks (Png._iter_chunks o2) = 2%nat
    ∧ Png.extract_metadata o2 = Ok (VDict Samples.record_other).
Proof.
  destruct (Png.embed_metadata Samples.png_plain Samples.record_plot) as [o1|] eqn:E1;
    [|by vm_compute in E1].
  destruct (Png.embed_metadata o1 Samples.record_other) as [o2|] eqn:E2.
  2:{ vm_compute in E1. injection E1 as <-. by vm_compute in E2. }
  exists o1, o2.
  destruct (png_reembed_adds _ _ _ _ _ E1 E2) as [Hn Hx].
  apply (λ H, H (exact_scalars_spec Samples.record_other eq_refl)) in Hx.
  assert (Png.reserved_blocks (Png._iter_chunks Samples.png_plain) = 0%nat) as H0
    by (by vm_compute).
  split; [exact eq_refl|]. split; [exact E2|].
  split; [by rewrite (reserved_blocks_embed _ _ _ E1), H0|].
  split; [by rewrite Hn, H0|exact Hx].
Qed.

(** C7, where the code departs from it.  Two raster images that hold no
    reserved block, on which extraction does not raise the package's
    error.  The first is what another tool writes: header, a Latin-1
    comment with one accented letter, end; the scan decodes the text of
    every text chunk as UTF-8 before it looks at the keyword, and the
    decoding error goes out as it is.  The second ends two bytes into a
    length field, and [struct.error] goes out.  The markup codec, for its
    part, turns a decoding error into its own error. *)
Theorem extract_without_block_other_errors :
  (startswith Samples.png_latin1_comment Png.PNG_SIGNATURE = true
   ∧ Png.reserved_blocks (Png._iter_chunks Samples.png_latin1_comment) = 0%nat
   ∧ Png.extract_metadata Samples.png_latin1_comment = Raise UnicodeDecodeError)
  ∧ (startswith Samples.png_cut_short Png.PNG_SIGNATURE = true
     ∧ Png.reserved_blocks (Png._iter_chunks Samples.png_cut_short) = 0%nat
     ∧ Png.extract_metadata Samples.png_cut_short = Raise StructError)
  ∧ Svg.extract_metadata (str "caf" ++ [233]) = Raise SVGMetadataError.
Proof. split_and!; by vm_compute. Qed.

(** X27. When extraction raises the package's own error.  Raster
    extraction raises it in exactly these cases: the bytes do not start
    with the signature; or the scan, having passed over chunks that are
    not text chunks and text chunks whose keyword is neither empty nor the
    reserved one and whose text is valid UTF-8, reaches the end of the
    chunks or a text chunk with an empty keyword.  Markup extraction
    raises it in exactly these cases: the bytes are not valid UTF-8; or no
    reserved element is found; or the body of the element found is empty
    after unescaping and stripping. *)
Theorem extract_format_error_cases `{!PyLib} `{!JsonLaws} :
  (∀ png_bytes,
     Png.extract_metadata png_bytes = Raise PNGMetadataError ↔
     startswith png_bytes Png.PNG_SIGNATURE = false
     ∨ ∃ skipped rest,
         Png._iter_chunks png_bytes = Png.prepend skipped rest
         ∧ Forall Png.passed_over skipped
         ∧ (rest = Png.Stop
            ∨ ∃ data k, rest = Png.Yield Png.tEXt data k ∧ Png.keyword_of data = []))
  ∧ (∀ svg_bytes,
       Svg.extract_metadata svg_bytes = Raise SVGMetadataError ↔
       (∃ e, utf8_decode svg_bytes = Raise e)
       ∨ ∃ text, utf8_decode svg_bytes = Ok text
           ∧ (search_metadata text = None
              ∨ ∃ before body after,
                  search_metadata text = Some (before, body, after)
                  ∧ strip (html_unescape body) = [])).
Proof.
  split.
  - intros png_bytes. unfold Png.extract_metadata.
    destruct (startswith png_bytes Png.PNG_SIGNATURE); cbn [negb].
    + rewrite scan_format_error. split; [by right|]. by intros [|].
    + split; [by left|done].
  - intros svg_bytes. unfold Svg.extract_metadata, Svg.decode_text.
    destruct (utf8_decode svg_bytes) as [text|e]; cbn [rbind].
    + destruct (search_metadata text) as [[[before body] after]|] eqn:Hs.
      * destruct (strip (html_unescape body)) as [|c payload] eqn:Hpay; cbn [is_empty].
        -- split; [|done]. intros _. right. exists text. split; [done|]. right.
           by exists before, body, after.
        -- split.
           ++ by intros ?%loads_raises.
           ++ intros [[e [=]]|(? & [= <-] & [Hn|(? & ? & ? & Hs' & Hb)])].
              ** by rewrite Hs in Hn.
              ** rewrite Hs in Hs'. injection Hs' as <- <- <-. by rewrite Hpay in Hb.
      * split; [|done]. intros _. right. exists text. split; [done|]. by left.
    + split; [|done]. intros _. left. eauto.
Qed.

Lemma extract_format_error_cases_witness :
  Png.extract_metadata Samples.png_plain = Raise PNGMetadataError
  ∧ Svg.extract_metadata Samples.svg_plain = Raise SVGMetadataError.
Proof.
  destruct (@extract_format_error_cases Ref.lib RefFacts.json_laws) as [Hpng Hsvg]. split.
  - apply Hpng. right.
    exists [(str "IHDR", [0; 0; 0; 1; 0; 0; 0; 1; 8; 0; 0; 0; 0]); (str "IEND", [])], Png.Stop.
    split; [by vm_compute|]. split; [|by left].
    repeat (apply Forall_cons; split; [by left|]). apply Forall_nil_2.
  - apply Hsvg. right. exists Samples.svg_plain. split; [by vm_compute|].
    left. by vm_compute.
Defined.

(** ** The file system *)

Section FsFacts.

Implicit Types (fs : filesystem) (p q d : path).

Lemma mkdir_prefixes_ok done_ todo fs :
  (∀ i, (1 ≤ i ≤ length todo)%nat → not_file (fs !! (done_ ++ take i todo)) = true) →
  mkdir_prefixes done_ todo fs = (Ok (), with_dirs done_ todo fs).
Proof.
  revert done_ fs. induction todo as [|c todo IH]; intros done_ fs Hfree; [done|].
  cbn [mkdir_prefixes with_dirs].
  pose proof (Hfree 1%nat ltac:(simpl; lia)) as H1. cbn [take] in H1. rewrite take_0 in H1.
  destruct (fs !! (done_ ++ [c])) as [[b|]|] eqn:E; [done| |]; clear H1.
  - apply IH. intros i Hi. rewrite <- (assoc_L (++)). cbn [app].
    destruct (decide (i = 0%nat)) as [->|]; [lia|].
    rewrite lookup_insert_ne.
    + apply (Hfree (S i)). simpl. lia.
    + intros Heq%(f_equal length). rewrite !length_app in Heq. simpl in Heq.
      rewrite length_take in Heq. lia.
  - apply IH. intros i Hi. rewrite <- (assoc_L (++)). cbn [app].
    rewrite lookup_insert_ne.
    + apply (Hfree (S i)). simpl. lia.
    + intros Heq%(f_equal length). rewrite !length_app in Heq. simpl in Heq.
      rewrite length_take in Heq. lia.
Qed.

Lemma with_dirs_lookup done_ todo fs q :
  let created := ∃ i, (1 ≤ i ≤ length todo)%nat ∧ q = done_ ++ take i todo in
  (created → with_dirs done_ todo fs !! q = Some Dir)
  ∧ (¬ created → with_dirs done_ todo fs !! q = fs !! q).
Proof.
  revert done_ fs. induction todo as [|c todo IH]; intros done_ fs; cbn [with_dirs].
  - split; [|done]. intros (i & Hi & _). simpl in Hi. lia.
  - destruct (IH (done_ ++ [c]) (<[done_ ++ [c] := Dir]> fs)) as [IH1 IH2].
    assert (Hdec : (∃ i, (1 ≤ i ≤ length todo)%nat ∧ q = (done_ ++ [c]) ++ take i todo)
                   ∨ ¬ (∃ i, (1 ≤ i ≤ length todo)%nat ∧ q = (done_ ++ [c]) ++ take i todo)).
    { destruct (decide (Exists (λ i, q = (done_ ++ [c]) ++ take i todo)
                               (seq 1 (length todo)))) as [He|He].
      - left. apply Exists_exists in He as (i & Hi%elem_of_seq & ->). exists i.
        split; [lia|done].
      - right. intros (i & Hi & ->). apply He, Exists_exists. exists i.
        split; [apply elem_of_seq; lia|done]. }
    cbv zeta. split.
    + intros (i & Hi & ->). destruct i as [|i]; [lia|].
      destruct (decide (i = 0%nat)) as [->|Hi0].
      * destruct Hdec as [Hc|Hc].
        -- by apply IH1.
        -- rewrite (IH2 Hc). cbn [take]. by rewrite take_0, lookup_insert_eq.
      * apply IH1. exists i. split; [simpl in Hi; lia|]. by rewrite <- (assoc_L (++)).
    + intros Hq. rewrite IH2.
      * rewrite lookup_insert_ne; [done|]. intros <-. apply Hq.
        exists 1%nat. split; [simpl; lia|]. cbn [take]. by rewrite take_0.
      * intros (i & Hi & ->). apply Hq. exists (S i). split; [simpl; lia|].
        by rewrite <- (assoc_L (++)).
Qed.

Lemma write_bytes_ok fs p payload :
  p ≠ [] → writable fs p = true →
  ∃ fs', Core._write_bytes p payload fs = (Ok (), fs')
    ∧ fs' !! p = Some (File payload)
    ∧ (∀ q, dir_of q p → fs' !! q = Some Dir)
    ∧ (∀ q, q ≠ p → ¬ dir_of q p → fs' !! q = fs !! q).
Proof.
  intros Hp [Hpre Hfile]%andb_true_iff.
  rewrite forallb_forall in Hpre.
  assert (Hlen : length (path_parent p) = (length p - 1)%nat).
  { unfold path_parent. rewrite length_take. lia. }
  assert (Htake : ∀ i, (i ≤ length p - 1)%nat → take i (path_parent p) = take i p).
  { intros i Hi. unfold path_parent. rewrite take_take. f_equal. lia. }
  assert (Hcreated : ∀ q, dir_of q p ↔
            ∃ i, (1 ≤ i ≤ length (path_parent p))%nat ∧ q = [] ++ take i (path_parent p)).
  { intros q. unfold dir_of.
    split; intros (i & Hi & ->); exists i; rewrite Hlen in *; cbn [app].
    - split; [done|]. symmetry. apply Htake. lia.
    - split; [done|]. apply Htake. lia. }
  assert (Hnot : ¬ dir_of p p).
  { intros (i & Hi & Heq%(f_equal length)). rewrite length_take in Heq. lia. }
  unfold Core._write_bytes, io_bind, mkdir_parents.
  rewrite mkdir_prefixes_ok.
  2:{ intros i Hi. cbn [app]. rewrite Hlen in Hi. rewrite Htake by lia.
      apply Hpre, in_seq. lia. }
  set (fs1 := with_dirs [] (path_parent p) fs).
  assert (Hdir : ∀ q, dir_of q p → fs1 !! q = Some Dir).
  { intros q Hq. by apply with_dirs_lookup, Hcreated. }
  assert (Hother : ∀ q, ¬ dir_of q p → fs1 !! q = fs !! q).
  { intros q Hq. apply with_dirs_lookup. by rewrite <- Hcreated. }
  unfold write_bytes. rewrite (Hother p Hnot).
  assert (is_dir fs1 (path_parent p) = true) as ->.
  { unfold is_dir. destruct (path_parent p) as [|c d] eqn:Hd; [done|].
    rewrite Hdir; [done|].
    exists (length p - 1)%nat. split.
    - simpl in Hlen. lia.
    - rewrite <- (Htake (length p - 1)%nat) by lia. rewrite <- Hlen. by rewrite firstn_all. }
  exists (<[p := File payload]> fs1).
  split; [by destruct (fs !! p) as [[b|]|]|].
  split; [by rewrite lookup_insert_eq|]. split.
  - intros q Hq. rewrite lookup_insert_ne by (by intros <-). by apply Hdir.
  - intros q Hqp Hq. rewrite lookup_insert_ne by done. by apply Hother.
Qed.

End FsFacts.

(** ** Paths *)

Section PathFacts.

Lemma split_slash_cons s : ∃ w ws, split_slash s = w :: ws.
Proof.
  induction s as [|c s (w & ws & IH)]; simpl; [eauto|].
  case_bool_decide; [eauto|]. rewrite IH. eauto.
Qed.

Lemma split_slash_no_slash s : Forall (λ w, 47 ∉ w) (split_slash s).
Proof.
  induction s as [|c s IH]; simpl.
  - repeat constructor. apply not_elem_of_nil.
  - case_bool_decide as Hc.
    + constructor; [apply not_elem_of_nil|done].
    + destruct (split_slash_cons s) as (w & ws & Hs). rewrite Hs in *.
      apply Forall_cons in IH as [Hw Hws]. constructor; [|done].
      by apply not_elem_of_cons.
Qed.

Lemma split_slash_single w : 47 ∉ w → split_slash w = [w].
Proof.
  induction w as [|c w IH]; [done|]. intros [Hc Hw]%not_elem_of_cons. simpl.
  rewrite bool_decide_eq_false_2 by done. by rewrite IH.
Qed.

(** A component of a path is a path of its own. *)
Lemma Path_component s c : c ∈ Path s → Path c = [c].
Proof.
  unfold Path. intros [Hc Hs]%list_elem_of_filter.
  pose proof (split_slash_no_slash s) as Hall. rewrite Forall_forall in Hall.
  rewrite split_slash_single by auto.
  by rewrite filter_cons_True, filter_nil.
Qed.

Lemma Path_underscore s : ∃ c cs, Path (95 :: s) = c :: cs.
Proof.
  unfold Path. cbn [split_slash]. rewrite bool_decide_eq_false_2 by done.
  destruct (split_slash_cons s) as (w & ws & ->).
  rewrite filter_cons_True by done. eauto.
Qed.

Lemma path_name_elem p : path_name p ≠ [] → path_name p ∈ p.
Proof.
  unfold path_name. destruct (last p) as [n|] eqn:E; [|done].
  intros _. apply last_Some in E as [p' ->]. set_solver.
Qed.

Lemma path_suffix_name p : path_suffix p ≠ [] → path_name p ≠ [].
Proof.
  unfold path_suffix. intros Hs Hn. rewrite Hn in Hs. done.
Qed.

End PathFacts.

(** ** [savefig] *)

Section CoreFacts.
Context `{!PyLib}.
Variable w : Core.world.

Lemma LATEST_DIR_parts : Core._LATEST_DIR = [str "figures"; str "latest"].
Proof. done. Qed.

Lemma HISTORY_DIR_parts : Core._HISTORY_DIR = [str "figures"; str "history"].
Proof. done. Qed.

Lemma supported_inv suffix :
  Core.supported suffix = true → suffix = str ".png" ∨ suffix = str ".svg".
Proof.
  unfold Core.supported. intros Hs%bool_decide_eq_true.
  unfold Core._SUPPORTED_EXTENSIONS in Hs.
  apply elem_of_cons in Hs as [->|Hs]; [by left|].
  apply elem_of_cons in Hs as [->|Hs]; [by right|]. by apply elem_of_nil in Hs.
Qed.

Lemma str_lower_nil s : Core.str_lower s ≠ [] → s ≠ [].
Proof. by intros Hs ->. Qed.

Lemma latest_path_parts name :
  Core.supported (Core.str_lower (path_suffix (Path name))) = true →
  joinpath Core._LATEST_DIR (path_name (Path name))
  = [str "figures"; str "latest"; path_name (Path name)].
Proof.
  intros Hs. unfold joinpath. rewrite LATEST_DIR_parts.
  rewrite (Path_component name); [done|].
  apply path_name_elem, path_suffix_name, str_lower_nil.
  by apply supported_inv in Hs as [->| ->].
Qed.

Lemma history_path_parts p m :
  ∃ c cs, Core._build_history_path w p m
          = [str "figures"; str "history"] ++ Path (path_stem p) ++ c :: cs.
Proof.
  unfold Core._build_history_path, joinpath. rewrite HISTORY_DIR_parts.
  cbv zeta. change (str "_" ++ ?x) with (95 :: x).
  match goal with |- context [Path (95 :: ?x)] =>
    destruct (Path_underscore x) as (c & cs & ->) end.
  exists c, cs. by rewrite <- (assoc_L (++)).
Qed.

(** Paths that differ in their second component are not in each other's
    way. *)
Lemma apart (p q : path) x y :
  p !! 1%nat = Some x → q !! 1%nat = Some y → x ≠ y →
  p ≠ q ∧ ¬ dir_of p q ∧ ¬ dir_of q p.
Proof.
  intros Hp Hq Hxy. split_and!.
  - intros ->. congruence.
  - intros (i & Hi & ->). rewrite lookup_take_Some in Hp. destruct Hp as [Hp _]. congruence.
  - intros (i & Hi & ->). rewrite lookup_take_Some in Hq. destruct Hq as [Hq _]. congruence.
Qed.

Lemma writable_after fs fs' p q :
  writable fs q = true →
  (∀ r, dir_of r p → fs' !! r = Some Dir) →
  (∀ r, r ≠ p → ¬ dir_of r p → fs' !! r = fs !! r) →
  q ≠ p → ¬ dir_of q p → ¬ dir_of p q →
  writable fs' q = true.
Proof.
  intros [Hpre Hfile]%andb_true_iff Hdir Hother Hqp Hq Hp.
  apply andb_true_iff. split.
  - rewrite forallb_forall in Hpre |- *. intros i Hi. specialize (Hpre i Hi).
    apply in_seq in Hi.
    destruct (decide (Exists (λ j, take i q = take j p) (seq 1 (length p - 1)))) as [He|He].
    + apply Exists_exists in He as (j & Hj%elem_of_seq & Hij).
      rewrite Hdir; [done|]. exists j. split; [lia|done].
    + rewrite Hother; [done| |].
      * intros Heq. apply Hp. exists i. split; [lia|done].
      * intros (j & Hj & Hij). apply He, Exists_exists. exists j.
        split; [apply elem_of_seq; lia|done].
  - by rewrite Hother.
Qed.

(** When its collaborators deliver, [savefig] writes the embedded bytes to
    both destinations and returns their paths with the record. *)
Lemma savefig_success name fig md kwargs fs figure_obj image_bytes out :
  let p := Path name in
  let suffix := Core.str_lower (path_suffix p) in
  let metadata_payload := Core._build_metadata w p md in
  let latest := [str "figures"; str "latest"; path_name p] in
  let history := Core._build_history_path w p metadata_payload in
  Core.supported suffix = true →
  Core._resolve_figure w fig = Ok figure_obj →
  Core._render_figure figure_obj (Core.lstrip_dot suffix) (default ∅ kwargs) = Ok image_bytes →
  Core.embed_for suffix image_bytes metadata_payload = Ok out →
  writable fs latest = true → writable fs history = true →
  ∃ fs',
    Core.savefig w name fig md kwargs fs
    = (Ok {| Core.latest_path := latest; Core.history_path := history;
             Core.metadata := metadata_payload |}, fs')
    ∧ fs' !! latest = Some (File out)
    ∧ fs' !! history = Some (File out).
Proof.
  cbv zeta. intros Hsup Hfig Hrender Hembed Hwl Hwh.
  set (metadata_payload := Core._build_metadata w (Path name) md) in *.
  set (latest := [str "figures"; str "latest"; path_name (Path name)]) in *.
  destruct (history_path_parts (Path name) metadata_payload) as (c & cs & Hhist).
  set (history := Core._build_history_path w (Path name) metadata_payload) in *.
  assert (Hl1 : latest !! 1%nat = Some (str "latest")) by done.
  assert (Hh1 : history !! 1%nat = Some (str "history")) by (by rewrite Hhist).
  destruct (apart latest history _ _ Hl1 Hh1) as (Hne & Hlh & Hhl); [done|].
  destruct (write_bytes_ok fs latest out) as (fs1 & Hw1 & Hf1 & Hd1 & Ho1); [done..|].
  destruct (write_bytes_ok fs1 history out) as (fs2 & Hw2 & Hf2 & Hd2 & Ho2).
  { by rewrite Hhist. }
  { eapply writable_after; eauto. }
  exists fs2. split_and!; [|by rewrite Ho2, Hf1|done].
  unfold Core.savefig. rewrite Hsup. cbn [negb].
  unfold io_bind at 1. unfold io_lift at 1. rewrite Hfig.
  unfold io_bind at 1. unfold io_lift at 1. fold metadata_payload. rewrite Hrender.
  unfold io_bind at 1. unfold io_lift at 1. rewrite Hembed.
  rewrite latest_path_parts by done. fold latest. fold history.
  unfold io_bind at 1. rewrite Hw1. unfold io_bind at 1. by rewrite Hw2.
Qed.

End CoreFacts.

(** ** Claims about the orchestrator *)

Lemma strip_nil : strip [] = [].
Proof. done. Qed.

Lemma strip_id s c l :
  head s = Some c → last s = Some l → py_isspace c = false → py_isspace l = false →
  strip s = s.
Proof.
  intros Hc Hl Hcs Hls. unfold strip, rstrip.
  destruct s as [|c' s]; [done|]. injection Hc as ->. cbn [lstrip]. rewrite Hcs.
  apply last_Some in Hl as [s' Hs']. rewrite Hs', reverse_snoc. cbn [lstrip].
  rewrite Hls. by rewrite <- reverse_snoc, reverse_involutive.
Qed.

Lemma is_hex_not_space c : is_hex c = true → py_isspace c = false.
Proof.
  intros Hc. assert (48 ≤ c ≤ 102) as Hr.
  { unfold is_hex, between in Hc. repeat case_bool_decide; simpl in *; try done; lia. }
  unfold py_isspace, between. by rewrite !bool_decide_eq_false_2 by lia.
Qed.

Lemma lstrip_spaces lead rest :
  Forall (λ x, py_isspace x = true) lead → lstrip (lead ++ rest) = lstrip rest.
Proof. induction 1 as [|x lead Hx _ IH]; [done|]. cbn [app lstrip]. by rewrite Hx. Qed.

(** Stripping takes off the white space at both ends and nothing else. *)
Lemma strip_core lead core trail c l :
  Forall (λ x, py_isspace x = true) lead → Forall (λ x, py_isspace x = true) trail →
  head core = Some c → last core = Some l →
  py_isspace c = false → py_isspace l = false →
  strip (lead ++ core ++ trail) = core.
Proof.
  intros Hlead Htrail Hc Hl Hcs Hls. unfold strip, rstrip.
  rewrite lstrip_spaces by done.
  destruct core as [|c' core]; [done|]. injection Hc as ->.
  cbn [app lstrip]. rewrite Hcs.
  change (c :: core ++ trail) with ((c :: core) ++ trail).
  rewrite reverse_app, lstrip_spaces by (by apply Forall_reverse).
  apply last_Some in Hl as [core' ->]. rewrite reverse_snoc. cbn [lstrip]. rewrite Hls.
  by rewrite <- reverse_snoc, reverse_involutive.
Qed.

(** Every string is white space only, or white space around a core. *)
Lemma space_core_space s :
  Forall (λ x, py_isspace x = true) s
  ∨ ∃ lead core trail c l,
      s = lead ++ core ++ trail
      ∧ Forall (λ x, py_isspace x = true) lead ∧ Forall (λ x, py_isspace x = true) trail
      ∧ head core = Some c ∧ last core = Some l
      ∧ py_isspace c = false ∧ py_isspace l = false.
Proof.
  induction s as [|y s IH] using rev_ind; [by left|].
  destruct (py_isspace y) eqn:Hy.
  - destruct IH as [Hs|(lead & core & trail & c & l & -> & Hlead & Htrail & Hc & Hl & Hcl)].
    + left. apply Forall_app. split; [done|]. by apply Forall_singleton.
    + right. exists lead, core, (trail ++ [y]), c, l.
      split; [by rewrite <- !(assoc_L (++))|].
      split; [done|]. split; [|done].
      apply Forall_app. split; [done|]. by apply Forall_singleton.
  - right.
    destruct IH as [Hs|(lead & core & trail & c & l & -> & Hlead & Htrail & Hc & Hl & Hcs & Hls)].
    + exists s, [y], [], y, y. by rewrite (right_id_L [] (++)).
    + exists lead, (core ++ trail ++ [y]), [], c, y.
      rewrite (right_id_L [] (++)), <- !(assoc_L (++)).
      split; [done|]. split; [done|]. split; [done|].
      split; [by destruct core|].
      split; [by rewrite !(assoc_L (++)), last_snoc|done].
Qed.

Lemma strip_spaces s : Forall (λ x, py_isspace x = true) s → strip s = [].
Proof.
  intros Hs. unfold strip, rstrip.
  rewrite <- (right_id_L [] (++) s), lstrip_spaces by done. done.
Qed.

(** C8. The revision token of the history file name.  For a string made of
    white space at the front, a core that begins and ends with a character
    that is not white space, and white space at the end, the token is the
    first seven characters of the core: the white space at either end is
    dropped.  A string of white space only, the empty string among them,
    gives [nogit]; every string is of one of these two kinds.  Any value
    that is not a string, an absent revision among them, gives [nogit].  A
    revision of forty hexadecimal digits gives exactly its first seven. *)
Theorem format_git_hash_spec :
  (∀ lead core trail c l,
     Forall (λ x, py_isspace x = true) lead → Forall (λ x, py_isspace x = true) trail →
     head core = Some c → last core = Some l →
     py_isspace c = false → py_isspace l = false →
     Core._format_git_hash (VStr (lead ++ core ++ trail)) = take 7 core)
  ∧ (∀ s, Forall (λ x, py_isspace x = true) s →
          Core._format_git_hash (VStr s) = str "nogit")
  ∧ (∀ s, Forall (λ x, py_isspace x = true) s
          ∨ ∃ lead core trail c l,
              s = lead ++ core ++ trail
              ∧ Forall (λ x, py_isspace x = true) lead
              ∧ Forall (λ x, py_isspace x = true) trail
              ∧ head core = Some c ∧ last core = Some l
              ∧ py_isspace c = false ∧ py_isspace l = false)
  ∧ (∀ v, (∀ s, v ≠ VStr s) → Core._format_git_hash v = str "nogit")
  ∧ (∀ s, length s = 40%nat → Forall (λ c, is_hex c = true) s →
          Core._format_git_hash (VStr s) = take 7 s
          ∧ length (Core._format_git_hash (VStr s)) = 7%nat).
Proof.
  assert (Hcore : ∀ lead core trail c l,
     Forall (λ x, py_isspace x = true) lead → Forall (λ x, py_isspace x = true) trail →
     head core = Some c → last core = Some l →
     py_isspace c = false → py_isspace l = false →
     Core._format_git_hash (VStr (lead ++ core ++ trail)) = take 7 core).
  { intros lead core trail c l Hlead Htrail Hc Hl Hcs Hls. unfold Core._format_git_hash.
    rewrite (strip_core lead core trail c l) by done.
    destruct core as [|c' core]; [done|].
    destruct (lead ++ (c' :: core) ++ trail) as [|x s] eqn:Hs; [by destruct lead|].
    done. }
  split; [exact Hcore|]. split; [|split; [exact space_core_space|split]].
  - intros s Hs. unfold Core._format_git_hash. destruct s as [|x s]; [done|].
    cbn [is_empty]. by rewrite strip_spaces.
  - intros v Hv. destruct v; try done. by destruct (Hv s).
  - intros s Hlen Hhex.
    destruct s as [|c s]; [done|].
    destruct (last (c :: s)) as [l|] eqn:Hl; [|by apply last_None in Hl].
    assert (Core._format_git_hash (VStr (c :: s)) = take 7 (c :: s)) as ->.
    { rewrite <- (right_id_L [] (++) (c :: s)) at 1.
      apply (Hcore [] (c :: s) [] c l); try done.
      - apply is_hex_not_space. by apply Forall_cons in Hhex as [? _].
      - apply is_hex_not_space. rewrite Forall_forall in Hhex.
        by apply Hhex, last_Some_elem_of. }
    split; [done|]. rewrite length_take. lia.
Qed.

Lemma format_git_hash_spec_witness :
  Core._format_git_hash (VStr (str "abc " ++ [10])) = str "abc"
  ∧ Core._format_git_hash
      (VStr (str "  0123456789abcdef0123456789abcdef01234567" ++ [10]))
    = str "0123456"
  ∧ Core._format_git_hash (VStr (str " " ++ [9; 10])) = str "nogit"
  ∧ Core._format_git_hash VNone = str "nogit".
Proof.
  destruct format_git_hash_spec as (Hcore & Hspace & _ & Hother & _).
  split; [|split; [|split]].
  - apply (Hcore [] (str "abc") (str " " ++ [10]) 97 99); try done.
    by apply (bool_decide_unpack _); vm_compute.
  - apply (Hcore (str "  ") (str "0123456789abcdef0123456789abcdef01234567") [10] 48 55);
      try done; by apply (bool_decide_unpack _); vm_compute.
  - apply Hspace. by apply (bool_decide_unpack _); vm_compute.
  - by apply Hother.
Defined.

Section TimestampFacts.
Context `{!PyLib}.

Lemma format_timestamp_token_parsed w s dt :
  fromisoformat s = Some dt →
  Core._format_timestamp_token w (VStr s) = strftime_token dt.
Proof.
  intros Hdt. unfold Core._format_timestamp_token. rewrite Hdt.
  by destruct dt as [? ? ? ? ? ? ? [|]].
Qed.

Lemma format_timestamp_token_unparsed w s :
  fromisoformat s = None →
  Core._format_timestamp_token w (VStr s)
  = if is_empty (filter (λ ch, Core.isalnum ch = true) s)
    then strftime_token (Core.w_now_token w)
    else filter (λ ch, Core.isalnum ch = true) s.
Proof. intros Hdt. unfold Core._format_timestamp_token. by rewrite Hdt. Qed.

End TimestampFacts.

(** C3, where the code departs from it.  A timestamp with the offset
    [+05:00] parses; its instant is 07:00:00 UTC of the same day; the token
    is made of its own clock fields, 12:00:00, and not of the UTC ones. *)
Theorem timestamp_token_keeps_offset_clock :
  fromisoformat (str "2024-01-01T12:00:00+05:00")
  = Some (mkDatetime 2024 1 1 12 0 0 0 (Some 18000))
  ∧ utc_seconds (mkDatetime 2024 1 1 12 0 0 0 (Some 18000))
    = utc_seconds (mkDatetime 2024 1 1 7 0 0 0 (Some 0))
  ∧ Core._format_timestamp_token Samples.world_script (VStr (str "2024-01-01T12:00:00+05:00"))
    = str "20240101T120000"
  ∧ strftime_token (mkDatetime 2024 1 1 7 0 0 0 (Some 0)) = str "20240101T070000".
Proof. split_and!; by vm_compute. Qed.

(** C4, a world in which nothing can be determined: each of the four keys
    is in the record, with the value [None]. *)
Lemma undeterminable_keys_present :
  Core._build_metadata Samples.world_bare [str "plot.png"] None !! str "source" = Some VNone
  ∧ Core._build_metadata Samples.world_bare [str "plot.png"] None !! str "cell_number"
    = Some VNone
  ∧ Core._build_metadata Samples.world_bare [str "plot.png"] None !! str "git_commit"
    = Some VNone
  ∧ Core._build_metadata Samples.world_bare [str "plot.png"] None !! str "refig_version"
    = Some VNone.
Proof. split_and!; by vm_compute. Qed.

Lemma build_metadata_lookup w p extra k :
  Core._build_metadata w p extra !! k
  = match default ∅ extra !! k with
    | Some v => Some v
    | None => Core._build_metadata w p None !! k
    end.
Proof.
  unfold Core._build_metadata. destruct extra as [extra|].
  - change (default ∅ (Some extra)) with extra. case_bool_decide as He.
    + subst extra. by rewrite lookup_empty.
    + rewrite lookup_union. destruct (extra !! k); [|by rewrite (left_id_L None _)].
      by destruct (_ !! k).
  - change (default ∅ None) with (∅ : record). by rewrite lookup_empty.
Qed.

(** C4, as the code has it.  The record always holds the four optional
    keys, as it holds [figure] and [created_at].  A caller-supplied value
    for a key is the value of that key.  Without one, the key of a source
    that cannot be determined holds [None]: [source] when no frame outside
    the library is found, [cell_number] when there is no interactive shell
    or it has no execution count, [git_commit] when [git] is missing, fails
    or prints nothing, [refig_version] when the distribution is not found. *)
Theorem build_metadata_optional_keys (w : Core.world) (p : path) (extra : option record) :
  (∀ k, k ∈ [str "figure"; str "created_at"; str "source"; str "cell_number";
             str "git_commit"; str "refig_version"] →
        is_Some (Core._build_metadata w p extra !! k))
  ∧ (∀ k v, default ∅ extra !! k = Some v → Core._build_metadata w p extra !! k = Some v)
  ∧ (default ∅ extra !! str "source" = None → Core._infer_source_path w = None →
     Core._build_metadata w p extra !! str "source" = Some VNone)
  ∧ (default ∅ extra !! str "cell_number" = None →
     Core.w_ipython w = Core.NoIPython ∨ Core.w_ipython w = Core.Shell None →
     Core._build_metadata w p extra !! str "cell_number" = Some VNone)
  ∧ (default ∅ extra !! str "git_commit" = None →
     Core.w_git w = Core.GitNotFound ∨ Core.w_git w = Core.GitFailed
     ∨ (∃ out, Core.w_git w = Core.GitStdout out ∧ strip out = []) →
     Core._build_metadata w p extra !! str "git_commit" = Some VNone)
  ∧ (default ∅ extra !! str "refig_version" = None → Core.w_version w = None →
     Core._build_metadata w p extra !! str "refig_version" = Some VNone).
Proof.
  split_and!.
  - intros k Hk. rewrite build_metadata_lookup. destruct (default ∅ extra !! k); [done|].
    unfold Core._build_metadata.
    repeat (apply elem_of_cons in Hk as [->|Hk]; [by simplify_map_eq|]).
    by apply elem_of_nil in Hk.
  - intros k v Hk. by rewrite build_metadata_lookup, Hk.
  - intros He Hw. rewrite build_metadata_lookup, He. unfold Core._build_metadata.
    simplify_map_eq. by rewrite Hw.
  - intros He Hw. rewrite build_metadata_lookup, He. unfold Core._build_metadata.
    simplify_map_eq. unfold Core._infer_cell_number. by destruct Hw as [-> | ->].
  - intros He Hw. rewrite build_metadata_lookup, He. unfold Core._build_metadata.
    simplify_map_eq. unfold Core._infer_git_commit.
    destruct Hw as [-> | [-> | (out & -> & ->)]]; done.
  - intros He Hw. rewrite build_metadata_lookup, He. unfold Core._build_metadata.
    simplify_map_eq. unfold Core._get_refig_version. by rewrite Hw.
Qed.

Section SavefigClaims.
Context `{!PyLib}.

Lemma get_created_at w p :
  Core.get (Core._build_metadata w p None) (str "created_at") = VStr (isoformat (Core.w_now w)).
Proof. unfold Core.get, Core._build_metadata. by simplify_map_eq. Qed.

Lemma get_git_commit w p :
  Core.get (Core._build_metadata w p None) (str "git_commit")
  = Core.or_none VStr (Core._infer_git_commit w).
Proof. unfold Core.get, Core._build_metadata. by simplify_map_eq. Qed.

Lemma path_name_stem_suffix p : path_name p = path_stem p ++ path_suffix p.
Proof.
  unfold path_stem, path_suffix. destruct (rfind_dot (path_name p)) as [i|].
  - case_bool_decide; [by rewrite take_drop|by rewrite (right_id_L [] (++))].
  - by rewrite (right_id_L [] (++)).
Qed.

(** C6. A save that fails early writes nothing.  An extension that is not
    one of the two supported ones, compared in lower case, raises the error
    for an unsupported extension and leaves the file system as it was.  A
    codec that raises its own error while embedding makes [savefig] raise
    the embedding failure and leaves the file system as it was.  More
    generally, whatever [savefig] raises other than an operating-system
    error, the file system is as it was. *)
Theorem savefig_fails_before_writing (w : Core.world) (name : pystr)
    (fig : option Core.figure) (md : option record) (kwargs : option (gmap pystr pyval))
    (fs : filesystem) :
  (Core.supported (Core.str_lower (path_suffix (Path name))) = false →
   Core.savefig w name fig md kwargs fs = (Raise UnsupportedExtension, fs))
  ∧ (∀ figure_obj image_bytes,
       Core.supported (Core.str_lower (path_suffix (Path name))) = true →
       Core._resolve_figure w fig = Ok figure_obj →
       Core._render_figure figure_obj
         (Core.lstrip_dot (Core.str_lower (path_suffix (Path name)))) (default ∅ kwargs)
       = Ok image_bytes →
       (Core.str_lower (path_suffix (Path name)) = Core._PNG_EXT
        ∧ Png.embed_metadata image_bytes (Core._build_metadata w (Path name) md)
          = Raise PNGMetadataError)
       ∨ (Core.str_lower (path_suffix (Path name)) ≠ Core._PNG_EXT
          ∧ Svg.embed_metadata image_bytes (Core._build_metadata w (Path name) md)
            = Raise SVGMetadataError) →
       Core.savefig w name fig md kwargs fs = (Raise EmbeddingFailure, fs))
  ∧ (∀ e fs', Core.savefig w name fig md kwargs fs = (Raise e, fs') →
              e ≠ OSError → fs' = fs).
Proof.
  split_and!.
  - intros Hs. unfold Core.savefig. by rewrite Hs.
  - intros figure_obj image_bytes Hs Hfig Hrender Hcodec.
    unfold Core.savefig. rewrite Hs. cbn [negb].
    unfold io_bind at 1. unfold io_lift at 1. rewrite Hfig.
    unfold io_bind at 1. unfold io_lift at 1. rewrite Hrender.
    unfold io_bind at 1. unfold io_lift at 1. unfold Core.embed_for.
    destruct Hcodec as [[Hpng ->]|[Hsvg ->]].
    + by rewrite bool_decide_eq_true_2.
    + by rewrite bool_decide_eq_false_2.
  - intros e fs'. unfold Core.savefig.
    destruct (Core.supported _); cbn [negb]; [|by intros [= _ <-]].
    unfold io_bind at 1. unfold io_lift at 1.
    destruct (Core._resolve_figure w fig) as [figure_obj|]; [|by intros [= _ <-]].
    unfold io_bind at 1. unfold io_lift at 1.
    destruct (Core._render_figure _ _ _) as [image_bytes|]; [|by intros [= _ <-]].
    unfold io_bind at 1. unfold io_lift at 1.
    destruct (Core.embed_for _ _ _) as [out|]; [|by intros [= _ <-]].
    unfold io_bind at 1. unfold Core._write_bytes at 1. unfold io_bind at 1.
    assert (Hmk : ∀ d s r s', mkdir_parents d s = (Raise r, s') → r = OSError).
    { intros d. unfold mkdir_parents. generalize (@nil pystr).
      induction d as [|c d IH]; intros done_ s r s'; cbn [mkdir_prefixes]; [done|].
      destruct (s !! (done_ ++ [c])) as [[b|]|]; [by intros [= <- _]|apply IH..]. }
    assert (Hwr : ∀ q b s r s', write_bytes q b s = (Raise r, s') → r = OSError).
    { intros q b s r s'. unfold write_bytes.
      destruct (s !! q) as [[?|]|]; [|by intros [= <- _]|];
        (destruct (is_dir s (path_parent q)); [done|by intros [= <- _]]). }
    destruct (mkdir_parents _ fs) as [[[]|r1] fs1] eqn:E1;
      [|intros [= <- _] ?; by apply Hmk in E1].
    destruct (write_bytes _ out fs1) as [[[]|r2] fs2] eqn:E2;
      [|intros [= <- _] ?; by apply Hwr in E2].
    unfold io_bind at 1. unfold Core._write_bytes at 1. unfold io_bind at 1.
    destruct (mkdir_parents _ fs2) as [[[]|r3] fs3] eqn:E3;
      [|intros [= <- _] ?; by apply Hmk in E3].
    destruct (write_bytes _ out fs3) as [[[]|r4] fs4] eqn:E4;
      [done|intros [= <- _] ?; by apply Hwr in E4].
Qed.

End SavefigClaims.

Lemma savefig_fails_before_writing_witness :
  Core.savefig Samples.world_script (str "plot.jpg") None None None ∅
  = (Raise UnsupportedExtension, ∅)
  ∧ Core.savefig Samples.world_script (str "plot.png") (Some Samples.figure_blank) None None ∅
    = (Raise EmbeddingFailure, ∅).
Proof.
  split.
  - by apply savefig_fails_before_writing.
  - eapply savefig_fails_before_writing; [done|done|by vm_compute|]. left. by vm_compute.
Defined.

Section SavefigPaths.
Context `{!PyLib}.

Lemma embed_for_png image_bytes m out :
  Png.embed_metadata image_bytes m = Ok out →
  Core.embed_for Core._PNG_EXT image_bytes m = Ok out.
Proof. intros He. unfold Core.embed_for. rewrite bool_decide_eq_true_2 by done. by rewrite He. Qed.

(** C9. Saving [plot.png] with no caller metadata, when a figure is there,
    renders and takes the record, and nothing is in the way of the two
    files: [savefig] returns the paths [figures/latest/plot.png] and
    [figures/history/plot/_<timestamp>_<revision>.png], where the two tokens
    are those of the record's own [created_at] and [git_commit]; both files
    hold the embedded bytes, the same in each; the record's [figure] is
    [plot.png].  The history name is one component when it holds no
    slash. *)
Theorem savefig_plot_png (w : Core.world) (fig : option Core.figure)
    (kwargs : option (gmap pystr pyval)) (fs : filesystem)
    (figure_obj : Core.figure) (image_bytes out : bytes) :
  let record := Core._build_metadata w (Path (str "plot.png")) None in
  let history_name :=
    str "_" ++ Core._format_timestamp_token w (VStr (isoformat (Core.w_now w)))
    ++ str "_" ++ Core._format_git_hash (Core.or_none VStr (Core._infer_git_commit w))
    ++ str ".png" in
  let latest := [str "figures"; str "latest"; str "plot.png"] in
  let history := [str "figures"; str "history"; str "plot"] ++ Path history_name in
  Core._resolve_figure w fig = Ok figure_obj →
  Core._render_figure figure_obj (str "png") (default ∅ kwargs) = Ok image_bytes →
  Png.embed_metadata image_bytes record = Ok out →
  writable fs latest = true →
  writable fs history = true →
  ∃ fs',
    Core.savefig w (str "plot.png") fig None kwargs fs
    = (Ok {| Core.latest_path := latest; Core.history_path := history;
             Core.metadata := record |}, fs')
    ∧ fs' !! latest = Some (File out)
    ∧ fs' !! history = Some (File out)
    ∧ record !! str "figure" = Some (VStr (str "plot.png"))
    ∧ (47 ∉ history_name →
       history = [str "figures"; str "history"; str "plot"; history_name]).
Proof.
  cbv zeta. intros Hfig Hrender Hembed Hwl Hwh.
  assert (Hhist : Core._build_history_path w (Path (str "plot.png"))
                    (Core._build_metadata w (Path (str "plot.png")) None)
                  = [str "figures"; str "history"; str "plot"]
                    ++ Path (str "_"
                             ++ Core._format_timestamp_token w (VStr (isoformat (Core.w_now w)))
                             ++ str "_"
                             ++ Core._format_git_hash
                                  (Core.or_none VStr (Core._infer_git_commit w))
                             ++ str ".png")).
  { unfold Core._build_history_path. by rewrite get_created_at, get_git_commit. }
  destruct (savefig_success w (str "plot.png") fig None kwargs fs figure_obj image_bytes out)
    as (fs' & Hsave & Hl & Hh);
    [first [done | by apply embed_for_png | by rewrite Hhist]..|].
  rewrite Hhist in Hsave, Hh. exists fs'. split_and!; try done.
  intros Hslash. f_equal. unfold Path. rewrite split_slash_single by done.
  by rewrite filter_cons_True, filter_nil.
Qed.

(** C10. A name whose extension is a supported one in any letter case is
    accepted.  The latest copy keeps the name as it was given, which is
    the stem followed by the extension as given; the history copy goes
    under the stem, and its name ends in the extension in lower case, one
    of the two supported ones.  Both files hold the embedded bytes. *)
Theorem savefig_keeps_name_case (w : Core.world) (name : pystr)
    (fig : option Core.figure) (md : option record) (kwargs : option (gmap pystr pyval))
    (fs : filesystem) (figure_obj : Core.figure) (image_bytes out : bytes) :
  let p := Path name in
  let suffix := Core.str_lower (path_suffix p) in
  let record := Core._build_metadata w p md in
  let history_name :=
    str "_" ++ Core._format_timestamp_token w (Core.get record (str "created_at"))
    ++ str "_" ++ Core._format_git_hash (Core.get record (str "git_commit"))
    ++ suffix in
  let latest := [str "figures"; str "latest"; path_name p] in
  let history := [str "figures"; str "history"] ++ Path (path_stem p) ++ Path history_name in
  Core.supported suffix = true →
  Core._resolve_figure w fig = Ok figure_obj →
  Core._render_figure figure_obj (Core.lstrip_dot suffix) (default ∅ kwargs) = Ok image_bytes →
  Core.embed_for suffix image_bytes record = Ok out →
  writable fs latest = true →
  writable fs history = true →
  ∃ fs',
    Core.savefig w name fig md kwargs fs
    = (Ok {| Core.latest_path := latest; Core.history_path := history;
             Core.metadata := record |}, fs')
    ∧ path_name p = path_stem p ++ path_suffix p
    ∧ (suffix = str ".png" ∨ suffix = str ".svg")
    ∧ fs' !! latest = Some (File out)
    ∧ fs' !! history = Some (File out).
Proof.
  cbv zeta. intros Hsup Hfig Hrender Hembed Hwl Hwh.
  assert (Hhist : Core._build_history_path w (Path name) (Core._build_metadata w (Path name) md)
                  = [str "figures"; str "history"] ++ Path (path_stem (Path name))
                    ++ Path (str "_"
                             ++ Core._format_timestamp_token w
                                  (Core.get (Core._build_metadata w (Path name) md)
                                            (str "created_at"))
                             ++ str "_"
                             ++ Core._format_git_hash
                                  (Core.get (Core._build_metadata w (Path name) md)
                                            (str "git_commit"))
                             ++ Core.str_lower (path_suffix (Path name)))).
  { unfold Core._build_history_path, joinpath. rewrite Hsup, HISTORY_DIR_parts.
    by rewrite <- (assoc_L (++)). }
  destruct (savefig_success w name fig md kwargs fs figure_obj image_bytes out)
    as (fs' & Hsave & Hl & Hh); [first [done | by rewrite Hhist]..|].
  rewrite Hhist in Hsave, Hh. exists fs'. split_and!; try done.
  - apply path_name_stem_suffix.
  - by apply supported_inv.
Qed.

End SavefigPaths.

Lemma savefig_plot_png_witness :
  ∃ fs' out,
    Core.savefig Samples.world_script (str "plot.png") None None None ∅
    = (Ok {| Core.latest_path := [str "figures"; str "latest"; str "plot.png"];
             Core.history_path := [str "figures"; str "history"; str "plot";
                                   str "_20240101T120000_0123456.png"];
             Core.metadata :=
               Core._build_metadata Samples.world_script [str "plot.png"] None |}, fs')
    ∧ fs' !! [str "figures"; str "latest"; str "plot.png"] = Some (File out)
    ∧ fs' !! [str "figures"; str "history"; str "plot"; str "_20240101T120000_0123456.png"]
      = Some (File out).
Proof.
  destruct (Png.embed_metadata Samples.png_plain
              (Core._build_metadata Samples.world_script (Path (str "plot.png")) None))
    as [out|] eqn:E; [|by vm_compute in E].
  destruct (savefig_plot_png Samples.world_script None None ∅ Samples.figure_ok
              Samples.png_plain out) as (fs' & Hsave & Hl & Hh & _ & Hone);
    [by vm_compute..|done|by vm_compute|by vm_compute|].
  exists fs', out. cbv zeta in Hone.
  rewrite Hone in Hsave, Hh by (by apply (bool_decide_unpack _); vm_compute).
  split; [exact Hsave|]. split; [exact Hl|exact Hh].
Defined.

Lemma savefig_keeps_name_case_witness :
  ∃ fs' out,
    Core.savefig Samples.world_script (str "plot.PNG") None None None ∅
    = (Ok {| Core.latest_path := [str "figures"; str "latest"; str "plot.PNG"];
             Core.history_path := [str "figures"; str "history"; str "plot";
                                   str "_20240101T120000_0123456.png"];
             Core.metadata :=
               Core._build_metadata Samples.world_script [str "plot.PNG"] None |}, fs')
    ∧ fs' !! [str "figures"; str "latest"; str "plot.PNG"] = Some (File out)
    ∧ fs' !! [str "figures"; str "history"; str "plot"; str "_20240101T120000_0123456.png"]
      = Some (File out).
Proof.
  destruct (Png.embed_metadata Samples.png_plain
              (Core._build_metadata Samples.world_script (Path (str "plot.PNG")) None))
    as [out|] eqn:E; [|by vm_compute in E].
  destruct (savefig_keeps_name_case Samples.world_script (str "plot.PNG") None None None ∅
              Samples.figure_ok Samples.png_plain out) as (fs' & Hsave & _ & _ & Hl & Hh);
    [by vm_compute..| |by vm_compute|by vm_compute|].
  { by apply embed_for_png. }
  exists fs', out. split; [exact Hsave|]. split; [exact Hl|exact Hh].
Defined.

(** ** More on the raster codec *)

Section PngMore.
Context `{!PyLib}.

(** The first turn of the loop when the stream starts with a length field,
    a type and the data announced, whatever follows. *)
Lemma iter_from_head n len ty data tail :
  struct_pack_I (Z.of_nat (length data)) = Ok len →
  length ty = 4%nat →
  Png.iter_from (S n) (len ++ ty ++ data ++ tail)
  = Png.Yield ty data (if is_empty (drop 4 tail) then Png.Stop
                       else Png.iter_from n (drop 4 tail)).
Proof.
  intros [Hun Hlen]%struct_pack_unpack Hty.
  destruct len as [|l0 [|l1 [|l2 [|l3 [|]]]]]; try done.
  destruct ty as [|t0 [|t1 [|t2 [|t3 [|]]]]]; try done.
  cbn [Png.iter_from app take is_empty]. rewrite Hun.
  cbn [drop take app]. rewrite Nat2Z.id, take_0, drop_0.
  by rewrite take_app_length, drop_app_length.
Qed.

Lemma split_reserved text text_bytes :
  utf8_encode text = Ok text_bytes →
  Png._split_text_chunk (Png._METADATA_KEYWORD ++ [0] ++ text_bytes)
  = Ok (Png._METADATA_KEYWORD, text).
Proof.
  intros Htb. unfold Png._split_text_chunk. cbn [app].
  change (114 :: 101 :: 102 :: 105 :: 103 :: 0 :: text_bytes)
    with (Png._METADATA_KEYWORD ++ 0 :: text_bytes).
  rewrite partition0_keyword by apply keyword_no_zero.
  cbn [is_empty Png._METADATA_KEYWORD]. by rewrite (utf8_decode_encode _ _ Htb).
Qed.

Lemma scan_passed_over c k :
  Png.passed_over c → Png.scan (Png.Yield c.1 c.2 k) = Png.scan k.
Proof.
  intros Hc. cbn [Png.scan]. case_bool_decide as Hty; [|done].
  destruct Hc as [Hne|(Hkw & Hres & text & Htext)]; [done|].
  unfold Png._split_text_chunk, Png.keyword_of in *.
  destruct (partition0 c.2) as [kw t]. cbn [fst snd] in *.
  destruct kw as [|k0 kw]; [done|]. cbn [is_empty]. rewrite Htext. cbn [rbind].
  by rewrite bool_decide_eq_false_2.
Qed.

Lemma iter_chunks_frame_with c rest :
  Png.well_framed c.1 → length c.2 = 4%nat →
  Png._iter_chunks (Png.PNG_SIGNATURE ++ frame_with c ++ rest)
  = Png.Yield c.1.1 c.1.2 (Png._iter_chunks (Png.PNG_SIGNATURE ++ rest)).
Proof.
  intros [Hty Hlen] Hcrc. unfold frame_with. rewrite <- !(assoc_L (++)).
  rewrite (assoc_L (++) c.1.2), (assoc_L (++) c.1.1), (assoc_L (++) (Png.big_endian _)).
  rewrite (iter_chunks_prepend (Png.big_endian (Z.of_nat (length c.1.2))) c.1.1 c.1.2);
    [by rewrite iter_chunks_sig|apply big_endian_pack; lia|done..].
Qed.

Lemma scan_prepend_passed_over l k :
  Forall Png.passed_over l → Png.scan (Png.prepend l k) = Png.scan k.
Proof.
  induction 1 as [|c l Hc _ IH]; [done|].
  by rewrite prepend_cons, scan_passed_over.
Qed.

Lemma iter_chunks_frames_with skipped rest :
  Forall (λ c, Png.well_framed c.1 ∧ length c.2 = 4%nat) skipped →
  Png._iter_chunks (Png.PNG_SIGNATURE ++ mjoin (frame_with <$> skipped) ++ rest)
  = Png.prepend (fst <$> skipped) (Png._iter_chunks (Png.PNG_SIGNATURE ++ rest)).
Proof.
  induction 1 as [|c skipped [Hwf Hcrc] _ IH]; [done|].
  rewrite !fmap_cons, prepend_cons. cbn [mjoin list_join]. rewrite <- (assoc_L (++)).
  rewrite iter_chunks_frame_with by done. f_equal. apply IH.
Qed.

Lemma extract_skips skipped rest :
  Forall skippable skipped →
  Png.extract_metadata (Png.PNG_SIGNATURE ++ mjoin (frame_with <$> skipped) ++ rest)
  = Png.extract_metadata (Png.PNG_SIGNATURE ++ rest).
Proof.
  intros Hall. unfold Png.extract_metadata. rewrite !startswith_app. cbn [negb].
  rewrite iter_chunks_frames_with.
  - apply scan_prepend_passed_over, Forall_fmap.
    eapply Forall_impl; [exact Hall|]. by intros c (_ & _ & Hc).
  - eapply Forall_impl; [exact Hall|]. by intros c (Hwf & Hcrc & _).
Qed.

(** X2. Extraction passes over what it does not own.  Chunks in front that are
    not text chunks, or text chunks of other keywords with UTF-8 text, do
    not change the result, whatever their checksum fields hold: the
    checksum is never verified. *)
Theorem png_extract_skips_foreign_chunks (skipped : list (bytes * bytes * bytes))
    (rest : bytes) :
  Forall skippable skipped →
  Png.extract_metadata (Png.PNG_SIGNATURE ++ mjoin (frame_with <$> skipped) ++ rest)
  = Png.extract_metadata (Png.PNG_SIGNATURE ++ rest).
Proof.
  intros Hall. unfold Png.extract_metadata. rewrite !startswith_app. cbn [negb].
  assert (Hframes : Forall (λ c, Png.well_framed c.1 ∧ length c.2 = 4%nat) skipped).
  { eapply Forall_impl; [exact Hall|]. by intros c (Hwf & Hcrc & _). }
  assert (Hover : Forall Png.passed_over (fst <$> skipped)).
  { apply Forall_fmap. eapply Forall_impl; [exact Hall|]. by intros c (_ & _ & Hc). }
  rewrite (iter_chunks_frames_with _ _ Hframes).
  by apply scan_prepend_passed_over.
Qed.

(** X1. Extraction reads the first reserved block and nothing behind its data:
    the bytes that follow may be a checksum, further chunks, a second
    reserved block, or nothing at all. *)
Theorem png_extract_reads_first_block (text : pystr) (text_bytes tail : bytes) :
  utf8_encode text = Ok text_bytes →
  Z.of_nat (length text_bytes) + 6 < 2 ^ 32 →
  Png.extract_metadata
    (Png.PNG_SIGNATURE ++ Png.big_endian (Z.of_nat (length text_bytes) + 6) ++ Png.tEXt
     ++ (Png._METADATA_KEYWORD ++ [0] ++ text_bytes) ++ tail)
  = json_loads text.
Proof.
  intros Htb Hlen. unfold Png.extract_metadata. rewrite startswith_app. cbn [negb].
  rewrite iter_chunks_sig.
  rewrite (iter_from_head _ _ Png.tEXt (Png._METADATA_KEYWORD ++ [0] ++ text_bytes)); [|..|done].
  - cbn [Png.scan]. rewrite bool_decide_eq_true_2 by done.
    rewrite (split_reserved _ _ Htb). cbn [rbind].
    by rewrite bool_decide_eq_true_2.
  - replace (Z.of_nat (length (Png._METADATA_KEYWORD ++ [0] ++ text_bytes)))
      with (Z.of_nat (length text_bytes) + 6) by (rewrite !length_app; simpl; lia).
    apply big_endian_pack. lia.
Qed.

(** X3. A stream that ends one to three bytes into a length field, behind
    chunks that are passed over, makes extraction raise [struct.error]:
    the package's own error is not what the caller sees. *)
Theorem png_extract_short_length_field (skipped : list (bytes * bytes * bytes))
    (tail : bytes) :
  Forall skippable skipped →
  (1 ≤ length tail ≤ 3)%nat →
  Png.extract_metadata (Png.PNG_SIGNATURE ++ mjoin (frame_with <$> skipped) ++ tail)
  = Raise StructError.
Proof.
  intros Hall Htail. rewrite extract_skips by done.
  unfold Png.extract_metadata. rewrite startswith_app. cbn [negb].
  rewrite iter_chunks_sig.
  destruct tail as [|t0 [|t1 [|t2 [|t3 tail]]]]; simpl in Htail; try lia; done.
Qed.

(** X4. A text chunk whose text is not UTF-8 makes extraction raise
    [UnicodeDecodeError] as soon as the scan reaches it, also when a
    reserved block follows it, and whatever its keyword is. *)
Theorem png_extract_foreign_text_not_utf8 (skipped : list (bytes * bytes * bytes))
    (keyword text_bytes crc rest : bytes) (e : exn) :
  Forall skippable skipped →
  keyword ≠ [] → 0 ∉ keyword →
  utf8_decode text_bytes = Raise e →
  Z.of_nat (length (keyword ++ [0] ++ text_bytes)) < 2 ^ 32 →
  length crc = 4%nat →
  Png.extract_metadata
    (Png.PNG_SIGNATURE ++ mjoin (frame_with <$> skipped)
     ++ frame_with (Png.tEXt, keyword ++ [0] ++ text_bytes, crc) ++ rest)
  = Raise UnicodeDecodeError.
Proof.
  intros Hall Hkw H0 Htext Hlen Hcrc. rewrite extract_skips by done.
  unfold Png.extract_metadata. rewrite startswith_app. cbn [negb].
  rewrite iter_chunks_frame_with by done. cbn [fst snd Png.scan].
  rewrite bool_decide_eq_true_2 by done. unfold Png._split_text_chunk.
  cbn [app]. rewrite partition0_keyword by done.
  destruct keyword as [|k0 keyword]; [done|]. cbn [is_empty]. rewrite Htext.
  apply utf8_decode_raises in Htext as ->. done.
Qed.

(** X5. A text chunk built for any keyword is read back: the chunk is the
    length, the type, keyword, a zero byte and the UTF-8 text, and the
    checksum of type and data; the iterator yields its type and data, and
    splitting the data gives the keyword and the text.  The keyword must
    be non-empty Latin-1 without a zero character. *)
Theorem text_chunk_roundtrip (keyword text : pystr) (text_bytes : bytes) :
  keyword ≠ [] → Forall (λ c, 1 ≤ c < 256) keyword →
  utf8_encode text = Ok text_bytes →
  Z.of_nat (length keyword + 1 + length text_bytes) < 2 ^ 32 →
  let data := keyword ++ [0] ++ text_bytes in
  Png._build_text_chunk keyword text = Ok (Png.frame (Png.tEXt, data))
  ∧ Png._iter_chunks (Png.PNG_SIGNATURE ++ Png.frame (Png.tEXt, data))
    = Png.Yield Png.tEXt data Png.Stop
  ∧ Png._split_text_chunk data = Ok (keyword, text).
Proof.
  intros Hne Hkw Htb Hlen data.
  assert (Hdata : Z.of_nat (length data) < 2 ^ 32).
  { unfold data. rewrite !length_app. simpl. lia. }
  assert (Hwf : Png.well_framed (Png.tEXt, data)) by done.
  split; [|split].
  - unfold Png._build_text_chunk, latin1_encode.
    assert (forallb (λ c, bool_decide (0 ≤ c < 256)) keyword = true) as ->.
    { apply forallb_forall. intros c Hc%list_elem_of_In.
      rewrite Forall_forall in Hkw. apply bool_decide_eq_true_2.
      specialize (Hkw c Hc). lia. }
    cbn [rbind]. rewrite Htb. cbn [rbind]. fold data.
    rewrite (big_endian_pack (Z.of_nat (length data))) by lia. cbn [rbind].
    rewrite big_endian_pack by apply crc32_field_range. done.
  - rewrite <- (right_id_L [] (++) (Png.frame _)).
    by rewrite (iter_chunks_frame (Png.tEXt, data) []).
  - unfold Png._split_text_chunk, data. cbn [app].
    rewrite partition0_keyword.
    2:{ intros H0. rewrite Forall_forall in Hkw. specialize (Hkw 0 H0). lia. }
    destruct keyword as [|k0 keyword]; [done|]. cbn [is_empty].
    by rewrite (utf8_decode_encode _ _ Htb).
Qed.

End PngMore.

Section PngReturns.
Context `{!PyLib}.

(** When the scan of [extract_metadata] returns. *)
Lemma scan_returns cs v :
  Png.scan cs = Ok v ↔
  ∃ skipped data k text,
    cs = Png.prepend skipped (Png.Yield Png.tEXt data k)
    ∧ Forall Png.passed_over skipped
    ∧ Png.keyword_of data = Png._METADATA_KEYWORD
    ∧ utf8_decode (partition0 data).2 = Ok text
    ∧ json_loads text = Ok v.
Proof.
  induction cs as [| |ty data k IH].
  - split; [done|]. by intros ([|c l] & ? & ? & ? & ? & _).
  - split; [done|]. by intros ([|c l] & ? & ? & ? & ? & _).
  - assert (Hnext : Png.passed_over (ty, data) →
      (Png.scan k = Ok v ↔
       ∃ skipped data' k' text,
         Png.Yield ty data k = Png.prepend skipped (Png.Yield Png.tEXt data' k')
         ∧ Forall Png.passed_over skipped
         ∧ Png.keyword_of data' = Png._METADATA_KEYWORD
         ∧ utf8_decode (partition0 data').2 = Ok text
         ∧ json_loads text = Ok v)).
    { intros Hover. rewrite IH. split.
      - intros (skipped & d & k' & text & -> & Hall & Hrest).
        exists ((ty, data) :: skipped), d, k', text. split; [done|].
        split; [by constructor|done].
      - intros ([|c skipped] & d & k' & text & Hcs & Hall & Hkw & Htext & Hv).
        + cbn in Hcs. injection Hcs as -> -> ->.
          destruct Hover as [Hty|(_ & Hres & _)]; [done|]. by destruct Hres.
        + rewrite prepend_cons in Hcs. injection Hcs as _ _ ->.
          apply Forall_cons in Hall as [_ Hall]. by exists skipped, d, k', text. }
    assert (Hstop : ¬ Png.passed_over (ty, data) →
      (∀ text, Png.keyword_of data = Png._METADATA_KEYWORD →
               utf8_decode (partition0 data).2 = Ok text → ty = Png.tEXt →
               json_loads text ≠ Ok v) →
      ¬ ∃ skipped data' k' text,
          Png.Yield ty data k = Png.prepend skipped (Png.Yield Png.tEXt data' k')
          ∧ Forall Png.passed_over skipped
          ∧ Png.keyword_of data' = Png._METADATA_KEYWORD
          ∧ utf8_decode (partition0 data').2 = Ok text
          ∧ json_loads text = Ok v).
    { intros Hnot Hno ([|c skipped] & d & k' & text & Hcs & Hall & Hkw & Htext & Hv).
      - cbn in Hcs. injection Hcs as -> -> ->. by apply (Hno text).
      - rewrite prepend_cons in Hcs. destruct c as [ty' data']. injection Hcs as <- <- _.
        by apply Forall_cons in Hall as [? _]. }
    cbn [Png.scan]. case_bool_decide as Hty; [|by apply Hnext; left].
    unfold Png._split_text_chunk, Png.passed_over, Png.keyword_of in *. cbn [fst snd] in *.
    destruct (partition0 data) as [kw tb] eqn:Hpart. cbn [fst snd] in *.
    destruct (is_empty kw) eqn:Hkw.
    { apply is_empty_true in Hkw as ->. split; [done|]. intros Hex. exfalso.
      revert Hex. apply Hstop; [|done]. intros [?|(? & _)]; done. }
    apply is_empty_false in Hkw.
    destruct (utf8_decode tb) as [text|e] eqn:Htb; cbn [rbind].
    2:{ split; [done|]. intros Hex. exfalso. revert Hex. apply Hstop; [|done].
        intros [?|(_ & _ & ? & ?)]; done. }
    unfold latin1_decode. case_bool_decide as Hres.
    + split.
      * intros Hv. exists [], data, k, text. rewrite Hpart. subst ty. by split_and!.
      * intros ([|c skipped] & d & k' & text' & Hcs & Hall & Hkw' & Htext & Hv).
        -- cbn in Hcs. injection Hcs as _ <- _. rewrite Hpart in Htext. cbn in Htext.
           congruence.
        -- rewrite prepend_cons in Hcs. destruct c as [ty' data']. injection Hcs as <- <- _.
           apply Forall_cons in Hall as [[?|(_ & Hne & _)] _]; [done|].
           cbn in Hne. rewrite Hpart in Hne. done.
    + apply Hnext. right. eauto.
Qed.

(** X24. When raster extraction returns.  It returns a value exactly when the
    bytes start with the signature and the first chunk that the scan does
    not pass over is a text chunk with the reserved keyword whose text is
    UTF-8 and parses as JSON to that value. *)
Theorem png_extract_returns_iff (png_bytes : bytes) (v : pyval) :
  Png.extract_metadata png_bytes = Ok v ↔
  startswith png_bytes Png.PNG_SIGNATURE = true
  ∧ ∃ skipped data k text,
      Png._iter_chunks png_bytes = Png.prepend skipped (Png.Yield Png.tEXt data k)
      ∧ Forall Png.passed_over skipped
      ∧ Png.keyword_of data = Png._METADATA_KEYWORD
      ∧ utf8_decode (partition0 data).2 = Ok text
      ∧ json_loads text = Ok v.
Proof.
  unfold Png.extract_metadata. destruct (startswith png_bytes Png.PNG_SIGNATURE); cbn [negb].
  - rewrite scan_returns. split; [by split|by intros [_ ?]].
  - split; [done|by intros [? _]].
Qed.

(** X25. Every raster embedding adds one reserved block and removes none:
    for bytes that start with the signature and a record that serialises
    into the length field, embedding returns an image with one reserved
    block more than its input, whatever blocks the input held.  When no
    string of the record holds a surrogate pair, extraction from that
    image returns the record just embedded. *)
Theorem png_embed_adds_one_block `{!JsonLaws} (png_bytes : bytes) (m : record)
    (payload : pystr) :
  startswith png_bytes Png.PNG_SIGNATURE = true →
  json_dumps m = Ok payload →
  Z.of_nat (length payload) + 6 < 2 ^ 32 →
  ∃ out,
    Png.embed_metadata png_bytes m = Ok out
    ∧ Png.reserved_blocks (Png._iter_chunks out)
      = S (Png.reserved_blocks (Png._iter_chunks png_bytes))
    ∧ (json_exact_record m → Png.extract_metadata out = Ok (VDict m)).
Proof.
  intros Hsig Hp Hlen.
  destruct (png_embed_Ok png_bytes m payload) as [out Hout]; [done..| |done|].
  { by eapply dumps_printable. }
  exists out. split; [done|]. split.
  - by apply reserved_blocks_embed in Hout.
  - intros Hex. by eapply png_extract_embedded.
Qed.

End PngReturns.

(** ** More on the markup codec *)

Section SvgMore.
Context `{!PyLib} `{!JsonLaws}.

(** X6. Embedding changes one place of the document.  Where a reserved element
    is found, only its body is replaced; where none is found, a new element
    is inserted right behind the first root opening tag; what stands
    before and after is kept as it was.  Where neither is found, the
    package's error is raised. *)
Theorem svg_embed_changes_one_place (svg_bytes : bytes) (text : pystr) (m : record)
    (payload : pystr) :
  utf8_decode svg_bytes = Ok text →
  json_dumps m = Ok payload →
  match search_metadata text with
  | Some (before, body, after) =>
      text = before ++ body ++ after
      ∧ ∃ out, Svg.embed_metadata svg_bytes m = Ok out
          ∧ utf8_decode out = Ok (before ++ html_escape payload ++ after)
  | None =>
      match search_svg text with
      | Some (before, after) =>
          text = before ++ after
          ∧ ∃ out, Svg.embed_metadata svg_bytes m = Ok out
              ∧ utf8_decode out
                = Ok (before ++ [10; 32; 32] ++ Svg.metadata_open ++ html_escape payload
                      ++ str "</metadata>" ++ [10] ++ after)
      | None => Svg.embed_metadata svg_bytes m = Raise SVGMetadataError
      end
  end.
Proof.
  intros Hd Hp.
  destruct (search_metadata text) as [[[before body] after]|] eqn:Hs.
  - split.
    { apply search_metadata_Some in Hs as (pre0 & tag & -> & -> & _).
      by rewrite <- (assoc_L (++)). }
    destruct (svg_embed_Ok svg_bytes m text payload) as [out Hout]; [done|done|eauto|].
    exists out. split; [done|].
    apply svg_embed_inv in Hout as (text' & payload' & new_text & Hd' & Hp' & Henc & Hnew).
    rewrite Hd in Hd'. injection Hd' as <-. rewrite Hp in Hp'. injection Hp' as <-.
    rewrite Hs in Hnew. subst new_text. by apply utf8_decode_encode.
  - destruct (search_svg text) as [[before after]|] eqn:Hsvg.
    + split; [by apply search_svg_Some in Hsvg as [-> _]|].
      destruct (svg_embed_Ok svg_bytes m text payload) as [out Hout]; [done|done|eauto|].
      exists out. split; [done|].
      apply svg_embed_inv in Hout as (text' & payload' & new_text & Hd' & Hp' & Henc & Hnew).
      rewrite Hd in Hd'. injection Hd' as <-. rewrite Hp in Hp'. injection Hp' as <-.
      rewrite Hs in Hnew. destruct Hnew as (before' & after' & Hsvg' & ->).
      rewrite Hsvg in Hsvg'. injection Hsvg' as <- <-.
      apply utf8_decode_encode in Henc. rewrite Henc. by rewrite <- !(assoc_L (++)).
    + unfold Svg.embed_metadata, Svg.decode_text. rewrite Hd, Hp. cbn [rbind].
      by rewrite Hs, Hsvg.
Qed.

(** X7. When embedding raises the package's error, for a record that
    serialises: the bytes are not UTF-8, or the text holds neither a
    reserved element nor a root opening tag.  In every other case it
    returns. *)
Theorem svg_embed_error_cases (svg_bytes : bytes) (m : record) (payload : pystr) :
  json_dumps m = Ok payload →
  (Svg.embed_metadata svg_bytes m = Raise SVGMetadataError ↔
   (∃ e, utf8_decode svg_bytes = Raise e)
   ∨ ∃ text, utf8_decode svg_bytes = Ok text
       ∧ search_metadata text = None ∧ search_svg text = None)
  ∧ ((∃ out, Svg.embed_metadata svg_bytes m = Ok out)
     ∨ Svg.embed_metadata svg_bytes m = Raise SVGMetadataError).
Proof.
  intros Hp. destruct (utf8_decode svg_bytes) as [text|e] eqn:Hd.
  - destruct (search_metadata text) as [r|] eqn:Hs.
    + destruct (svg_embed_Ok svg_bytes m text payload) as [out Hout]; [done|done|eauto|].
      split; [|eauto]. rewrite Hout. split; [done|].
      intros [[e [=]]|(text' & [= <-] & Hs' & _)]. by rewrite Hs in Hs'.
    + destruct (search_svg text) as [r|] eqn:Hsvg.
      * destruct (svg_embed_Ok svg_bytes m text payload) as [out Hout]; [done|done|eauto|].
        split; [|eauto]. rewrite Hout. split; [done|].
        intros [[e [=]]|(text' & [= <-] & _ & Hsvg')]. by rewrite Hsvg in Hsvg'.
      * assert (Svg.embed_metadata svg_bytes m = Raise SVGMetadataError) as Hr.
        { unfold Svg.embed_metadata, Svg.decode_text. rewrite Hd, Hp. cbn [rbind].
      by rewrite Hs, Hsvg. }
        split; [|by right]. split; [|done]. intros _. right. by exists text.
  - assert (Svg.embed_metadata svg_bytes m = Raise SVGMetadataError) as Hr.
    { unfold Svg.embed_metadata, Svg.decode_text. by rewrite Hd. }
    split; [|by right]. split; [|done]. intros _. left. eauto.
Qed.

(** X8. Embedding a second record over a first replaces it and adds nothing:
    the result is what embedding the second record into the original
    document gives.  When no string of the second record holds a surrogate
    pair, extraction from it returns the second record. *)
Theorem svg_reembed_replaces (svg_bytes : bytes) (text : pystr) (m1 m2 : record)
    (p1 p2 : pystr) :
  unescape_undoes html_escape →
  utf8_decode svg_bytes = Ok text →
  Svg.embeddable text = true →
  json_dumps m1 = Ok p1 → json_dumps m2 = Ok p2 →
  ∃ o1 o2,
    Svg.embed_metadata svg_bytes m1 = Ok o1
    ∧ Svg.embed_metadata o1 m2 = Ok o2
    ∧ Svg.embed_metadata svg_bytes m2 = Ok o2
    ∧ (json_exact_record m2 → Svg.extract_metadata o2 = Ok (VDict m2)).
Proof.
  intros Hun Hd Hemb Hp1 Hp2.
  assert (Hfound : (∃ r, search_metadata text = Some r) ∨ (∃ r, search_svg text = Some r)).
  { unfold Svg.embeddable in Hemb.
    destruct (search_metadata text); [eauto|]. destruct (search_svg text); [eauto|done]. }
  destruct (svg_embed_Ok svg_bytes m1 text p1) as [o1 Ho1]; [done..|].
  destruct (svg_embed_Ok svg_bytes m2 text p2) as [o2 Ho2]; [done..|].
  exists o1, o2. split; [done|]. split; [|split; [done|intros Hex; by eapply svg_roundtrip_text]].
  apply svg_embed_inv in Ho1 as (t1 & q1 & n1 & Hd1 & Hq1 & Henc1 & Hn1).
  rewrite Hd in Hd1. injection Hd1 as <-. rewrite Hp1 in Hq1. injection Hq1 as <-.
  apply svg_embed_inv in Ho2 as (t2 & q2 & n2 & Hd2 & Hq2 & Henc2 & Hn2).
  rewrite Hd in Hd2. injection Hd2 as <-. rewrite Hp2 in Hq2. injection Hq2 as <-.
  destruct (escaped_payload_spec _ _ Hp1) as [_ Hlt1].
  unfold Svg.embed_metadata, Svg.decode_text.
  rewrite (utf8_decode_encode _ _ Henc1), Hp2. cbn [rbind].
  unfold Svg.embeddable in Hemb.
  destruct (search_metadata text) as [[[before body] after]|] eqn:Hs.
  - subst n1 n2. rewrite (search_metadata_replace text before body after) by done.
    by cbn [rbind].
  - destruct Hn1 as (before & after & Hsvg & ->).
    destruct Hn2 as (before' & after' & Hsvg' & ->).
    rewrite Hsvg in Hsvg'. injection Hsvg' as <- <-. rewrite Hsvg in Hemb.
    rewrite search_metadata_insert; [|by apply search_svg_Some in Hsvg as [_ ?]|done..].
    cbn [rbind]. rewrite <- Henc2. f_equal. by rewrite <- !(assoc_L (++)).
Qed.

Lemma signature_not_utf8 (data : bytes) :
  startswith data Png.PNG_SIGNATURE = true → utf8_decode data = Raise UnicodeDecodeError.
Proof. by intros ->%startswith_inv. Qed.

(** X9. The two codecs never accept the same bytes: what starts with the raster
    signature is not UTF-8, so the markup codec rejects it, and what is
    UTF-8 does not start with the signature, so the raster codec rejects
    it. *)
Theorem codecs_accept_disjoint_inputs (data : bytes) (m : record) :
  (startswith data Png.PNG_SIGNATURE = true →
   Svg.extract_metadata data = Raise SVGMetadataError
   ∧ Svg.embed_metadata data m = Raise SVGMetadataError)
  ∧ (∀ text, utf8_decode data = Ok text →
     Png.extract_metadata data = Raise PNGMetadataError
     ∧ Png.embed_metadata data m = Raise PNGMetadataError).
Proof.
  split.
  - intros Hs%signature_not_utf8.
    unfold Svg.extract_metadata, Svg.embed_metadata, Svg.decode_text. by rewrite Hs.
  - intros text Hok. destruct (startswith data Png.PNG_SIGNATURE) eqn:Hs.
    + apply signature_not_utf8 in Hs. congruence.
    + unfold Png.extract_metadata, Png.embed_metadata. by rewrite Hs.
Qed.

End SvgMore.

(** ** More on the file system and the orchestrator *)

Section FsMore.

Implicit Types (fs : filesystem) (p q : path).

Lemma forallb_false_ex {A} (f : A → bool) (l : list A) :
  forallb f l = false → ∃ x, In x l ∧ f x = false.
Proof.
  induction l as [|a l IH]; [done|]. simpl. intros [Ha|Hl]%andb_false_iff.
  - exists a. by split; [left|].
  - destruct (IH Hl) as (x & Hx & Hfx). exists x. by split; [right|].
Qed.

Lemma dir_of_dec q p : dir_of q p ∨ ¬ dir_of q p.
Proof.
  destruct (decide (Exists (λ i, q = take i p) (seq 1 (length p - 1)))) as [He|He].
  - left. apply Exists_exists in He as (i & Hi%elem_of_seq & ->). exists i. split; [lia|done].
  - right. intros (i & Hi & ->). apply He, Exists_exists. exists i.
    split; [apply elem_of_seq; lia|done].
Qed.

Lemma not_dir_of_self p : ¬ dir_of p p.
Proof. intros (i & Hi & Heq%(f_equal length)). rewrite length_take in Heq. lia. Qed.

(** A file in the way of a directory makes [mkdir] raise. *)
Lemma mkdir_prefixes_blocked done_ todo fs :
  (∃ i b, (1 ≤ i ≤ length todo)%nat ∧ fs !! (done_ ++ take i todo) = Some (File b)) →
  ∃ fs', mkdir_prefixes done_ todo fs = (Raise OSError, fs').
Proof.
  revert done_ fs. induction todo as [|c todo IH]; intros done_ fs (i & b & Hi & Hf).
  { simpl in Hi. lia. }
  cbn [mkdir_prefixes]. destruct (fs !! (done_ ++ [c])) as [[b'|]|] eqn:E; [eauto| |].
  - apply IH. destruct i as [|i]; [lia|]. destruct i as [|i].
    { cbn [take] in Hf. rewrite take_0 in Hf. congruence. }
    exists (S i), b. split; [simpl in Hi; lia|].
    rewrite lookup_insert_ne.
    + by rewrite <- (assoc_L (++)).
    + intros Heq%(f_equal length). rewrite !length_app, length_take in Heq.
      cbn [length] in Heq, Hi. lia.
  - apply IH. destruct i as [|i]; [lia|]. destruct i as [|i].
    { cbn [take] in Hf. rewrite take_0 in Hf. congruence. }
    exists (S i), b. split; [simpl in Hi; lia|].
    rewrite lookup_insert_ne.
    + by rewrite <- (assoc_L (++)).
    + intros Heq%(f_equal length). rewrite !length_app, length_take in Heq.
      cbn [length] in Heq, Hi. lia.
Qed.

Lemma mkdir_prefixes_keeps_files done_ todo fs r fs' q b :
  mkdir_prefixes done_ todo fs = (r, fs') →
  fs !! q = Some (File b) → fs' !! q = Some (File b).
Proof.
  revert done_ fs. induction todo as [|c todo IH]; intros done_ fs; cbn [mkdir_prefixes].
  - by intros [= _ <-].
  - destruct (fs !! (done_ ++ [c])) as [[b'|]|] eqn:E; [by intros [= _ <-]| |];
      intros Hm Hq; (eapply IH; [exact Hm|]);
      (rewrite lookup_insert_ne; [done|]); intros <-; congruence.
Qed.

(** A write that fails leaves every file as it was. *)
Lemma write_bytes_failed_keeps_files p payload fs e fs' q b :
  Core._write_bytes p payload fs = (Raise e, fs') →
  fs !! q = Some (File b) → fs' !! q = Some (File b).
Proof.
  unfold Core._write_bytes, io_bind. intros Hw Hq.
  destruct (mkdir_parents _ fs) as [[[]|r1] fs1] eqn:E1.
  - apply (mkdir_prefixes_keeps_files _ _ _ _ _ q b) in E1; [|done].
    unfold write_bytes in Hw. destruct (fs1 !! p) as [[?|]|]; [|by injection Hw as _ <-|];
      (destruct (is_dir fs1 (path_parent p)); [done|by injection Hw as _ <-]).
  - injection Hw as _ <-. by eapply mkdir_prefixes_keeps_files.
Qed.

Lemma write_bytes_raises p payload fs e fs' :
  Core._write_bytes p payload fs = (Raise e, fs') → e = OSError.
Proof.
  unfold Core._write_bytes, io_bind.
  assert (Hmk : ∀ d s r s', mkdir_parents d s = (Raise r, s') → r = OSError).
  { intros d. unfold mkdir_parents. generalize (@nil pystr).
    induction d as [|c d IH]; intros done_ s r s'; cbn [mkdir_prefixes]; [done|].
    destruct (s !! (done_ ++ [c])) as [[b|]|]; [by intros [= <- _]|apply IH..]. }
  destruct (mkdir_parents _ fs) as [[[]|r1] fs1] eqn:E1; [|intros [= <- _]; by apply Hmk in E1].
  unfold write_bytes. destruct (fs1 !! p) as [[?|]|]; [|by intros [= <- _]|];
    (destruct (is_dir fs1 (path_parent p)); [done|by intros [= <- _]]).
Qed.

(** Something in the way makes [_write_bytes] raise. *)
Lemma write_bytes_not_writable fs p (payload : bytes) :
  p ≠ [] → writable fs p = false →
  ∃ fs', Core._write_bytes p payload fs = (Raise OSError, fs').
Proof.
  intros Hp Hw. unfold writable in Hw. apply andb_false_iff in Hw.
  assert (Hlen : length (path_parent p) = (length p - 1)%nat).
  { unfold path_parent. rewrite length_take. lia. }
  destruct (forallb _ (seq 1 (length p - 1))) eqn:Hall.
  - destruct Hw as [Hw|Hw]; [done|].
    destruct (fs !! p) as [[b|]|] eqn:Hfp; try done.
    unfold Core._write_bytes, io_bind, mkdir_parents.
    rewrite mkdir_prefixes_ok.
    2:{ intros i Hi. cbn [app]. rewrite Hlen in Hi. unfold path_parent.
        rewrite take_take. replace (i `min` (length p - 1))%nat with i by lia.
        rewrite forallb_forall in Hall. apply Hall, in_seq. lia. }
    unfold write_bytes.
    assert (with_dirs [] (path_parent p) fs !! p = Some Dir) as ->; [|eauto].
    rewrite <- Hfp. apply with_dirs_lookup. intros (i & Hi & Heq%(f_equal length)).
    cbn [app] in Heq. rewrite length_take in Heq. lia.
  - clear Hw. apply forallb_false_ex in Hall as (i & Hi%in_seq & Hf).
    destruct (fs !! take i p) as [[b|]|] eqn:E; try done. clear Hf.
    unfold Core._write_bytes, io_bind, mkdir_parents.
    destruct (mkdir_prefixes_blocked [] (path_parent p) fs) as [fs' ->]; [|eauto].
    exists i, b. rewrite Hlen. split; [lia|]. cbn [app]. unfold path_parent.
    rewrite take_take. by replace (i `min` (length p - 1))%nat with i by lia.
Qed.


Lemma writable_written fs p b :
  fs !! p = Some (File b) → (∀ q, dir_of q p → fs !! q = Some Dir) → writable fs p = true.
Proof.
  intros Hf Hd. unfold writable. rewrite Hf. apply andb_true_iff. split; [|done].
  apply forallb_forall. intros i Hi%in_seq. rewrite (Hd (take i p)); [done|].
  exists i. split; [lia|done].
Qed.

End FsMore.

Section SavefigMore.
Context `{!PyLib}.
Variable w : Core.world.

Implicit Types (fs : filesystem) (p q : path).

(** What a save that goes through leaves behind. *)
Lemma savefig_effect name fig md kwargs fs figure_obj image_bytes out :
  let p := Path name in
  let suffix := Core.str_lower (path_suffix p) in
  let metadata_payload := Core._build_metadata w p md in
  let latest := [str "figures"; str "latest"; path_name p] in
  let history := Core._build_history_path w p metadata_payload in
  Core.supported suffix = true →
  Core._resolve_figure w fig = Ok figure_obj →
  Core._render_figure figure_obj (Core.lstrip_dot suffix) (default ∅ kwargs) = Ok image_bytes →
  Core.embed_for suffix image_bytes metadata_payload = Ok out →
  writable fs latest = true → writable fs history = true →
  ∃ fs',
    Core.savefig w name fig md kwargs fs
    = (Ok {| Core.latest_path := latest; Core.history_path := history;
             Core.metadata := metadata_payload |}, fs')
    ∧ fs' !! latest = Some (File out)
    ∧ fs' !! history = Some (File out)
    ∧ (∀ q, dir_of q latest ∨ dir_of q history → fs' !! q = Some Dir)
    ∧ (∀ q, q ≠ latest → q ≠ history → ¬ dir_of q latest → ¬ dir_of q history →
            fs' !! q = fs !! q).
Proof.
  cbv zeta. intros Hsup Hfig Hrender Hembed Hwl Hwh.
  set (metadata_payload := Core._build_metadata w (Path name) md) in *.
  set (latest := [str "figures"; str "latest"; path_name (Path name)]) in *.
  destruct (history_path_parts w (Path name) metadata_payload) as (c & cs & Hhist).
  set (history := Core._build_history_path w (Path name) metadata_payload) in *.
  assert (Hl1 : latest !! 1%nat = Some (str "latest")) by done.
  assert (Hh1 : history !! 1%nat = Some (str "history")) by (by rewrite Hhist).
  destruct (apart latest history _ _ Hl1 Hh1) as (Hne & Hlh & Hhl); [done|].
  destruct (write_bytes_ok fs latest out) as (fs1 & Hw1 & Hf1 & Hd1 & Ho1); [done..|].
  destruct (write_bytes_ok fs1 history out) as (fs2 & Hw2 & Hf2 & Hd2 & Ho2).
  { by rewrite Hhist. }
  { eapply writable_after; eauto. }
  exists fs2. split_and!; [|by rewrite Ho2, Hf1|done| |].
  - unfold Core.savefig. rewrite Hsup. cbn [negb].
    unfold io_bind at 1. unfold io_lift at 1. rewrite Hfig.
    unfold io_bind at 1. unfold io_lift at 1. fold metadata_payload. rewrite Hrender.
    unfold io_bind at 1. unfold io_lift at 1. rewrite Hembed.
    rewrite latest_path_parts by done. fold latest. fold history.
    unfold io_bind at 1. rewrite Hw1. unfold io_bind at 1. by rewrite Hw2.
  - intros q Hq. destruct (dir_of_dec q history) as [Hqh|Hqh]; [by apply Hd2|].
    destruct Hq as [Hql|Hql]; [|done].
    rewrite Ho2; [by apply Hd1| |done].
    intros ->. destruct Hql as (i & Hi & Hq). apply (f_equal (λ l, l !! 1%nat)) in Hq.
    rewrite Hh1 in Hq. symmetry in Hq. apply lookup_take_Some in Hq as [Hq _].
    by rewrite Hl1 in Hq.
  - intros q Hql Hqh Hdl Hdh. by rewrite Ho2, Ho1.
Qed.

(** X11. A save that goes through touches its two destinations and the
    directories above them, and nothing else: every other path holds
    what it held before.  (The history path is taken to have no [..]
    component, which would name a directory by another path.) *)
Theorem savefig_changes_only_destinations name fig md kwargs fs figure_obj
    (image_bytes out : bytes) :
  let p := Path name in
  let suffix := Core.str_lower (path_suffix p) in
  let record := Core._build_metadata w p md in
  let latest := [str "figures"; str "latest"; path_name p] in
  let history := Core._build_history_path w p record in
  Core.supported suffix = true →
  Core._resolve_figure w fig = Ok figure_obj →
  Core._render_figure figure_obj (Core.lstrip_dot suffix) (default ∅ kwargs) = Ok image_bytes →
  Core.embed_for suffix image_bytes record = Ok out →
  writable fs latest = true → writable fs history = true →
  str ".." ∉ history →
  ∃ r fs',
    Core.savefig w name fig md kwargs fs = (Ok r, fs')
    ∧ (∀ q, dir_of q latest ∨ dir_of q history → fs' !! q = Some Dir)
    ∧ (∀ q, q ≠ latest → q ≠ history → ¬ dir_of q latest → ¬ dir_of q history →
            fs' !! q = fs !! q).
Proof.
  cbv zeta. intros Hsup Hfig Hrender Hembed Hwl Hwh _.
  destruct (savefig_effect name fig md kwargs fs figure_obj image_bytes out)
    as (fs' & Hsave & _ & _ & Hd & Ho); [done..|].
  eauto.
Qed.

(** X12. Saving again on the same terms changes nothing: the second save
    returns what the first returned and leaves the file system of the
    first.  Two saves of one figure in the same second at the same
    revision write the same history file. *)
Theorem savefig_twice_same name fig md kwargs fs figure_obj (image_bytes out : bytes) :
  let p := Path name in
  let suffix := Core.str_lower (path_suffix p) in
  let record := Core._build_metadata w p md in
  let latest := [str "figures"; str "latest"; path_name p] in
  let history := Core._build_history_path w p record in
  Core.supported suffix = true →
  Core._resolve_figure w fig = Ok figure_obj →
  Core._render_figure figure_obj (Core.lstrip_dot suffix) (default ∅ kwargs) = Ok image_bytes →
  Core.embed_for suffix image_bytes record = Ok out →
  writable fs latest = true → writable fs history = true →
  ∃ r fs',
    Core.savefig w name fig md kwargs fs = (Ok r, fs')
    ∧ Core.savefig w name fig md kwargs fs' = (Ok r, fs').
Proof.
  cbv zeta. intros Hsup Hfig Hrender Hembed Hwl Hwh.
  destruct (savefig_effect name fig md kwargs fs figure_obj image_bytes out)
    as (fs1 & Hsave1 & Hl1 & Hh1 & Hd1 & Ho1); [done..|].
  destruct (savefig_effect name fig md kwargs fs1 figure_obj image_bytes out)
    as (fs2 & Hsave2 & Hl2 & Hh2 & Hd2 & Ho2); [done..| | |].
  { eapply writable_written; eauto. }
  { eapply writable_written; eauto. }
  do 2 eexists. split; [exact Hsave1|]. rewrite Hsave2. do 2 f_equal.
  apply map_eq. intros q.
  set (latest := [str "figures"; str "latest"; path_name (Path name)]) in *.
  set (history := Core._build_history_path w (Path name)
                    (Core._build_metadata w (Path name) md)) in *.
  destruct (decide (q = latest)) as [->|Hql]; [by rewrite Hl1, Hl2|].
  destruct (decide (q = history)) as [->|Hqh]; [by rewrite Hh1, Hh2|].
  destruct (dir_of_dec q latest) as [Hdl|Hdl]; [by rewrite Hd1, Hd2 by eauto|].
  destruct (dir_of_dec q history) as [Hdh|Hdh]; [by rewrite Hd1, Hd2 by eauto|].
  by apply Ho2.
Qed.

(** X13. The two writes are independent.  When a plain file sits where the
    history directory should be, the save raises [OSError] at the second
    write, after the latest copy is written: the latest copy holds the new
    bytes, and nothing is rolled back. *)
Theorem savefig_second_write_fails name fig md kwargs fs figure_obj
    (image_bytes out blocker : bytes) :
  let p := Path name in
  let suffix := Core.str_lower (path_suffix p) in
  let record := Core._build_metadata w p md in
  let latest := [str "figures"; str "latest"; path_name p] in
  Core.supported suffix = true →
  Core._resolve_figure w fig = Ok figure_obj →
  Core._render_figure figure_obj (Core.lstrip_dot suffix) (default ∅ kwargs) = Ok image_bytes →
  Core.embed_for suffix image_bytes record = Ok out →
  writable fs latest = true →
  fs !! [str "figures"; str "history"] = Some (File blocker) →
  ∃ fs',
    Core.savefig w name fig md kwargs fs = (Raise OSError, fs')
    ∧ fs' !! latest = Some (File out)
    ∧ fs' !! [str "figures"; str "history"] = Some (File blocker).
Proof.
  cbv zeta. intros Hsup Hfig Hrender Hembed Hwl Hblock.
  set (record := Core._build_metadata w (Path name) md) in *.
  set (latest := [str "figures"; str "latest"; path_name (Path name)]) in *.
  destruct (history_path_parts w (Path name) record) as (c & cs & Hhist).
  set (history := Core._build_history_path w (Path name) record) in *.
  destruct (write_bytes_ok fs latest out) as (fs1 & Hw1 & Hf1 & Hd1 & Ho1); [done..|].
  assert (Hb1 : fs1 !! [str "figures"; str "history"] = Some (File blocker)).
  { rewrite Ho1; [done|done|]. intros (i & Hi & Hq).
    apply (f_equal (λ l, l !! 1%nat)) in Hq. symmetry in Hq.
    apply lookup_take_Some in Hq as [Hq _]. done. }
  assert (Hwh : writable fs1 history = false).
  { unfold writable. apply andb_false_iff. left.
    apply not_true_iff_false. intros Hall. rewrite forallb_forall in Hall.
    specialize (Hall 2%nat). rewrite Hhist in Hall. cbn [app take] in Hall.
    rewrite take_0, Hb1 in Hall. discriminate Hall.
    apply in_seq. cbn [length]. rewrite length_app. cbn [length]. lia. }
  destruct (write_bytes_not_writable fs1 history out) as [fs2 Hw2]; [by rewrite Hhist|done|].
  exists fs2. split_and!.
  - unfold Core.savefig. rewrite Hsup. cbn [negb].
    unfold io_bind at 1. unfold io_lift at 1. rewrite Hfig.
    unfold io_bind at 1. unfold io_lift at 1. fold record. rewrite Hrender.
    unfold io_bind at 1. unfold io_lift at 1. rewrite Hembed.
    rewrite latest_path_parts by done. fold latest. fold history.
    unfold io_bind at 1. rewrite Hw1. unfold io_bind at 1. by rewrite Hw2.
  - by eapply write_bytes_failed_keeps_files.
  - by eapply write_bytes_failed_keeps_files.
Qed.

End SavefigMore.

Section LoadMore.
Context `{!PyLib} `{!JsonLaws}.





Lemma load_metadata_file s fs data v :
  fs !! Path s = Some (File data) →
  (if startswith data Png.PNG_SIGNATURE
   then Png.extract_metadata data else Svg.extract_metadata data) = Ok v →
  Core.load_metadata s fs = (Ok v, fs).
Proof.
  intros Hf Hv. unfold Core.load_metadata, io_bind, read_bytes, io_lift.
  by rewrite Hf, Hv.
Qed.

(** X16. What is saved can be loaded.  After a save that goes through, of a
    record in which no string holds a surrogate pair, loading either
    destination returns the record of the save.  For a markup figure the
    rendered document must be one in which the element written is the
    element found. *)
Theorem savefig_then_load (w : Core.world) name fig md kwargs fs figure_obj
    (image_bytes out : bytes) (s_latest s_history : pystr) :
  let p := Path name in
  let suffix := Core.str_lower (path_suffix p) in
  let record := Core._build_metadata w p md in
  let latest := [str "figures"; str "latest"; path_name p] in
  let history := Core._build_history_path w p record in
  unescape_undoes html_escape →
  json_exact_record record →
  Core.supported suffix = true →
  Core._resolve_figure w fig = Ok figure_obj →
  Core._render_figure figure_obj (Core.lstrip_dot suffix) (default ∅ kwargs) = Ok image_bytes →
  Core.embed_for suffix image_bytes record = Ok out →
  (suffix ≠ Core._PNG_EXT →
   ∃ text, utf8_decode image_bytes = Ok text ∧ Svg.embeddable text = true) →
  writable fs latest = true → writable fs history = true →
  startswith s_latest (str "/") = false → Path s_latest = latest →
  startswith s_history (str "/") = false → Path s_history = history →
  ∃ r fs',
    Core.savefig w name fig md kwargs fs = (Ok r, fs')
    ∧ Core.metadata r = record
    ∧ Core.load_metadata s_latest fs' = (Ok (VDict record), fs')
    ∧ Core.load_metadata s_history fs' = (Ok (VDict record), fs').
Proof.
  cbv zeta. intros Hun Hex Hsup Hfig Hrender Hembed Hsvg Hwl Hwh _ Hsl _ Hsh.
  destruct (savefig_effect w name fig md kwargs fs figure_obj image_bytes out)
    as (fs' & Hsave & Hl & Hh & _); [done..|].
  set (record := Core._build_metadata w (Path name) md) in *.
  assert (Hx : (if startswith out Png.PNG_SIGNATURE
                then Png.extract_metadata out else Svg.extract_metadata out)
               = Ok (VDict record)).
  { unfold Core.embed_for in Hembed. case_bool_decide as Hpng.
    - destruct (Png.embed_metadata image_bytes record) as [o|e] eqn:He; [|by destruct e].
      injection Hembed as ->.
      apply png_embed_inv in He as Hinv.
      destruct Hinv as (? & ? & ? & ? & _ & _ & _ & _ & _ & Hout & _).
      assert (startswith out Png.PNG_SIGNATURE = true) as ->
        by (rewrite Hout; apply startswith_app).
      by eapply png_extract_embedded.
    - destruct (Svg.embed_metadata image_bytes record) as [o|e] eqn:He; [|by destruct e].
      injection Hembed as ->. destruct (Hsvg Hpng) as (text & Hd & Hemb).
      apply svg_embed_inv in He as Hinv.
      destruct Hinv as (? & ? & new_text & _ & _ & Henc & _).
      apply utf8_decode_encode in Henc.
      destruct (startswith out Png.PNG_SIGNATURE) eqn:Hs.
      + apply signature_not_utf8 in Hs. congruence.
      + exact (svg_roundtrip_text image_bytes record out text Hun Hex Hd Hemb He). }
  do 2 eexists. split; [exact Hsave|]. split; [done|]. split.
  - apply (load_metadata_file _ _ out); [by rewrite Hsl|done].
  - apply (load_metadata_file _ _ out); [by rewrite Hsh|done].
Qed.

End LoadMore.

Section ComposerMore.
Context `{!PyLib}.

Lemma first_outside_spec frames :
  match Core.first_outside frames with
  | None => Forall (λ f, frame_skipped f = true) frames
  | Some s =>
      ∃ a f b, frames = a ++ f :: b
        ∧ Forall (λ f, frame_skipped f = true) a
        ∧ frame_skipped f = false
        ∧ s = default (Core.filename f) (Core.resolved f)
  end.
Proof.
  induction frames as [|f frames IH]; cbn [Core.first_outside]; [constructor|].
  assert (Hskip : frame_skipped f = true →
    match Core.first_outside frames with
    | None => Forall (λ f, frame_skipped f = true) (f :: frames)
    | Some s =>
        ∃ a g b, f :: frames = a ++ g :: b
          ∧ Forall (λ f, frame_skipped f = true) a
          ∧ frame_skipped g = false
          ∧ s = default (Core.filename g) (Core.resolved g)
    end).
  { intros Hf. destruct (Core.first_outside frames) as [s|].
    - destruct IH as (a & g & b & -> & Ha & Hg & ->).
      exists (f :: a), g, b. split_and!; try done. by constructor.
    - by constructor. }
  destruct (startswith (Core.filename f) (str "<")) eqn:H1.
  { apply Hskip. unfold frame_skipped. by rewrite H1. }
  destruct (Core.in_library f) eqn:H2.
  { apply Hskip. unfold frame_skipped. by rewrite H1, H2. }
  exists [], f, frames. split_and!; try done. unfold frame_skipped. by rewrite H1, H2.
Qed.

(** X18. The source of a save is taken from the innermost caller that is
    neither a pseudo-file nor part of the library: every frame nearer to
    the call is one of those, and the frame of [_infer_source_path] itself
    is not looked at.  The value is the resolved path of that frame, or its
    file name when resolving fails.  When every caller is skipped there is
    no source. *)
Theorem infer_source_path_spec (w : Core.world) :
  let callers := take (length (Core.w_stack w) - 1) (Core.w_stack w) in
  match Core._infer_source_path w with
  | None => Forall (λ f, frame_skipped f = true) callers
  | Some s =>
      ∃ older f newer,
        callers = older ++ f :: newer
        ∧ Forall (λ f, frame_skipped f = true) newer
        ∧ frame_skipped f = false
        ∧ s = default (Core.filename f) (Core.resolved f)
  end.
Proof.
  cbv zeta. unfold Core._infer_source_path.
  set (callers := take (length (Core.w_stack w) - 1) (Core.w_stack w)).
  pose proof (first_outside_spec (reverse callers)) as Hspec.
  destruct (Core.first_outside (reverse callers)) as [s|].
  - destruct Hspec as (a & f & b & Hrev & Ha & Hf & ->).
    exists (reverse b), f, (reverse a). split_and!; try done.
    + apply (f_equal reverse) in Hrev. rewrite reverse_involutive in Hrev.
      rewrite Hrev, reverse_app, reverse_cons. by rewrite <- (assoc_L (++)).
    + by apply Forall_reverse.
  - by apply Forall_reverse.
Qed.

Lemma lstrip_head s :
  lstrip s = [] ∨ ∃ c r, lstrip s = c :: r ∧ py_isspace c = false.
Proof.
  induction s as [|c s IH]; [by left|]. cbn [lstrip].
  destruct (py_isspace c) eqn:Hc; [done|]. right. eauto.
Qed.

Lemma lstrip_suffix s : ∃ sp, s = sp ++ lstrip s.
Proof.
  induction s as [|c s [sp IH]]; [by exists []|]. cbn [lstrip].
  destruct (py_isspace c); [|by exists []]. exists (c :: sp). cbn [app]. by f_equal.
Qed.

Lemma lstrip_snoc x c :
  py_isspace c = false → ∃ y, lstrip (x ++ [c]) = y ++ [c].
Proof.
  intros Hc. induction x as [|d x [y IH]]; cbn [app lstrip].
  - rewrite Hc. by exists [].
  - destruct (py_isspace d); [eauto|]. by exists (d :: x).
Qed.

Lemma strip_idem s : strip (strip s) = strip s.
Proof.
  unfold strip at 2 3. unfold rstrip.
  destruct (lstrip_head s) as [->|(c & r & -> & Hc)]; [done|].
  rewrite reverse_cons.
  destruct (lstrip_snoc (reverse r) c Hc) as [y Hy]. rewrite Hy.
  destruct (lstrip_head (reverse r ++ [c])) as [Hn|(d & r' & Hd & Hsp)].
  { rewrite Hy in Hn. by destruct y. }
  rewrite Hy in Hd. rewrite reverse_snoc.
  apply (strip_id _ c d); [done| |done|done].
  rewrite <- reverse_snoc, Hd, reverse_cons. apply last_snoc.
Qed.

Lemma format_git_hash_inferred (w : Core.world) :
  Core._format_git_hash (Core.or_none VStr (Core._infer_git_commit w))
  = revision_token (Core.w_git w).
Proof.
  unfold Core._infer_git_commit, revision_token.
  destruct (Core.w_git w) as [| |out]; [done..|].
  cbv zeta. destruct (is_empty (strip out)) eqn:He; [done|].
  cbn [Core.or_none Core._format_git_hash]. rewrite He, strip_idem. by rewrite He.
Qed.

(** X19. The history file of a save without caller metadata.  When the
    timestamp that the record holds parses back, the file is
    [figures/history/<stem>/_<time>_<revision><ext>], where the time is the
    clock reading of the save, the revision is the first seven characters
    of what [git] printed, stripped, or [nogit] when [git] is missing,
    fails or prints nothing, and the extension is the lower-case
    extension of the name, or [.png] when that is not a supported one. *)
Theorem history_path_of_default_record (w : Core.world) (p : path) :
  fromisoformat (isoformat (Core.w_now w)) = Some (Core.w_now w) →
  Core._build_history_path w p (Core._build_metadata w p None)
  = joinpath (joinpath Core._HISTORY_DIR (path_stem p))
      (str "_" ++ strftime_token (Core.w_now w) ++ str "_" ++ revision_token (Core.w_git w)
       ++ (if Core.supported (Core.str_lower (path_suffix p))
           then Core.str_lower (path_suffix p) else Core._PNG_EXT)).
Proof.
  intros Hiso. unfold Core._build_history_path.
  rewrite get_created_at, get_git_commit.
  rewrite (format_timestamp_token_parsed _ _ _ Hiso).
  by rewrite format_git_hash_inferred.
Qed.

(** X20. The keys of the record are the six default keys and the keys the
    caller supplied, and no other.  Without a caller value, [figure] is the
    file name and [created_at] is the clock reading in ISO format. *)
Theorem build_metadata_keys (w : Core.world) (p : path) (extra : option record) :
  (∀ k, is_Some (Core._build_metadata w p extra !! k) ↔
        k ∈ [str "figure"; str "created_at"; str "source"; str "cell_number";
             str "git_commit"; str "refig_version"]
        ∨ is_Some (default ∅ extra !! k))
  ∧ (default ∅ extra !! str "figure" = None →
     Core._build_metadata w p extra !! str "figure" = Some (VStr (path_name p)))
  ∧ (default ∅ extra !! str "created_at" = None →
     Core._build_metadata w p extra !! str "created_at"
     = Some (VStr (isoformat (Core.w_now w)))).
Proof.
  split_and!.
  - intros k. rewrite build_metadata_lookup.
    destruct (default ∅ extra !! k) as [v|] eqn:Hk.
    + split; [intros _; right; eauto|eauto].
    + split.
      * intros Hs. left. unfold Core._build_metadata in Hs.
        repeat (apply lookup_insert_is_Some in Hs as [<-|[_ Hs]];
                [apply list_elem_of_In; simpl; tauto|]).
        rewrite lookup_empty in Hs. by destruct Hs.
      * intros [Hin|Hs]; [|by destruct Hs]. unfold Core._build_metadata.
        repeat (apply elem_of_cons in Hin as [->|Hin]; [by simplify_map_eq|]).
        by apply elem_of_nil in Hin.
  - intros He. rewrite build_metadata_lookup, He. unfold Core._build_metadata.
    by simplify_map_eq.
  - intros He. rewrite build_metadata_lookup, He. unfold Core._build_metadata.
    by simplify_map_eq.
Qed.

(** X21. The revision token is never empty and never longer than seven
    characters, whatever the value of [git_commit] is. *)
Theorem format_git_hash_bounds (v : pyval) :
  (1 ≤ length (Core._format_git_hash v) ≤ 7)%nat.
Proof.
  assert (Hnogit : (1 ≤ length (str "nogit") ≤ 7)%nat) by (simpl; lia).
  destruct v as [| | |s| | |]; try exact Hnogit. cbn [Core._format_git_hash].
  destruct (is_empty s); [exact Hnogit|]. cbv zeta.
  destruct (strip s) as [|c t]; cbn [is_empty]; [simpl; lia|].
  rewrite length_take. cbn [length]. lia.
Qed.

End ComposerMore.

Section SavefigErrors.
Context `{!PyLib}.
Variable w : Core.world.

Lemma mkdir_prefixes_adds_no_file done_ todo fs r fs' q b :
  mkdir_prefixes done_ todo fs = (r, fs') →
  fs' !! q = Some (File b) → fs !! q = Some (File b).
Proof.
  revert done_ fs. induction todo as [|c todo IH]; intros done_ fs; cbn [mkdir_prefixes].
  - by intros [= _ <-].
  - destruct (fs !! (done_ ++ [c])) as [[b'|]|] eqn:E; [by intros [= _ <-]| |];
      intros Hm Hq; apply (IH _ _ Hm) in Hq;
      (destruct (decide (q = done_ ++ [c])) as [->|Hne];
       [by rewrite lookup_insert_eq in Hq|by rewrite lookup_insert_ne in Hq]).
Qed.

Lemma write_bytes_failed_adds_no_file p payload fs e fs' q b :
  Core._write_bytes p payload fs = (Raise e, fs') →
  fs' !! q = Some (File b) → fs !! q = Some (File b).
Proof.
  unfold Core._write_bytes, io_bind. intros Hw Hq.
  destruct (mkdir_parents _ fs) as [[[]|r1] fs1] eqn:E1.
  - apply (mkdir_prefixes_adds_no_file _ _ _ _ _ q b) in E1; [done|].
    unfold write_bytes in Hw. destruct (fs1 !! p) as [[?|]|]; [|by injection Hw as _ <-|];
      (destruct (is_dir fs1 (path_parent p)); [done|by injection Hw as _ <-]).
  - injection Hw as _ <-. by eapply mkdir_prefixes_adds_no_file.
Qed.

(** X14. When the latest copy cannot be written, the save raises [OSError] and
    the history copy is not written either: the files of the file system
    are those that were there, with their contents.  (Directories on the
    way may have been created.) *)
Theorem savefig_first_write_fails name fig md kwargs fs figure_obj
    (image_bytes out : bytes) :
  let p := Path name in
  let suffix := Core.str_lower (path_suffix p) in
  let record := Core._build_metadata w p md in
  let latest := [str "figures"; str "latest"; path_name p] in
  Core.supported suffix = true →
  Core._resolve_figure w fig = Ok figure_obj →
  Core._render_figure figure_obj (Core.lstrip_dot suffix) (default ∅ kwargs) = Ok image_bytes →
  Core.embed_for suffix image_bytes record = Ok out →
  writable fs latest = false →
  ∃ fs',
    Core.savefig w name fig md kwargs fs = (Raise OSError, fs')
    ∧ ∀ q b, fs' !! q = Some (File b) ↔ fs !! q = Some (File b).
Proof.
  cbv zeta. intros Hsup Hfig Hrender Hembed Hwl.
  set (latest := [str "figures"; str "latest"; path_name (Path name)]) in *.
  destruct (write_bytes_not_writable fs latest out) as [fs' Hw1]; [done..|].
  exists fs'. split.
  - unfold Core.savefig. rewrite Hsup. cbn [negb].
    unfold io_bind at 1. unfold io_lift at 1. rewrite Hfig.
    unfold io_bind at 1. unfold io_lift at 1. rewrite Hrender.
    unfold io_bind at 1. unfold io_lift at 1. rewrite Hembed.
    rewrite latest_path_parts by done. fold latest.
    unfold io_bind at 1. by rewrite Hw1.
  - intros q b. split.
    + by eapply write_bytes_failed_adds_no_file.
    + by eapply write_bytes_failed_keeps_files.
Qed.

(** X15. Only the codecs' own errors are turned into the embedding failure.
    When the record does not serialise, the error of [json.dumps] reaches
    the caller of [savefig] as it is, and nothing is written. *)
Theorem savefig_unserialisable_record name fig md kwargs fs figure_obj
    (image_bytes : bytes) (e : exn) :
  let p := Path name in
  let suffix := Core.str_lower (path_suffix p) in
  let record := Core._build_metadata w p md in
  Core.supported suffix = true →
  Core._resolve_figure w fig = Ok figure_obj →
  Core._render_figure figure_obj (Core.lstrip_dot suffix) (default ∅ kwargs) = Ok image_bytes →
  (if bool_decide (suffix = Core._PNG_EXT)
   then startswith image_bytes Png.PNG_SIGNATURE = true
   else ∃ text, utf8_decode image_bytes = Ok text) →
  json_dumps record = Raise e →
  e ≠ PNGMetadataError → e ≠ SVGMetadataError →
  Core.savefig w name fig md kwargs fs = (Raise e, fs).
Proof.
  cbv zeta. intros Hsup Hfig Hrender Himg Hdumps Hp Hs.
  unfold Core.savefig. rewrite Hsup. cbn [negb].
  unfold io_bind at 1. unfold io_lift at 1. rewrite Hfig.
  unfold io_bind at 1. unfold io_lift at 1. rewrite Hrender.
  unfold io_bind at 1. unfold io_lift at 1. unfold Core.embed_for.
  case_bool_decide as Hext.
  - unfold Png.embed_metadata. rewrite Himg, Hdumps. cbn [negb rbind]. by destruct e.
  - destruct Himg as [text Hd]. unfold Svg.embed_metadata, Svg.decode_text.
    rewrite Hd, Hdumps. cbn [rbind]. by destruct e.
Qed.

End SavefigErrors.

Section TimestampMore.
Context `{!PyLib}.

Lemma format_timestamp_token_datetime (w : Core.world) dt :
  Core._format_timestamp_token w (VDatetime dt) = strftime_token dt.
Proof. unfold Core._format_timestamp_token. by destruct dt as [? ? ? ? ? ? ? [|]]. Qed.

(** X22. The timestamp token is made of the clock fields of the timestamp
    and of nothing else: two timestamps that read the same on the clock
    give the same token, whatever their offsets from UTC are, as strings
    that parse and as timestamp values. *)
Theorem timestamp_token_ignores_offset (w : Core.world) (s1 s2 : pystr) (dt1 dt2 : datetime) :
  fromisoformat s1 = Some dt1 → fromisoformat s2 = Some dt2 →
  year dt1 = year dt2 → month dt1 = month dt2 → day dt1 = day dt2 →
  hour dt1 = hour dt2 → minute dt1 = minute dt2 → second dt1 = second dt2 →
  Core._format_timestamp_token w (VStr s1) = Core._format_timestamp_token w (VStr s2)
  ∧ Core._format_timestamp_token w (VDatetime dt1)
    = Core._format_timestamp_token w (VDatetime dt2).
Proof.
  intros H1 H2 Hy Hmo Hd Hh Hmi Hs.
  rewrite (format_timestamp_token_parsed _ _ _ H1), (format_timestamp_token_parsed _ _ _ H2).
  rewrite !format_timestamp_token_datetime.
  assert (strftime_token dt1 = strftime_token dt2) as ->; [|done].
  unfold strftime_token. by rewrite Hy, Hmo, Hd, Hh, Hmi, Hs.
Qed.

End TimestampMore.

Section SavefigReturns.
Context `{!PyLib}.
Variable w : Core.world.

Implicit Types (fs : filesystem) (p q : path).


(** X26. The two destinations of a save never coincide and neither lies
    under the other: the latest copy is under [figures/latest], the
    history copy under [figures/history], for every name and record. *)
Theorem destinations_apart (name : pystr) (m : record) :
  let p := Path name in
  let latest := joinpath Core._LATEST_DIR (path_name p) in
  let history := Core._build_history_path w p m in
  take 2 latest = [str "figures"; str "latest"]
  ∧ take 2 history = [str "figures"; str "history"]
  ∧ latest ≠ history ∧ ¬ dir_of latest history ∧ ¬ dir_of history latest.
Proof.
  cbv zeta. destruct (history_path_parts w (Path name) m) as (c & cs & Hhist).
  rewrite Hhist. unfold joinpath. rewrite LATEST_DIR_parts.
  split; [done|]. split; [done|].
  by apply (apart _ _ (str "latest") (str "history")).
Qed.


End SavefigReturns.

(** ** The further properties at work *)

Lemma png_extract_skips_foreign_chunks_witness :
  Png.extract_metadata
    (Png.PNG_SIGNATURE
     ++ mjoin (frame_with <$> [(str "IHDR", [0; 0; 0; 1; 0; 0; 0; 1; 8; 0; 0; 0; 0], [1; 2; 3; 4])])
     ++ Png.frame (Png.tEXt, str "refig" ++ [0] ++ str "{}"))
  = Png.extract_metadata
      (Png.PNG_SIGNATURE ++ Png.frame (Png.tEXt, str "refig" ++ [0] ++ str "{}")).
Proof.
  apply (@png_extract_skips_foreign_chunks Ref.lib).
  apply Forall_cons. split; [|apply Forall_nil_2].
  split; [done|]. split; [done|]. by left.
Defined.

Lemma png_extract_reads_first_block_witness :
  Png.extract_metadata
    (Png.PNG_SIGNATURE ++ Png.big_endian 8 ++ Png.tEXt
     ++ (str "refig" ++ [0] ++ str "{}") ++ [9; 9])
  = Ok (VDict ∅).
Proof.
  exact (@png_extract_reads_first_block Ref.lib (str "{}") (str "{}") [9; 9] eq_refl eq_refl).
Defined.

Lemma png_extract_short_length_field_witness :
  Png.extract_metadata (Png.PNG_SIGNATURE ++ [0; 0]) = Raise StructError.
Proof.
  apply (@png_extract_short_length_field Ref.lib [] [0; 0]); [apply Forall_nil_2|simpl; lia].
Defined.

Lemma png_extract_foreign_text_not_utf8_witness :
  Png.extract_metadata
    (Png.PNG_SIGNATURE
     ++ frame_with (Png.tEXt, str "Comment" ++ [0] ++ [233], [0; 0; 0; 0])
     ++ Png.frame (Png.tEXt, str "refig" ++ [0] ++ str "{}"))
  = Raise UnicodeDecodeError.
Proof.
  apply (@png_extract_foreign_text_not_utf8 Ref.lib [] (str "Comment") [233] [0; 0; 0; 0] _
           UnicodeDecodeError);
    first [done | apply Forall_nil_2 | by apply (bool_decide_unpack _); vm_compute].
Defined.

Lemma text_chunk_roundtrip_witness :
  Png._build_text_chunk (str "Comment") (str "hi")
  = Ok (Png.frame (Png.tEXt, str "Comment" ++ [0] ++ str "hi"))
  ∧ Png._split_text_chunk (str "Comment" ++ [0] ++ str "hi") = Ok (str "Comment", str "hi").
Proof.
  destruct (text_chunk_roundtrip (str "Comment") (str "hi") (str "hi")) as (Hb & _ & Hs);
    [done|by apply (bool_decide_unpack _); vm_compute|done|by vm_compute|].
  exact (conj Hb Hs).
Defined.

Lemma svg_embed_changes_one_place_witness :
  ∃ out, Svg.embed_metadata Samples.svg_plain Samples.record_other = Ok out
    ∧ utf8_decode out
      = Ok (str "<?xml version='1.0'?><svg width='4' height='3'>" ++ [10; 32; 32]
            ++ Svg.metadata_open
            ++ html_escape (str "{" ++ [34] ++ str "figure" ++ [34] ++ str ":" ++ [34]
                            ++ str "other.png" ++ [34] ++ str "}")
            ++ str "</metadata>" ++ [10] ++ str "<g/></svg>").
Proof.
  pose proof (@svg_embed_changes_one_place Ref.lib RefFacts.json_laws Samples.svg_plain Samples.svg_plain
                Samples.record_other
                (str "{" ++ [34] ++ str "figure" ++ [34] ++ str ":" ++ [34]
                 ++ str "other.png" ++ [34] ++ str "}") eq_refl eq_refl) as Hone.
  replace (search_metadata Samples.svg_plain) with (@None (pystr * pystr * pystr)) in Hone
    by (by vm_compute).
  replace (search_svg Samples.svg_plain)
    with (Some (str "<?xml version='1.0'?><svg width='4' height='3'>", str "<g/></svg>"))
    in Hone by (by vm_compute).
  exact (proj2 Hone).
Defined.

Lemma svg_embed_error_cases_witness :
  Svg.embed_metadata (str "<html></html>") Samples.record_other = Raise SVGMetadataError.
Proof.
  destruct (@svg_embed_error_cases Ref.lib RefFacts.json_laws (str "<html></html>") Samples.record_other
              (str "{" ++ [34] ++ str "figure" ++ [34] ++ str ":" ++ [34]
               ++ str "other.png" ++ [34] ++ str "}") eq_refl) as [Hiff _].
  apply Hiff. right. exists (str "<html></html>"). by vm_compute.
Defined.

Lemma svg_reembed_replaces_witness :
  ∃ o1 o2,
    Svg.embed_metadata Samples.svg_plain Samples.record_plot = Ok o1
    ∧ Svg.embed_metadata o1 Samples.record_other = Ok o2
    ∧ Svg.embed_metadata Samples.svg_plain Samples.record_other = Ok o2
    ∧ Svg.extract_metadata o2 = Ok (VDict Samples.record_other).
Proof.
  destruct (json_dumps Samples.record_plot) as [p1|] eqn:Hp1; [|by vm_compute in Hp1].
  destruct (json_dumps Samples.record_other) as [p2|] eqn:Hp2; [|by vm_compute in Hp2].
  destruct (@svg_reembed_replaces Ref.lib RefFacts.json_laws Samples.svg_plain
              Samples.svg_plain Samples.record_plot Samples.record_other p1 p2)
    as (o1 & o2 & H1 & H2 & H3 & Hx);
    [exact RefFacts.unescape_escape|by vm_compute|by vm_compute|exact Hp1|exact Hp2|].
  exists o1, o2.
  exact (conj H1 (conj H2 (conj H3
           (Hx (exact_scalars_spec Samples.record_other eq_refl))))).
Defined.


Lemma savefig_changes_only_destinations_witness :
  ∃ r fs',
    Core.savefig Samples.world_script (str "plot.png") None None None
      {[ [str "notes.txt"] := File (str "keep") ]} = (Ok r, fs')
    ∧ fs' !! [str "notes.txt"] = Some (File (str "keep"))
    ∧ fs' !! [str "figures"; str "history"; str "plot"] = Some Dir.
Proof.
  destruct (Png.embed_metadata Samples.png_plain
              (Core._build_metadata Samples.world_script (Path (str "plot.png")) None))
    as [out|] eqn:E; [|by vm_compute in E].
  assert (Hhist : Core._build_history_path Samples.world_script (Path (str "plot.png"))
                    (Core._build_metadata Samples.world_script (Path (str "plot.png")) None)
                  = [str "figures"; str "history"; str "plot";
                     str "_20240101T120000_0123456.png"]) by (by vm_compute).
  destruct (@savefig_changes_only_destinations Ref.lib Samples.world_script (str "plot.png")
              None None None {[ [str "notes.txt"] := File (str "keep") ]} Samples.figure_ok
              Samples.png_plain out) as (r & fs' & Hsave & Hd & Ho);
    [by vm_compute..|by apply embed_for_png|by vm_compute|by vm_compute| |].
  { rewrite Hhist. by apply (bool_decide_unpack _); vm_compute. }
  rewrite Hhist in Hd, Ho.
  exists r, fs'. split; [exact Hsave|]. split.
  - rewrite Ho; [done|done|done| |].
    + intros (i & Hi & Hq). by destruct i as [|[|[|]]].
    + intros (i & Hi & Hq). by destruct i as [|[|[|[|]]]].
  - apply Hd. right. exists 3%nat. split; [|done]. cbn [length]. lia.
Defined.

Lemma savefig_twice_same_witness :
  ∃ r fs',
    Core.savefig Samples.world_script (str "plot.png") None None None ∅ = (Ok r, fs')
    ∧ Core.savefig Samples.world_script (str "plot.png") None None None fs' = (Ok r, fs').
Proof.
  destruct (Png.embed_metadata Samples.png_plain
              (Core._build_metadata Samples.world_script (Path (str "plot.png")) None))
    as [out|] eqn:E; [|by vm_compute in E].
  apply (@savefig_twice_same Ref.lib Samples.world_script (str "plot.png") None None None ∅
           Samples.figure_ok Samples.png_plain out);
    [by vm_compute..|by apply embed_for_png|by vm_compute|by vm_compute].
Defined.

Lemma savefig_second_write_fails_witness :
  ∃ fs' out,
    Core.savefig Samples.world_script (str "plot.png") None None None
      {[ [str "figures"; str "history"] := File [] ]} = (Raise OSError, fs')
    ∧ fs' !! [str "figures"; str "latest"; str "plot.png"] = Some (File out).
Proof.
  destruct (Png.embed_metadata Samples.png_plain
              (Core._build_metadata Samples.world_script (Path (str "plot.png")) None))
    as [out|] eqn:E; [|by vm_compute in E].
  destruct (@savefig_second_write_fails Ref.lib Samples.world_script (str "plot.png") None None None
              {[ [str "figures"; str "history"] := File [] ]} Samples.figure_ok
              Samples.png_plain out []) as (fs' & Hsave & Hl & _);
    [by vm_compute..|by apply embed_for_png|by vm_compute|exact eq_refl|].
  exists fs', out. exact (conj Hsave Hl).
Defined.


Lemma savefig_then_load_witness :
  ∃ r fs',
    Core.savefig Samples.world_script (str "plot.png") None None None ∅ = (Ok r, fs')
    ∧ Core.load_metadata (str "figures/latest/plot.png") fs'
      = (Ok (VDict (Core.metadata r)), fs')
    ∧ Core.load_metadata (str "figures/history/plot/_20240101T120000_0123456.png") fs'
      = (Ok (VDict (Core.metadata r)), fs').
Proof.
  destruct (Png.embed_metadata Samples.png_plain
              (Core._build_metadata Samples.world_script (Path (str "plot.png")) None))
    as [out|] eqn:E; [|by vm_compute in E].
  destruct (@savefig_then_load Ref.lib RefFacts.json_laws Samples.world_script (str "plot.png") None None None ∅
              Samples.figure_ok Samples.png_plain out (str "figures/latest/plot.png")
              (str "figures/history/plot/_20240101T120000_0123456.png"))
    as (r & fs' & Hsave & Hr & Hl & Hh);
    [exact RefFacts.unescape_escape|apply exact_scalars_spec; by vm_compute|
     by vm_compute|by vm_compute|by vm_compute|
     by apply embed_for_png|by intros []|by vm_compute|by vm_compute|by vm_compute|
     by vm_compute|by vm_compute|by vm_compute|].
  exists r, fs'. rewrite Hr. exact (conj Hsave (conj Hl Hh)).
Defined.

Lemma history_path_of_default_record_witness :
  Core._build_history_path Samples.world_script [str "plot.png"]
    (Core._build_metadata Samples.world_script [str "plot.png"] None)
  = [str "figures"; str "history"; str "plot"; str "_20240101T120000_0123456.png"].
Proof.
  rewrite (@history_path_of_default_record Ref.lib Samples.world_script [str "plot.png"]);
    by vm_compute.
Defined.

Lemma savefig_first_write_fails_witness :
  ∃ fs',
    Core.savefig Samples.world_script (str "plot.png") None None None
      {[ [str "figures"; str "latest"; str "plot.png"] := Dir ]} = (Raise OSError, fs')
    ∧ ∀ q b, fs' !! q ≠ Some (File b).
Proof.
  destruct (Png.embed_metadata Samples.png_plain
              (Core._build_metadata Samples.world_script (Path (str "plot.png")) None))
    as [out|] eqn:E; [|by vm_compute in E].
  destruct (@savefig_first_write_fails Ref.lib Samples.world_script (str "plot.png") None None None
              {[ [str "figures"; str "latest"; str "plot.png"] := Dir ]} Samples.figure_ok
              Samples.png_plain out) as (fs' & Hsave & Hfiles);
    [by vm_compute..|by apply embed_for_png|by vm_compute|].
  exists fs'. split; [exact Hsave|]. intros q b Hq. apply Hfiles in Hq.
  apply lookup_singleton_Some in Hq as [_ [=]].
Defined.

Lemma savefig_unserialisable_record_witness :
  Core.savefig Samples.world_script (str "plot.png") None
    (Some {[ str "when" := VDatetime (mkDatetime 2024 1 1 12 0 0 0 None) ]}) None ∅
  = (Raise TypeError, ∅).
Proof.
  apply (@savefig_unserialisable_record Ref.lib Samples.world_script (str "plot.png") None _ None ∅
           Samples.figure_ok Samples.png_plain); by vm_compute.
Defined.

Lemma timestamp_token_ignores_offset_witness :
  utc_seconds (mkDatetime 2024 1 1 12 0 0 0 (Some 18000))
  ≠ utc_seconds (mkDatetime 2024 1 1 12 0 0 0 (Some 0))
  ∧ Core._format_timestamp_token Samples.world_script (VStr (str "2024-01-01T12:00:00+05:00"))
    = Core._format_timestamp_token Samples.world_script (VStr (str "2024-01-01T12:00:00+00:00")).
Proof.
  split; [by vm_compute|].
  apply (@timestamp_token_ignores_offset Ref.lib Samples.world_script
           (str "2024-01-01T12:00:00+05:00") (str "2024-01-01T12:00:00+00:00")
           (mkDatetime 2024 1 1 12 0 0 0 (Some 18000))
           (mkDatetime 2024 1 1 12 0 0 0 (Some 0))); by vm_compute.
Defined.

Lemma png_embed_adds_one_block_witness :
  ∃ out,
    Png.embed_metadata Samples.png_plain Samples.record_other = Ok out
    ∧ Png.reserved_blocks (Png._iter_chunks out) = 1%nat
    ∧ Png.extract_metadata out = Ok (VDict Samples.record_other).
Proof.
  destruct (json_dumps Samples.record_other) as [payload|] eqn:Hp; [|by vm_compute in Hp].
  destruct (@png_embed_adds_one_block Ref.lib RefFacts.json_laws Samples.png_plain
              Samples.record_other payload) as (out & Hout & Hn & Hx);
    [by vm_compute|exact Hp| |].
  { vm_compute in Hp. injection Hp as <-. by vm_compute. }
  exists out. split; [exact Hout|].
  split; [|exact (Hx (exact_scalars_spec Samples.record_other eq_refl))].
  rewrite Hn. by vm_compute.
Defined.
